(** * ollama-chat: the chat / message persistence model

    A shallow embedding of the two backends of the repository,
    [api/server.js] (Express handlers over a mysql2 pool) and
    [backend/api.php] (PDO controllers), over one relational store with the
    three tables of the schema ([users], [chats], [messages]).

    Conventions of the embedding:
    - a table is the list of its rows, in insertion order;
    - strings are compared exactly (a binary collation) and their length is
      their number of characters;
    - a request field that JavaScript or PHP may find missing is an
      [option string]; user identities are numbers;
    - [CURRENT_TIMESTAMP] is an explicit argument of every statement that
      reads the clock, so a handler that runs two such statements takes two
      clock readings;
    - the server runs in MySQL's strict mode (the default of mysql:8.0): a
      value longer than its column is refused with an error instead of
      being truncated;
    - what the server makes of a value bound to the [sender] ENUM is a
      parameter of the statements that write it ([SenderColumn]), and
      [ORDER BY timestamp] has the timestamp as its only key.

    Hashing, password checks and the verification of a bearer token are
    parameters of the handlers that call them; a handler behind
    [authenticateToken] receives the identity that its token carries. *)

From Stdlib Require Import String Ascii List Arith NArith Bool Lia.
From Stdlib Require Import Sorting.Sorted Sorting.Permutation.
Import ListNotations.
Open Scope string_scope.

(** ** Rows and tables (init.sql; [Database::initTables]) *)

Record User := mkUser {
  user_id : nat;
  username : string;
  email : string;
  password_hash : string;
  theme_preference : string;
  user_created_at : nat;
  user_updated_at : nat
}.

Record Chat := mkChat {
  chat_id : string;
  chat_user_id : nat;
  chat_name : string;
  chat_model : string;
  created_at : nat;
  updated_at : nat
}.

Record Message := mkMessage {
  message_id : nat;
  msg_chat_id : string;
  sender : string;
  content : string;
  msg_model : option string;
  response_info : option string;
  timestamp : nat
}.

(** The AUTO_INCREMENT counters of [users.id] and [messages.id] are part of
    the store. *)
Record Store := mkStore {
  users : list User;
  chats : list Chat;
  messages : list Message;
  next_user_id : nat;
  next_message_id : nat
}.

Definition set_users (s : Store) (us : list User) (n : nat) : Store :=
  mkStore us (chats s) (messages s) n (next_message_id s).

Definition set_chats (s : Store) (cs : list Chat) : Store :=
  mkStore (users s) cs (messages s) (next_user_id s) (next_message_id s).

Definition set_messages (s : Store) (ms : list Message) (n : nat) : Store :=
  mkStore (users s) (chats s) ms (next_user_id s) n.

Definition set_chats_messages (s : Store) (cs : list Chat) (ms : list Message) : Store :=
  mkStore (users s) cs ms (next_user_id s) (next_message_id s).

(** ** SQL building blocks *)

Inductive DbError :=
| ER_DUP_ENTRY
| ER_NO_REFERENCED_ROW
| ER_DATA_TOO_LONG
| ER_TRUNCATED_ENUM.

(** [ORDER BY]: insertion sort under a boolean order. *)
Section OrderBy.
Context {A : Type} (le : A -> A -> bool).

Fixpoint insert_sorted (x : A) (l : list A) : list A :=
  match l with
  | [] => [x]
  | y :: l' => if le x y then x :: l else y :: insert_sorted x l'
  end.

Fixpoint order_by (l : list A) : list A :=
  match l with
  | [] => []
  | x :: l' => insert_sorted x (order_by l')
  end.
End OrderBy.

(** [LIMIT 1] of a scalar subquery: the first row, or NULL. *)
Definition limit_1 {A : Type} (l : list A) : option A :=
  match l with
  | [] => None
  | x :: _ => Some x
  end.

Definition is_nil {A : Type} (l : list A) : bool :=
  match l with
  | [] => true
  | _ :: _ => false
  end.

Definition count {A : Type} (p : A -> bool) (l : list A) : nat :=
  length (filter p l).

(** A value fits a VARCHAR(n) or TEXT column of width [n]. *)
Definition fits (n : N) (x : string) : bool := (N.of_nat (String.length x) <=? n)%N.

Definition fits_opt (n : N) (x : option string) : bool :=
  match x with
  | None => true
  | Some v => fits n v
  end.

(** The column [sender ENUM('user', 'ai')]. What the server makes of a value
    bound to it is not in the sources: it stores the two members as they
    are, and another value (a case variant, an index such as '1', anything
    else) it either refuses or stores as the member it takes it for. A
    [SenderColumn] is that decision: the member stored, or the refusal. It
    is a parameter of every statement that writes the column. *)
Definition SenderColumn : Type := string -> option string.

(** The column that takes the two members and refuses everything else. *)
Definition members : SenderColumn :=
  fun x => if (x =? "user") || (x =? "ai") then Some x else None.

(** The sender of the row that the column writes for a value it takes. *)
Definition stored_sender (sender_column : SenderColumn) (x : string) : string :=
  match sender_column x with
  | Some member => member
  | None => x
  end.

(** [theme_preference ENUM('light', 'dark')]. *)
Definition theme_enum (x : string) : bool := (x =? "light") || (x =? "dark").

(** [ORDER BY timestamp]: the timestamp is the only key. The statements
    fix no order among rows of equal timestamp; the sort leaves them as it
    finds them, and no property below rests on where they fall. *)
Definition timestamp_asc (a b : Message) : bool :=
  (timestamp a <=? timestamp b)%nat.

Definition timestamp_desc (a b : Message) : bool := timestamp_asc b a.

(** [ORDER BY c.updated_at DESC]. *)
Definition updated_at_desc (a b : Chat) : bool := (updated_at b <=? updated_at a)%nat.

Definition in_chat (chatId : string) (m : Message) : bool := msg_chat_id m =? chatId.

(** SELECT ... FROM messages WHERE chat_id = ? ORDER BY timestamp ASC *)
Definition select_messages (chatId : string) (s : Store) : list Message :=
  order_by timestamp_asc (filter (in_chat chatId) (messages s)).

(** (SELECT content FROM messages WHERE chat_id = c.id
     ORDER BY timestamp DESC LIMIT 1) *)
Definition select_last_message (chatId : string) (s : Store) : option string :=
  option_map content
    (limit_1 (order_by timestamp_desc (filter (in_chat chatId) (messages s)))).

Definition owned_by (chatId : string) (userId : nat) (c : Chat) : bool :=
  (chat_id c =? chatId) && (chat_user_id c =? userId)%nat.

(** SELECT ... FROM chats WHERE id = ? AND user_id = ? *)
Definition select_chat (chatId : string) (userId : nat) (s : Store) : list Chat :=
  filter (owned_by chatId userId) (chats s).

(** SELECT ... FROM chats WHERE id = ? *)
Definition select_chat_by_id (chatId : string) (s : Store) : list Chat :=
  filter (fun c => chat_id c =? chatId) (chats s).

(** SELECT id FROM users WHERE username = ? OR email = ? *)
Definition select_users (name mail : string) (s : Store) : list User :=
  filter (fun u => (username u =? name) || (email u =? mail)) (users s).

Definition user_exists (userId : nat) (s : Store) : bool :=
  existsb (fun u => (user_id u =? userId)%nat) (users s).

Definition chat_exists (chatId : string) (s : Store) : bool :=
  existsb (fun c => chat_id c =? chatId) (chats s).

(** INSERT INTO users (username, email, password_hash) VALUES (?, ?, ?):
    both names are UNIQUE, the theme takes its default, the result is the
    insert id. *)
Definition insert_user (name mail hash : string) (now : nat) (s : Store)
  : DbError + (Store * nat) :=
  if negb (fits 50 name && fits 100 mail && fits 255 hash) then inl ER_DATA_TOO_LONG
  else if negb (is_nil (select_users name mail s)) then inl ER_DUP_ENTRY
  else
    let id := next_user_id s in
    inr (set_users s (users s ++ [mkUser id name mail hash "light" now now]) (S id), id).

Definition set_theme (u : User) (theme : string) (now : nat) : User :=
  mkUser (user_id u) (username u) (email u) (password_hash u) theme
    (user_created_at u) now.

(** UPDATE users SET <theme column> = ? WHERE id = ?, on a column that
    [accepts] some values and refuses the others with [refusal].
    [updated_at] is ON UPDATE CURRENT_TIMESTAMP: it moves when the row
    changes. *)
Definition update_theme_column (accepts : string -> bool) (refusal : DbError)
    (theme : string) (userId now : nat) (s : Store) : DbError + (Store * nat) :=
  let hit u := (user_id u =? userId)%nat in
  if existsb hit (users s) && negb (accepts theme) then inl refusal
  else
    inr (set_users s
           (map (fun u => if hit u && negb (theme_preference u =? theme)
                          then set_theme u theme now else u) (users s))
           (next_user_id s),
         count hit (users s)).

(** INSERT INTO messages (chat_id, sender, content, model, response_info
    [, timestamp]): the chat is a foreign key, the sender an ENUM, the
    content a TEXT. *)
Definition insert_message (sender_column : SenderColumn) (chatId snd txt : string)
    (model info : option string) (ts : nat) (s : Store) : DbError + (Store * nat) :=
  match sender_column snd with
  | None => inl ER_TRUNCATED_ENUM
  | Some member =>
      if negb (fits 65535 txt && fits_opt 100 model && fits_opt 50 info)
      then inl ER_DATA_TOO_LONG
      else if negb (chat_exists chatId s) then inl ER_NO_REFERENCED_ROW
      else
        let id := next_message_id s in
        inr (set_messages s
               (messages s ++ [mkMessage id chatId member txt model info ts]) (S id),
             id)
  end.

(** DELETE FROM chats WHERE ...: the foreign key of [messages.chat_id] is
    ON DELETE CASCADE, so the messages of every deleted chat go in the same
    statement. The result is the number of deleted chats. *)
Definition delete_chats (doomed : Chat -> bool) (s : Store) : Store * nat :=
  let gone := filter doomed (chats s) in
  let orphan m := existsb (fun c => chat_id c =? msg_chat_id m) gone in
  (set_chats_messages s
     (filter (fun c => negb (doomed c)) (chats s))
     (filter (fun m => negb (orphan m)) (messages s)),
   length gone).

(** ** Handlers as store computations

    A handler runs its statements one after the other on the pool, each in
    its own implicit transaction (autocommit). [seen] lists the states of
    the store that were current before the final one, oldest first: another
    request, or a crash, meets one of [seen ++ [final]]. *)
Record Run (A : Type) := mkRun {
  seen : list Store;
  final : Store;
  result : DbError + A
}.
Arguments mkRun {A}.
Arguments seen {A}.
Arguments final {A}.
Arguments result {A}.

Definition DB (A : Type) : Type := Store -> Run A.

Definition ret {A : Type} (a : A) : DB A := fun s => mkRun [] s (inr a).

Definition bind {A B : Type} (m : DB A) (f : A -> DB B) : DB B :=
  fun s =>
    let r := m s in
    match result r with
    | inl e => mkRun (seen r) (final r) (inl e)
    | inr a =>
        let r' := f a (final r) in
        mkRun (seen r ++ seen r') (final r') (result r')
    end.

(** A SELECT. *)
Definition query {A : Type} (q : Store -> A) : DB A := fun s => mkRun [] s (inr (q s)).

(** An INSERT, UPDATE or DELETE: it commits, or throws and changes nothing. *)
Definition execute {A : Type} (w : Store -> DbError + (Store * A)) : DB A :=
  fun s =>
    match w s with
    | inl e => mkRun [] s (inl e)
    | inr (s', a) => mkRun [s] s' (inr a)
    end.

Declare Scope db_scope.
Delimit Scope db_scope with db.
Notation "x <- m ;; k" := (bind m (fun x => k))
  (at level 61, m at next level, right associativity) : db_scope.

(** [!x] on a field of the request: it is missing, or the empty string. *)
Definition js_not (x : option string) : bool :=
  match x with
  | None => true
  | Some EmptyString => true
  | Some (String _ _) => false
  end.

(** The string that a handler binds to a statement for a field. *)
Definition str (x : option string) : string :=
  match x with
  | None => ""
  | Some v => v
  end.

(** [x || null] *)
Definition or_null (x : option string) : option string :=
  if js_not x then None else x.

Definition includes (l : list string) (x : string) : bool := existsb (String.eqb x) l.

(** ** The Express backend (api/server.js) *)
Module Node.

Record UserView := mkUserView {
  view_id : nat;
  view_username : string;
  view_email : string;
  view_theme_preference : string
}.

(** A row of GET /api/chats: c.id, c.name, c.model, c.created_at,
    c.updated_at and the subquery's last_message. *)
Record ChatSummary := mkChatSummary {
  summary_id : string;
  summary_name : string;
  summary_model : string;
  summary_created_at : nat;
  summary_updated_at : nat;
  last_message : option string
}.

(** The JSON bodies (the bearer token of a registration is left out). *)
Inductive Body :=
| JsonError (error : string)
| JsonMessage (message : string)
| JsonTheme (message theme : string)
| JsonUser (message : string) (user : UserView)
| JsonChats (chats : list ChatSummary)
| JsonChat (chat : Chat) (messages : list Message).

Record Response := json { status : nat; body : Body }.

Record Served := mkServed {
  before : list Store;
  after : Store;
  response : Response
}.

(** try { ... } catch (error) { res.status(500).json(...) } *)
Definition serve (m : DB Response) : Store -> Served :=
  fun s =>
    let r := m s in
    mkServed (seen r) (final r)
      match result r with
      | inl _ => json 500 (JsonError "Internal server error")
      | inr res => res
      end.

(** *** Statements *)

(** UPDATE users SET theme_preference = ? WHERE id = ?, on the column
    theme_preference ENUM('light', 'dark'). *)
Definition update_theme_preference : string -> nat -> nat -> Store -> DbError + (Store * nat) :=
  update_theme_column theme_enum ER_TRUNCATED_ENUM.

Definition summarize (s : Store) (c : Chat) : ChatSummary :=
  mkChatSummary (chat_id c) (chat_name c) (chat_model c) (created_at c)
    (updated_at c) (select_last_message (chat_id c) s).

(** SELECT c.id, ..., (SELECT content ... LIMIT 1) as last_message
    FROM chats c WHERE c.user_id = ? ORDER BY c.updated_at DESC *)
Definition select_chat_summaries (userId : nat) (s : Store) : list ChatSummary :=
  map (summarize s)
    (order_by updated_at_desc
       (filter (fun c => (chat_user_id c =? userId)%nat) (chats s))).

(** INSERT INTO chats (id, user_id, name, model) VALUES (?, ?, ?, ?) *)
Definition insert_chat (id : string) (userId : nat) (name model : string)
    (now : nat) (s : Store) : DbError + (Store * nat) :=
  if negb (fits 100 id && fits 255 name && fits 100 model) then inl ER_DATA_TOO_LONG
  else if chat_exists id s then inl ER_DUP_ENTRY
  else if negb (user_exists userId s) then inl ER_NO_REFERENCED_ROW
  else inr (set_chats s (chats s ++ [mkChat id userId name model now now]), 1).

Definition set_name (c : Chat) (name : string) (now : nat) : Chat :=
  mkChat (chat_id c) (chat_user_id c) name (chat_model c) (created_at c) now.

Definition set_updated_at (c : Chat) (now : nat) : Chat :=
  mkChat (chat_id c) (chat_user_id c) (chat_name c) (chat_model c) (created_at c) now.

(** UPDATE chats SET name = ? WHERE id = ? AND user_id = ?

    A row whose name is already the new one is matched but not changed.
    What the driver reports as [affectedRows] depends on the connection
    flag CLIENT_FOUND_ROWS: the matched rows with it, the changed rows
    without it. *)
Definition update_chat_name (found_rows : bool) (name chatId : string)
    (userId now : nat) (s : Store) : DbError + (Store * nat) :=
  let matched := owned_by chatId userId in
  let changed c := matched c && negb (chat_name c =? name) in
  if existsb matched (chats s) && negb (fits 255 name) then inl ER_DATA_TOO_LONG
  else
    inr (set_chats s
           (map (fun c => if changed c then set_name c name now else c) (chats s)),
         if found_rows then count matched (chats s) else count changed (chats s)).

(** UPDATE chats SET updated_at = CURRENT_TIMESTAMP WHERE id = ? *)
Definition update_chat_timestamp (chatId : string) (now : nat) (s : Store)
  : DbError + (Store * nat) :=
  inr (set_chats s
         (map (fun c => if chat_id c =? chatId then set_updated_at c now else c)
            (chats s)),
       count (fun c => chat_id c =? chatId) (chats s)).

(** DELETE FROM chats WHERE id = ? AND user_id = ? *)
Definition delete_chat (chatId : string) (userId : nat) (s : Store)
  : DbError + (Store * nat) :=
  inr (delete_chats (owned_by chatId userId) s).

(** *** Handlers *)
Section Handlers.
Local Open Scope db_scope.

(** [bcrypt.hash(password, saltRounds)], with the salt it draws. *)
Variable bcrypt_hash : string -> string.

(** The CLIENT_FOUND_ROWS flag of the pool's connections. *)
Variable found_rows : bool.

(** The server's treatment of the column [messages.sender]. *)
Variable sender_column : SenderColumn.

(** POST /api/register *)
Definition register (username email password : option string) (now : nat)
  : Store -> Served :=
  serve (
    if js_not username || js_not email || js_not password then
      ret (json 400 (JsonError "Username, email, and password are required"))
    else if (String.length (str password) <? 6)%nat then
      ret (json 400 (JsonError "Password must be at least 6 characters long"))
    else
      existingUsers <- query (select_users (str username) (str email)) ;;
      if (0 <? length existingUsers)%nat then
        ret (json 409 (JsonError "Username or email already exists"))
      else
        insertId <- execute (insert_user (str username) (str email)
                               (bcrypt_hash (str password)) now) ;;
        ret (json 201 (JsonUser "User created successfully"
               (mkUserView insertId (str username) (str email) "light")))).

(** PATCH /api/profile/theme *)
Definition updateTheme (userId : nat) (theme : option string) (now : nat)
  : Store -> Served :=
  serve (
    if js_not theme || negb (includes ["light"; "dark"] (str theme)) then
      ret (json 400 (JsonError "Valid theme (light/dark) is required"))
    else
      _ <- execute (update_theme_preference (str theme) userId now) ;;
      ret (json 200 (JsonTheme "Theme preference updated" (str theme)))).

(** GET /api/chats *)
Definition listForUser (userId : nat) : Store -> Served :=
  serve (
    chats <- query (select_chat_summaries userId) ;;
    ret (json 200 (JsonChats chats))).

(** GET /api/chats/:chatId *)
Definition getWithMessages (userId : nat) (chatId : string) : Store -> Served :=
  serve (
    chats <- query (select_chat chatId userId) ;;
    match chats with
    | [] => ret (json 404 (JsonError "Chat not found"))
    | chat :: _ =>
        messages <- query (select_messages chatId) ;;
        ret (json 200 (JsonChat chat messages))
    end).

(** POST /api/chats *)
Definition create (userId : nat) (id name model : option string) (now : nat)
  : Store -> Served :=
  serve (
    if js_not id || js_not name || js_not model then
      ret (json 400 (JsonError "Chat ID, name, and model are required"))
    else
      _ <- execute (insert_chat (str id) userId (str name) (str model) now) ;;
      ret (json 201 (JsonMessage "Chat created successfully"))).

(** PATCH /api/chats/:chatId *)
Definition rename (userId : nat) (chatId : string) (name : option string)
    (now : nat) : Store -> Served :=
  serve (
    if js_not name then
      ret (json 400 (JsonError "Chat name is required"))
    else
      affectedRows <- execute (update_chat_name found_rows (str name) chatId userId now) ;;
      if (affectedRows =? 0)%nat then
        ret (json 404 (JsonError "Chat not found"))
      else
        ret (json 200 (JsonMessage "Chat updated successfully"))).

(** DELETE /api/chats/:chatId *)
Definition delete (userId : nat) (chatId : string) : Store -> Served :=
  serve (
    affectedRows <- execute (delete_chat chatId userId) ;;
    if (affectedRows =? 0)%nat then
      ret (json 404 (JsonError "Chat not found"))
    else
      ret (json 200 (JsonMessage "Chat deleted successfully"))).

(** POST /api/chats/:chatId/messages: the INSERT reads the clock at
    [t_insert] (the column default), the UPDATE at [t_update]. *)
Definition append (userId : nat) (chatId : string)
    (sender content model response_info : option string)
    (t_insert t_update : nat) : Store -> Served :=
  serve (
    if js_not sender || js_not content then
      ret (json 400 (JsonError "Sender and content are required"))
    else
      chats <- query (select_chat chatId userId) ;;
      if (length chats =? 0)%nat then
        ret (json 404 (JsonError "Chat not found"))
      else
        _ <- execute (insert_message sender_column chatId (str sender) (str content)
                        (or_null model) (or_null response_info) t_insert) ;;
        _ <- execute (update_chat_timestamp chatId t_update) ;;
        ret (json 201 (JsonMessage "Message added successfully"))).
End Handlers.

(** *** Accounts and tokens *)

(** [s.split(sep)] for a separator of one character. *)
Fixpoint split (sep : ascii) (s : string) : list string :=
  match s with
  | EmptyString => [EmptyString]
  | String a s' =>
      if Ascii.eqb a sep then EmptyString :: split sep s'
      else match split sep s' with
           | [] => [String a EmptyString]
           | segment :: segments => String a segment :: segments
           end
  end.

(** The payload of a token: [{ userId, username }]. *)
Record Claims := mkClaims {
  claim_userId : nat;
  claim_username : string
}.

(** The user of an answer: id, username, email, theme_preference. *)
Definition view (u : User) : UserView :=
  mkUserView (user_id u) (username u) (email u) (theme_preference u).

(** The body of GET /api/profile: [{ error }] or [{ user }]. *)
Inductive ProfileBody :=
| ProfileError (error : string)
| ProfileUser (user : UserView).

Section Account.
Local Open Scope db_scope.

(** [jwt.verify(token, JWT_SECRET, ...)]: the payload, or an error. *)
Variable jwt_verify : string -> option Claims.

(** [bcrypt.compare(password, hash)] *)
Variable bcrypt_compare : string -> string -> bool.

(** [authHeader && authHeader.split(' ')[1]] *)
Definition bearer_token (authorization : option string) : option string :=
  match authorization with
  | None => None
  | Some authHeader =>
      if js_not (Some authHeader) then Some authHeader
      else nth_error (split " "%char authHeader) 1
  end.

(** authenticateToken: an answer, or [next()] with [req.user]. *)
Definition authenticateToken (authorization : option string) : Response + Claims :=
  let token := bearer_token authorization in
  if js_not token then inl (json 401 (JsonError "Access token required"))
  else
    match jwt_verify (str token) with
    | None => inl (json 403 (JsonError "Invalid token"))
    | Some user => inr user
    end.

(** POST /api/login *)
Definition login (name password : option string) : Store -> Served :=
  serve (
    if js_not name || js_not password then
      ret (json 400 (JsonError "Username and password are required"))
    else
      found <- query (select_users (str name) (str name)) ;;
      match found with
      | [] => ret (json 401 (JsonError "Invalid credentials"))
      | user :: _ =>
          if negb (bcrypt_compare (str password) (password_hash user)) then
            ret (json 401 (JsonError "Invalid credentials"))
          else
            ret (json 200 (JsonUser "Login successful" (view user)))
      end).

(** GET /api/profile *)
Definition profile (userId : nat) (s : Store) : nat * ProfileBody :=
  match filter (fun u => (user_id u =? userId)%nat) (users s) with
  | [] => (404, ProfileError "User not found")
  | user :: _ => (200, ProfileUser (view user))
  end.
End Account.

(** mysql2 opens its connections with the flag FOUND_ROWS among its default
    flags, and [dbConfig] sets no [flags] of its own. *)
Definition default_found_rows : bool := true.

End Node.

(** ** The PDO backend (backend/api.php)

    Its schema ([Database::initTables]) keeps the theme in a column
    [theme VARCHAR(10)] and the chat identity in a VARCHAR(50). *)
Module Php.

(** One message of a chat as the client sends it to [saveChat] and as
    [getUserChats] returns it. *)
Record ChatMessage := mkChatMessage {
  cm_sender : string;
  cm_content : string;
  cm_model : option string;
  cm_responseInfo : option string;
  cm_timestamp : nat
}.

(** [$chatData] *)
Record ChatData := mkChatData {
  data_id : string;
  data_name : string;
  data_model : string;
  data_createdAt : nat;
  data_updatedAt : nat;
  data_messages : list ChatMessage
}.

(** A row of [getUserChats]: c.*, last_message, and the messages. *)
Record ChatRow := mkChatRow {
  row_chat : Chat;
  row_last_message : option string;
  row_messages : list ChatMessage
}.

(** What a controller returns, or the PDOException nobody caught. *)
Inductive Result :=
| php_error (error : string)
| php_success
| php_user (id : nat) (username email theme : string)
| php_chats (chats : list ChatRow)
| php_uncaught (e : DbError).

Record Outcome := mkOutcome {
  before : list Store;
  after : Store;
  reply : Result
}.

Definition run (m : DB Result) : Store -> Outcome :=
  fun s =>
    let r := m s in
    mkOutcome (seen r) (final r)
      match result r with
      | inl e => php_uncaught e
      | inr res => res
      end.

(** try { ... } catch (PDOException $e) { ... } *)
Definition try_catch {A : Type} (m : DB A) (handler : DbError -> DB A) : DB A :=
  fun s =>
    let r := m s in
    match result r with
    | inl e =>
        let r' := handler e (final r) in
        mkRun (seen r ++ seen r') (final r') (result r')
    | inr _ => r
    end.

Fixpoint for_each {A : Type} (l : list A) (body : A -> DB nat) : DB unit :=
  match l with
  | [] => ret tt
  | x :: l' => bind (body x) (fun _ => for_each l' body)
  end.

(** *** PHP's string functions *)

(** The characters [trim] strips: space, \t, \n, \r, \0, \x0B. *)
Definition is_trim_char (a : ascii) : bool :=
  let n := nat_of_ascii a in
  (n =? 32)%nat || (n =? 9)%nat || (n =? 10)%nat || (n =? 13)%nat
  || (n =? 0)%nat || (n =? 11)%nat.

Fixpoint ltrim (s : string) : string :=
  match s with
  | EmptyString => EmptyString
  | String a s' => if is_trim_char a then ltrim s' else s
  end.

Fixpoint rtrim (s : string) : string :=
  match s with
  | EmptyString => EmptyString
  | String a s' =>
      match rtrim s' with
      | EmptyString => if is_trim_char a then EmptyString else String a EmptyString
      | r => String a r
      end
  end.

Definition trim (s : string) : string := rtrim (ltrim s).

(** [empty($x)] on a string: the empty string and "0". *)
Definition empty (s : string) : bool := (s =? "") || (s =? "0").

Definition strlen (s : string) : nat := String.length s.

(** *** Statements *)

(** UPDATE users SET theme = ? WHERE id = ?, on the column
    theme VARCHAR(10). *)
Definition update_theme : string -> nat -> nat -> Store -> DbError + (Store * nat) :=
  update_theme_column (fits 10) ER_DATA_TOO_LONG.

Definition view (m : Message) : ChatMessage :=
  mkChatMessage (sender m) (content m) (msg_model m) (response_info m) (timestamp m).

(** INSERT INTO chats (id, user_id, name, model, created_at, updated_at)
    VALUES (?, ?, ?, ?, ?, ?)
    ON DUPLICATE KEY UPDATE name = VALUES(name), updated_at = VALUES(updated_at) *)
Definition upsert_chat (id : string) (userId : nat) (name model : string)
    (createdAt updatedAt : nat) (s : Store) : DbError + (Store * nat) :=
  if negb (fits 50 id && fits 255 name && fits 100 model) then inl ER_DATA_TOO_LONG
  else if chat_exists id s then
    inr (set_chats s
           (map (fun c => if chat_id c =? id
                          then mkChat (chat_id c) (chat_user_id c) name (chat_model c)
                                 (created_at c) updatedAt
                          else c) (chats s)),
         2)
  else if negb (user_exists userId s) then inl ER_NO_REFERENCED_ROW
  else inr (set_chats s (chats s ++ [mkChat id userId name model createdAt updatedAt]), 1).

(** DELETE FROM messages WHERE chat_id = ? *)
Definition delete_messages (chatId : string) (s : Store) : DbError + (Store * nat) :=
  inr (set_messages s (filter (fun m => negb (in_chat chatId m)) (messages s))
         (next_message_id s),
       count (in_chat chatId) (messages s)).

(** DELETE FROM chats WHERE id = ? *)
Definition delete_chat (chatId : string) (s : Store) : DbError + (Store * nat) :=
  inr (delete_chats (fun c => chat_id c =? chatId) s).

(** *** Controllers *)
Section Controllers.
Local Open Scope db_scope.

(** [password_hash($password, PASSWORD_DEFAULT)], with the salt it draws. *)
Variable password_hash : string -> string.

(** [filter_var($email, FILTER_VALIDATE_EMAIL)] *)
Variable filter_validate_email : string -> bool.

(** The server's treatment of the column [messages.sender]. *)
Variable sender_column : SenderColumn.

(** AuthController::register *)
Definition register (data_username data_email data_password : option string)
    (now : nat) : Store -> Outcome :=
  let username := trim (str data_username) in
  let email := trim (str data_email) in
  let password := str data_password in
  run (
    if empty username || empty email || empty password then
      ret (php_error "All fields are required")
    else if (strlen username <? 3)%nat then
      ret (php_error "Username must be at least 3 characters")
    else if negb (filter_validate_email email) then
      ret (php_error "Invalid email format")
    else if (strlen password <? 6)%nat then
      ret (php_error "Password must be at least 6 characters")
    else
      found <- query (select_users username email) ;;
      if negb (is_nil found) then
        ret (php_error "Username or email already exists")
      else
        try_catch
          (userId <- execute (insert_user username email (password_hash password) now) ;;
           ret (php_user userId username email "light"))
          (fun _ => ret (php_error "Registration failed"))).

(** AuthController::updateTheme *)
Definition updateTheme (userId : nat) (theme : string) (now : nat)
  : Store -> Outcome :=
  run (
    _ <- execute (update_theme theme userId now) ;;
    ret php_success).

(** ChatController::getUserChats *)
Definition getUserChats (userId : nat) : Store -> Outcome :=
  run (
    chats <- query (fun s =>
               map (fun c => (c, select_last_message (chat_id c) s))
                 (order_by updated_at_desc
                    (filter (fun c => (chat_user_id c =? userId)%nat) (chats s)))) ;;
    rows <- query (fun s =>
              map (fun cl => mkChatRow (fst cl) (snd cl)
                               (map view (select_messages (chat_id (fst cl)) s)))
                chats) ;;
    ret (php_chats rows)).

(** ChatController::saveChat *)
Definition saveChat (userId : nat) (chatData : ChatData) : Store -> Outcome :=
  run (
    _ <- execute (upsert_chat (data_id chatData) userId (data_name chatData)
                    (data_model chatData) (data_createdAt chatData)
                    (data_updatedAt chatData)) ;;
    _ <- execute (delete_messages (data_id chatData)) ;;
    _ <- for_each (data_messages chatData) (fun message =>
           execute (insert_message sender_column (data_id chatData) (cm_sender message)
                      (cm_content message) (cm_model message)
                      (cm_responseInfo message) (cm_timestamp message))) ;;
    ret php_success).

(** ChatController::deleteChat *)
Definition deleteChat (userId : nat) (chatId : string) : Store -> Outcome :=
  run (
    chat <- query (fun s => limit_1 (select_chat_by_id chatId s)) ;;
    match chat with
    | None => ret (php_error "Chat not found or access denied")
    | Some c =>
        if negb (chat_user_id c =? userId)%nat then
          ret (php_error "Chat not found or access denied")
        else
          _ <- execute (delete_chat chatId) ;;
          ret php_success
    end).
End Controllers.

(** AuthController::login *)
Section Login.
Local Open Scope db_scope.

(** [password_verify($password, $hash)] *)
Variable password_verify : string -> string -> bool.

Definition login (data_username data_password : option string) : Store -> Outcome :=
  let name := trim (str data_username) in
  let password := str data_password in
  run (
    if empty name || empty password then
      ret (php_error "Username and password are required")
    else
      user <- query (fun s => limit_1 (select_users name name s)) ;;
      match user with
      | None => ret (php_error "Invalid credentials")
      | Some user =>
          if negb (password_verify password (password_hash user)) then
            ret (php_error "Invalid credentials")
          else
            ret (php_user (user_id user) (username user) (email user)
                   (theme_preference user))
      end).
End Login.

(** *** Route handling *)

Inductive Route :=
| preflight
| to_register
| to_login
| to_updateTheme
| to_getUserChats
| to_saveChat
| to_deleteChat
| endpoint_not_found.

(** [strpos($haystack, $needle)] *)
Definition strpos (haystack needle : string) : option nat := index 0 needle haystack.

(** [strpos(...) !== false] *)
Definition occurs (needle haystack : string) : bool :=
  match strpos haystack needle with
  | Some _ => true
  | None => false
  end.

(** The chain of tests on [$_SERVER['REQUEST_METHOD']] and
    [$_SERVER['REQUEST_URI']] at the end of the script. *)
Definition route (method path : string) : Route :=
  if method =? "OPTIONS" then preflight
  else if (method =? "POST") && occurs "/api/register" path then to_register
  else if (method =? "POST") && occurs "/api/login" path then to_login
  else if (method =? "POST") && occurs "/api/theme" path then to_updateTheme
  else if (method =? "GET") && occurs "/api/chats" path then to_getUserChats
  else if (method =? "POST") && occurs "/api/chats" path then to_saveChat
  else if (method =? "DELETE") && occurs "/api/chats" path then to_deleteChat
  else endpoint_not_found.

End Php.

(** * Vocabulary of the statements *)

(** What "the content of the most recent message of the chat, absent when
    the chat has no message" says of a value [preview]. *)
Definition most_recent_content (s : Store) (chatId : string) (preview : option string) : Prop :=
  match preview with
  | None => forall m, In m (messages s) -> msg_chat_id m <> chatId
  | Some txt =>
      exists m, In m (messages s) /\ msg_chat_id m = chatId /\ content m = txt /\
                forall m', In m' (messages s) -> msg_chat_id m' = chatId ->
                           timestamp m' <= timestamp m
  end.

(** The ownership guard: a chat with this identity exists and its owner is
    this user. The handlers ask it of the store as
    [WHERE id = ? AND user_id = ?]. *)
Definition owns (userId : nat) (chatId : string) (s : Store) : bool :=
  negb (is_nil (select_chat chatId userId s)).

(** The two answers of the Express backend that carry no detail. *)
Definition not_found : Node.Response := Node.json 404 (Node.JsonError "Chat not found").
Definition internal_error : Node.Response :=
  Node.json 500 (Node.JsonError "Internal server error").

(** AUTO_INCREMENT: the identities in the messages table lie below the
    counter. *)
Definition fresh_message_ids (s : Store) : Prop :=
  forall m, In m (messages s) -> message_id m < next_message_id s.

(** The row that a successful append adds to the store [s]. *)
Definition appended (sender_column : SenderColumn) (s : Store) (chatId : string)
    (sender content model info : option string) (t_insert : nat) : Message :=
  mkMessage (next_message_id s) chatId (stored_sender sender_column (str sender))
    (str content)
    (or_null model) (or_null info) t_insert.

(** The messages with which [AuthController::register] refuses a field. *)
Definition validation_errors : list string :=
  ["All fields are required"; "Username must be at least 3 characters";
   "Invalid email format"; "Password must be at least 6 characters"].

(** What the Express registration checks before it touches the store. *)
Definition node_register_refuses (username email password : option string) : bool :=
  js_not username || js_not email || js_not password
  || (String.length (str password) <? 6)%nat.

(** Every stored theme preference is one of the two enumerated values. *)
Definition themes_enumerated (s : Store) : Prop :=
  forall usr, In usr (users s) -> theme_enum (theme_preference usr) = true.

(** UNIQUE on [users.username] and on [users.email]. *)
Definition users_unique (s : Store) : Prop :=
  NoDup (map username (users s)) /\ NoDup (map email (users s)).

(** AUTO_INCREMENT on [users.id]. *)
Definition fresh_user_ids (s : Store) : Prop :=
  forall usr, In usr (users s) -> user_id usr < next_user_id s.

(** PRIMARY KEY on [chats.id]. *)
Definition chats_keyed (s : Store) : Prop := NoDup (map chat_id (chats s)).

(** FOREIGN KEY of [messages.chat_id]: every message belongs to a chat of
    the table. *)
Definition referential (s : Store) : Prop :=
  forall m, In m (messages s) -> chat_exists (msg_chat_id m) s = true.

(** The constraints of the schema on chats and messages. *)
Definition consistent (s : Store) : Prop :=
  chats_keyed s /\ referential s /\ fresh_message_ids s.

(** The one answer of a refused login. *)
Definition invalid_credentials : Node.Response :=
  Node.json 401 (Node.JsonError "Invalid credentials").

(** A message that [saveChat] can store: the column takes its sender and
    its fields fit their columns. *)
Definition storable (sender_column : SenderColumn) (m : Php.ChatMessage) : bool :=
  match sender_column (Php.cm_sender m) with
  | Some _ => true
  | None => false
  end
  && (fits 65535 (Php.cm_content m) && fits_opt 100 (Php.cm_model m)
      && fits_opt 50 (Php.cm_responseInfo m)).

(** A word: a string without a space. *)
Fixpoint one_word (w : string) : bool :=
  match w with
  | EmptyString => true
  | String a w' => negb (Ascii.eqb a " "%char) && one_word w'
  end.

(** What a chat keeps for life: identity, owner, model and creation time. *)
Definition chat_identity (ch : Chat) : string * nat * string * nat :=
  (chat_id ch, chat_user_id ch, chat_model ch, created_at ch).

(** The rows that [saveChat] inserts for the messages of a chat, the first
    with identity [n]. *)
Fixpoint inserted_rows (sender_column : SenderColumn) (chatId : string)
    (l : list Php.ChatMessage) (n : nat) : list Message :=
  match l with
  | [] => []
  | m :: l' =>
      mkMessage n chatId (stored_sender sender_column (Php.cm_sender m))
        (Php.cm_content m) (Php.cm_model m) (Php.cm_responseInfo m) (Php.cm_timestamp m)
      :: inserted_rows sender_column chatId l' (S n)
  end.

(** A supplied message as the table holds it: with the sender that the
    column stored. *)
Definition as_stored (sender_column : SenderColumn) (m : Php.ChatMessage)
  : Php.ChatMessage :=
  Php.mkChatMessage (stored_sender sender_column (Php.cm_sender m)) (Php.cm_content m)
    (Php.cm_model m) (Php.cm_responseInfo m) (Php.cm_timestamp m).

(** The stores of the scenario: two registered users, then the chat "c1" of
    the first one, then its first message. *)
Module Scenario.
Definition demo : User := mkUser 1 "demo" "demo@example.com" "hash" "light" 0 0.
Definition guest : User := mkUser 2 "guest" "guest@example.com" "hash" "light" 0 0.
Definition registered : Store := mkStore [demo; guest] [] [] 3 1.
Definition c1 : Chat := mkChat "c1" 1 "Test" "llama2" 5 5.
Definition with_chat : Store := mkStore [demo; guest] [c1] [] 3 1.
Definition hello : Message := mkMessage 1 "c1" "user" "Hello" None None 10.
Definition with_hello : Store :=
  mkStore [demo; guest] [mkChat "c1" 1 "Test" "llama2" 5 10] [hello] 3 2.
End Scenario.

(** * Properties *)

(** ** ORDER BY and LIMIT *)
Section OrderByFacts.
Context {A : Type} (le : A -> A -> bool).
Hypothesis le_total : forall a b, le a b = true \/ le b a = true.
Hypothesis le_trans : forall a b c, le a b = true -> le b c = true -> le a c = true.

Lemma insert_sorted_perm (x : A) (l : list A) :
  Permutation (x :: l) (insert_sorted le x l).
Proof.
  induction l as [|y l IH]; simpl.
  - apply Permutation_refl.
  - destruct (le x y).
    + apply Permutation_refl.
    + apply perm_trans with (y :: x :: l).
      * apply perm_swap.
      * apply perm_skip, IH.
Qed.

Lemma order_by_perm (l : list A) : Permutation l (order_by le l).
Proof.
  induction l as [|x l IH]; simpl.
  - apply perm_nil.
  - apply perm_trans with (x :: order_by le l).
    + apply perm_skip, IH.
    + apply insert_sorted_perm.
Qed.

Lemma order_by_In (l : list A) (x : A) : In x (order_by le l) <-> In x l.
Proof.
  split; intro H.
  - apply Permutation_in with (order_by le l); [apply Permutation_sym, order_by_perm | exact H].
  - apply Permutation_in with l; [apply order_by_perm | exact H].
Qed.

Lemma order_by_nil (l : list A) : order_by le l = [] -> l = [].
Proof.
  intro H. apply Permutation_nil. rewrite <- H. apply Permutation_sym, order_by_perm.
Qed.

Lemma insert_sorted_sorted (x : A) (l : list A) :
  StronglySorted (fun a b => le a b = true) l ->
  StronglySorted (fun a b => le a b = true) (insert_sorted le x l).
Proof.
  induction 1 as [|y l Hs IH Hall]; simpl.
  - constructor; constructor.
  - destruct (le x y) eqn:Hxy.
    + constructor.
      * constructor; assumption.
      * constructor; [exact Hxy|].
        rewrite Forall_forall in *. intros z Hz.
        apply le_trans with y; [exact Hxy | apply Hall, Hz].
    + constructor; [exact IH|].
      rewrite Forall_forall in *. intros z Hz.
      apply Permutation_in with (l' := x :: l) in Hz;
        [| apply Permutation_sym, insert_sorted_perm].
      destruct Hz as [<- | Hz].
      * destruct (le_total x y) as [H | H]; [congruence | exact H].
      * apply Hall, Hz.
Qed.

Lemma order_by_sorted (l : list A) :
  StronglySorted (fun a b => le a b = true) (order_by le l).
Proof.
  induction l as [|x l IH]; simpl.
  - constructor.
  - apply insert_sorted_sorted, IH.
Qed.

(** The row that [LIMIT 1] keeps is one of the rows and comes before all
    of them in the order. *)
Lemma limit_1_order_by (l : list A) (x : A) :
  limit_1 (order_by le l) = Some x ->
  In x l /\ forall y, In y l -> le x y = true.
Proof.
  intro H. pose proof (order_by_sorted l) as Hs.
  destruct (order_by le l) as [|z l'] eqn:E; simpl in H; [discriminate|].
  injection H as ->. split.
  - apply order_by_In. rewrite E. left; reflexivity.
  - intros y Hy. apply order_by_In in Hy. rewrite E in Hy.
    inversion Hs as [|? ? _ Hall]; subst.
    destruct Hy as [<- | Hy].
    + destruct (le_total x x); assumption.
    + rewrite Forall_forall in Hall. apply Hall, Hy.
Qed.

Lemma limit_1_order_by_none (l : list A) :
  limit_1 (order_by le l) = None -> l = [].
Proof.
  intro H. apply order_by_nil.
  destruct (order_by le l); [reflexivity | discriminate].
Qed.
End OrderByFacts.

Lemma timestamp_asc_total (a b : Message) :
  timestamp_asc a b = true \/ timestamp_asc b a = true.
Proof.
  unfold timestamp_asc.
  destruct (Nat.le_ge_cases (timestamp a) (timestamp b)) as [H | H];
    [left | right]; apply Nat.leb_le, H.
Qed.

Lemma timestamp_asc_spec (a b : Message) :
  timestamp_asc a b = true <-> timestamp a <= timestamp b.
Proof. unfold timestamp_asc. apply Nat.leb_le. Qed.

Lemma timestamp_asc_trans (a b c : Message) :
  timestamp_asc a b = true -> timestamp_asc b c = true -> timestamp_asc a c = true.
Proof.
  rewrite !timestamp_asc_spec. lia.
Qed.

Lemma timestamp_desc_total (a b : Message) :
  timestamp_desc a b = true \/ timestamp_desc b a = true.
Proof.
  unfold timestamp_desc. destruct (timestamp_asc_total a b); [right | left]; assumption.
Qed.

Lemma timestamp_desc_trans (a b c : Message) :
  timestamp_desc a b = true -> timestamp_desc b c = true -> timestamp_desc a c = true.
Proof.
  unfold timestamp_desc. intros H1 H2. exact (timestamp_asc_trans c b a H2 H1).
Qed.

Lemma updated_at_desc_total (a b : Chat) :
  updated_at_desc a b = true \/ updated_at_desc b a = true.
Proof.
  unfold updated_at_desc.
  destruct (Nat.le_ge_cases (updated_at a) (updated_at b)) as [H | H];
    [right | left]; apply Nat.leb_le, H.
Qed.

Lemma updated_at_desc_trans (a b c : Chat) :
  updated_at_desc a b = true -> updated_at_desc b c = true -> updated_at_desc a c = true.
Proof.
  unfold updated_at_desc. rewrite !Nat.leb_le. lia.
Qed.

Lemma in_chat_spec (chatId : string) (m : Message) :
  in_chat chatId m = true <-> msg_chat_id m = chatId.
Proof. unfold in_chat. apply String.eqb_eq. Qed.

Lemma select_last_message_most_recent (s : Store) (chatId : string) :
  most_recent_content s chatId (select_last_message chatId s).
Proof.
  unfold select_last_message.
  destruct (limit_1 (order_by timestamp_desc (filter (in_chat chatId) (messages s))))
    as [m|] eqn:E; simpl.
  - apply (limit_1_order_by _ timestamp_desc_total timestamp_desc_trans) in E.
    destruct E as [Hin Hfirst]. apply filter_In in Hin. destruct Hin as [Hin Hc].
    exists m. repeat split; [exact Hin | apply in_chat_spec, Hc |].
    intros m' Hin' Hc'.
    assert (Hle : timestamp_desc m m' = true).
    { apply Hfirst, filter_In. split; [exact Hin' | apply in_chat_spec, Hc']. }
    unfold timestamp_desc in Hle. apply timestamp_asc_spec in Hle. lia.
  - apply limit_1_order_by_none in E.
    intros m Hin Hc.
    assert (Hm : In m (filter (in_chat chatId) (messages s))).
    { apply filter_In. split; [exact Hin | apply in_chat_spec, Hc]. }
    rewrite E in Hm. exact Hm.
Qed.

Lemma StronglySorted_map {A B : Type} (f : A -> B) (R : A -> A -> Prop)
    (R' : B -> B -> Prop) (l : list A) :
  (forall a b, R a b -> R' (f a) (f b)) ->
  StronglySorted R l -> StronglySorted R' (map f l).
Proof.
  intros Hf. induction 1 as [|x l Hs IH Hall]; simpl.
  - constructor.
  - constructor; [exact IH|].
    rewrite Forall_forall in *. intros y Hy.
    apply in_map_iff in Hy. destruct Hy as [z [<- Hz]]. apply Hf, Hall, Hz.
Qed.

(** ** Listing the chats of a user *)

Lemma owned_rows_In (s : Store) (u : nat) (c : Chat) :
  In c (order_by updated_at_desc (filter (fun c => (chat_user_id c =? u)%nat) (chats s)))
  <-> In c (chats s) /\ chat_user_id c = u.
Proof.
  rewrite order_by_In, filter_In, Nat.eqb_eq. reflexivity.
Qed.

Lemma owned_rows_sorted (s : Store) (u : nat) :
  StronglySorted (fun a b => updated_at b <= updated_at a)
    (order_by updated_at_desc (filter (fun c => (chat_user_id c =? u)%nat) (chats s))).
Proof.
  rewrite <- map_id.
  apply StronglySorted_map with (R := fun a b => updated_at_desc a b = true).
  - intros a b H. apply Nat.leb_le, H.
  - apply order_by_sorted; [apply updated_at_desc_total | apply updated_at_desc_trans].
Qed.

(** C6. In both backends the listing of user [u] holds exactly the chats of
    the table whose owner is [u], once each: a row carries the identity,
    name, model, [created_at] and [updated_at] of its chat, and as preview
    the content of the most recent message of that chat (none when it has
    no message); the rows come by decreasing [updated_at]. The PDO rows
    carry the whole chat and its messages by increasing timestamp as
    well. *)
Theorem C6_list_owned_previewed_sorted (s : Store) (u : nat) :
  (exists rows,
     Node.response (Node.listForUser u s) = Node.json 200 (Node.JsonChats rows) /\
     Permutation rows
       (map (fun c => Node.mkChatSummary (chat_id c) (chat_name c) (chat_model c)
                        (created_at c) (updated_at c)
                        (select_last_message (chat_id c) s))
          (filter (fun c => (chat_user_id c =? u)%nat) (chats s))) /\
     (forall r, In r rows <->
                exists c, In c (chats s) /\ chat_user_id c = u /\
                          r = Node.mkChatSummary (chat_id c) (chat_name c) (chat_model c)
                                (created_at c) (updated_at c)
                                (select_last_message (chat_id c) s)) /\
     (forall r, In r rows ->
                most_recent_content s (Node.summary_id r) (Node.last_message r)) /\
     StronglySorted
       (fun a b => Node.summary_updated_at b <= Node.summary_updated_at a) rows)
  /\
  (exists rows,
     Php.reply (Php.getUserChats u s) = Php.php_chats rows /\
     Permutation rows
       (map (fun c => Php.mkChatRow c (select_last_message (chat_id c) s)
                        (map Php.view (select_messages (chat_id c) s)))
          (filter (fun c => (chat_user_id c =? u)%nat) (chats s))) /\
     (forall r, In r rows <->
                exists c, In c (chats s) /\ chat_user_id c = u /\
                          r = Php.mkChatRow c (select_last_message (chat_id c) s)
                                (map Php.view (select_messages (chat_id c) s))) /\
     (forall r, In r rows ->
                most_recent_content s (chat_id (Php.row_chat r)) (Php.row_last_message r)) /\
     StronglySorted
       (fun a b => updated_at (Php.row_chat b) <= updated_at (Php.row_chat a)) rows).
Proof.
  split.
  - eexists. split; [reflexivity|]. cbn.
    assert (Hin : forall r,
               In r (Node.select_chat_summaries u s) <->
               exists c, In c (chats s) /\ chat_user_id c = u /\
                         r = Node.mkChatSummary (chat_id c) (chat_name c) (chat_model c)
                               (created_at c) (updated_at c)
                               (select_last_message (chat_id c) s)).
    { intro r. unfold Node.select_chat_summaries. rewrite in_map_iff. split.
      - intros [c [<- Hc]]. apply owned_rows_In in Hc. exists c.
        unfold Node.summarize. tauto.
      - intros [c [H1 [H2 ->]]]. exists c. split; [reflexivity|].
        apply owned_rows_In. tauto. }
    repeat split.
    + unfold Node.select_chat_summaries.
      apply (Permutation_map (Node.summarize s)), Permutation_sym, order_by_perm.
    + apply Hin.
    + apply Hin.
    + intros r Hr. apply Hin in Hr. destruct Hr as [c [_ [_ ->]]]. simpl.
      apply select_last_message_most_recent.
    + unfold Node.select_chat_summaries.
      apply StronglySorted_map with (R := fun a b => updated_at b <= updated_at a).
      * intros a b H. exact H.
      * apply owned_rows_sorted.
  - eexists. split; [reflexivity|]. cbn. rewrite map_map. cbn.
    assert (Hin : forall r,
               In r (map (fun c => Php.mkChatRow c (select_last_message (chat_id c) s)
                                     (map Php.view (select_messages (chat_id c) s)))
                       (order_by updated_at_desc
                          (filter (fun c => (chat_user_id c =? u)%nat) (chats s)))) <->
               exists c, In c (chats s) /\ chat_user_id c = u /\
                         r = Php.mkChatRow c (select_last_message (chat_id c) s)
                               (map Php.view (select_messages (chat_id c) s))).
    { intro r. rewrite in_map_iff. split.
      - intros [c [<- Hc]]. apply owned_rows_In in Hc. exists c. tauto.
      - intros [c [H1 [H2 ->]]]. exists c. split; [reflexivity|].
        apply owned_rows_In. tauto. }
    repeat split.
    + apply Permutation_map, Permutation_sym, order_by_perm.
    + apply Hin.
    + apply Hin.
    + intros r Hr. apply Hin in Hr. destruct Hr as [c [_ [_ ->]]]. simpl.
      apply select_last_message_most_recent.
    + apply StronglySorted_map with (R := fun a b => updated_at b <= updated_at a).
      * intros a b H. exact H.
      * apply owned_rows_sorted.
Qed.

(** ** Rows that a statement leaves alone *)

Lemma store_eta (s : Store) :
  mkStore (users s) (chats s) (messages s) (next_user_id s) (next_message_id s) = s.
Proof. destruct s; reflexivity. Qed.

Lemma filter_nil_none {A : Type} (p : A -> bool) (l : list A) :
  filter p l = [] -> forall x, In x l -> p x = false.
Proof.
  intros H x Hx. destruct (p x) eqn:E; [|reflexivity].
  assert (Hin : In x (filter p l)) by (apply filter_In; split; assumption).
  rewrite H in Hin. destruct Hin.
Qed.

Lemma none_filter_nil {A : Type} (p : A -> bool) (l : list A) :
  (forall x, In x l -> p x = false) -> filter p l = [].
Proof.
  induction l as [|x l IH]; intro H; simpl; [reflexivity|].
  rewrite (H x (or_introl eq_refl)). apply IH. intros y Hy. apply H. right; exact Hy.
Qed.

Lemma none_existsb {A : Type} (p : A -> bool) (l : list A) :
  (forall x, In x l -> p x = false) -> existsb p l = false.
Proof.
  induction l as [|x l IH]; intro H; simpl; [reflexivity|].
  rewrite (H x (or_introl eq_refl)). apply IH. intros y Hy. apply H. right; exact Hy.
Qed.

Lemma filter_keeps_all {A : Type} (p : A -> bool) (l : list A) :
  (forall x, In x l -> p x = true) -> filter p l = l.
Proof.
  induction l as [|x l IH]; intro H; simpl; [reflexivity|].
  rewrite (H x (or_introl eq_refl)). f_equal. apply IH. intros y Hy. apply H. right; exact Hy.
Qed.

Lemma map_keeps_all {A : Type} (f : A -> A) (l : list A) :
  (forall x, In x l -> f x = x) -> map f l = l.
Proof.
  induction l as [|x l IH]; intro H; simpl; [reflexivity|].
  rewrite (H x (or_introl eq_refl)). f_equal. apply IH. intros y Hy. apply H. right; exact Hy.
Qed.

Lemma owns_false_none (u : nat) (c : string) (s : Store) :
  owns u c s = false <-> forall ch, In ch (chats s) -> owned_by c u ch = false.
Proof.
  unfold owns, select_chat. split.
  - intro H. apply filter_nil_none.
    destruct (filter (owned_by c u) (chats s)); [reflexivity | discriminate].
  - intro H. rewrite (none_filter_nil _ _ H). reflexivity.
Qed.

(** Not owning a chat is one of two cases: there is no chat of that
    identity, or the chats of that identity belong to others. *)
Lemma owns_false_cases (u : nat) (c : string) (s : Store) :
  owns u c s = false <->
  chat_exists c s = false \/
  (chat_exists c s = true /\
   forall ch, In ch (chats s) -> chat_id ch = c -> chat_user_id ch <> u).
Proof.
  rewrite owns_false_none. unfold owned_by. split.
  - intro H. destruct (chat_exists c s) eqn:E; [right | left; reflexivity].
    split; [reflexivity|]. intros ch Hin Hid Hu.
    specialize (H ch Hin). rewrite Hid, Hu, String.eqb_refl, Nat.eqb_refl in H.
    discriminate.
  - intros [H | [_ H]] ch Hin.
    + unfold chat_exists in H.
      destruct (chat_id ch =? c) eqn:E; [|reflexivity].
      assert (Hex : existsb (fun c0 => chat_id c0 =? c) (chats s) = true).
      { apply existsb_exists. exists ch. split; assumption. }
      congruence.
    + destruct (chat_id ch =? c) eqn:E; [|reflexivity]. simpl.
      apply String.eqb_eq in E. apply Nat.eqb_neq. apply H; assumption.
Qed.

Lemma delete_none (doomed : Chat -> bool) (s : Store) :
  (forall ch, In ch (chats s) -> doomed ch = false) ->
  delete_chats doomed s = (s, 0).
Proof.
  intro H. unfold delete_chats. rewrite (none_filter_nil _ _ H). simpl.
  unfold set_chats_messages. rewrite !filter_keeps_all.
  - rewrite store_eta. reflexivity.
  - reflexivity.
  - intros ch Hin. rewrite (H ch Hin). reflexivity.
Qed.

(** ** The Express handlers, case by case *)
Section NodeCases.
Variable sender_column : SenderColumn.
Variable found_rows : bool.
Variables (s : Store) (u : nat) (c : string).

Lemma getWithMessages_not_owned :
  owns u c s = false ->
  Node.getWithMessages u c s = Node.mkServed [] s not_found.
Proof.
  unfold owns. intro H.
  unfold Node.getWithMessages, Node.serve, bind, query, ret. simpl.
  destruct (select_chat c u s); [reflexivity | discriminate].
Qed.

Lemma rename_invalid (name : option string) (now : nat) :
  js_not name = true ->
  Node.rename found_rows u c name now s =
  Node.mkServed [] s (Node.json 400 (Node.JsonError "Chat name is required")).
Proof.
  intro H. unfold Node.rename, Node.serve. rewrite H. reflexivity.
Qed.

Lemma update_chat_name_not_owned (name : string) (now : nat) :
  owns u c s = false ->
  Node.update_chat_name found_rows name c u now s = inr (s, 0).
Proof.
  intro H. rewrite owns_false_none in H. unfold Node.update_chat_name.
  rewrite (none_existsb _ _ H). simpl.
  rewrite map_keeps_all.
  - unfold count. rewrite (none_filter_nil _ _ H).
    rewrite none_filter_nil.
    + unfold set_chats. rewrite store_eta. destruct found_rows; reflexivity.
    + intros ch Hin. rewrite (H ch Hin). reflexivity.
  - intros ch Hin. rewrite (H ch Hin). reflexivity.
Qed.

Lemma rename_not_owned (name : option string) (now : nat) :
  js_not name = false ->
  owns u c s = false ->
  Node.rename found_rows u c name now s = Node.mkServed [s] s not_found.
Proof.
  intros Hn H. unfold Node.rename, Node.serve, bind, execute. rewrite Hn.
  rewrite (update_chat_name_not_owned _ _ H). reflexivity.
Qed.

Lemma delete_not_owned :
  owns u c s = false ->
  Node.delete u c s = Node.mkServed [s] s not_found.
Proof.
  intro H. rewrite owns_false_none in H.
  unfold Node.delete, Node.serve, bind, execute, Node.delete_chat.
  rewrite (delete_none _ _ H). reflexivity.
Qed.

Section Append.
Variables (sender content model info : option string) (t_insert t_update : nat).

Lemma append_invalid :
  js_not sender || js_not content = true ->
  Node.append sender_column u c sender content model info t_insert t_update s =
  Node.mkServed [] s (Node.json 400 (Node.JsonError "Sender and content are required")).
Proof.
  intro H. unfold Node.append, Node.serve. rewrite H. reflexivity.
Qed.

Lemma append_not_owned :
  js_not sender || js_not content = false ->
  owns u c s = false ->
  Node.append sender_column u c sender content model info t_insert t_update s =
  Node.mkServed [] s not_found.
Proof.
  intros Hv H. unfold owns in H.
  unfold Node.append, Node.serve, bind, query. rewrite Hv. simpl.
  destruct (select_chat c u s); [reflexivity | discriminate].
Qed.

Lemma append_refused (e : DbError) :
  js_not sender || js_not content = false ->
  owns u c s = true ->
  insert_message sender_column c (str sender) (str content) (or_null model) (or_null info)
    t_insert s = inl e ->
  Node.append sender_column u c sender content model info t_insert t_update s =
  Node.mkServed [] s internal_error.
Proof.
  intros Hv H Hi. unfold owns in H.
  unfold Node.append, Node.serve, bind, query, execute. rewrite Hv. simpl.
  destruct (select_chat c u s); [discriminate|]. simpl.
  rewrite Hi. reflexivity.
Qed.

Lemma append_committed (s1 : Store) (id : nat) :
  js_not sender || js_not content = false ->
  owns u c s = true ->
  insert_message sender_column c (str sender) (str content) (or_null model) (or_null info)
    t_insert s = inr (s1, id) ->
  Node.append sender_column u c sender content model info t_insert t_update s =
  Node.mkServed [s; s1]
    (set_chats s1
       (map (fun ch => if chat_id ch =? c then Node.set_updated_at ch t_update else ch)
          (chats s1)))
    (Node.json 201 (Node.JsonMessage "Message added successfully")).
Proof.
  intros Hv H Hi. unfold owns in H.
  unfold Node.append, Node.serve, bind, query, execute. rewrite Hv. simpl.
  destruct (select_chat c u s); [discriminate|]. simpl.
  rewrite Hi. reflexivity.
Qed.
End Append.
End NodeCases.

(** ** The PDO controllers, case by case *)

Lemma deleteChat_not_owned (s : Store) (u : nat) (c : string) :
  owns u c s = false ->
  Php.deleteChat u c s =
  Php.mkOutcome [] s (Php.php_error "Chat not found or access denied").
Proof.
  intro H. rewrite owns_false_none in H.
  unfold Php.deleteChat, Php.run, bind, query. simpl.
  destruct (select_chat_by_id c s) as [|ch l] eqn:E; simpl; [reflexivity|].
  assert (Hin : In ch (select_chat_by_id c s)) by (rewrite E; left; reflexivity).
  apply filter_In in Hin. destruct Hin as [Hin Hid].
  specialize (H ch Hin). unfold owned_by in H. rewrite Hid in H. simpl in H.
  rewrite H. reflexivity.
Qed.

(** ** C2: deleting a chat *)

Lemma delete_run (s : Store) (u : nat) (c : string) :
  Node.delete u c s =
  Node.mkServed [s] (fst (delete_chats (owned_by c u) s))
    (if (snd (delete_chats (owned_by c u) s) =? 0)%nat then not_found
     else Node.json 200 (Node.JsonMessage "Chat deleted successfully")).
Proof.
  unfold Node.delete, Node.serve, bind, execute, Node.delete_chat, delete_chats. simpl.
  destruct (length (filter (owned_by c u) (chats s)) =? 0)%nat; reflexivity.
Qed.

Lemma delete_chats_messages (doomed : Chat -> bool) (s : Store) (m : Message) :
  In m (messages (fst (delete_chats doomed s))) <->
  In m (messages s) /\
  forall ch, In ch (chats s) -> doomed ch = true -> chat_id ch <> msg_chat_id m.
Proof.
  unfold delete_chats. simpl. rewrite filter_In, negb_true_iff. split.
  - intros [Hin Hex]. split; [exact Hin|]. intros ch Hch Hd Hid.
    assert (Ht : existsb (fun c0 => chat_id c0 =? msg_chat_id m)
                   (filter doomed (chats s)) = true).
    { apply existsb_exists. exists ch. split.
      - apply filter_In. split; assumption.
      - apply String.eqb_eq, Hid. }
    congruence.
  - intros [Hin H]. split; [exact Hin|].
    apply none_existsb. intros ch Hch. apply filter_In in Hch. destruct Hch as [Hch Hd].
    apply String.eqb_neq. apply H; assumption.
Qed.

Lemma delete_chats_chats (doomed : Chat -> bool) (s : Store) (ch : Chat) :
  In ch (chats (fst (delete_chats doomed s))) <-> In ch (chats s) /\ doomed ch = false.
Proof.
  unfold delete_chats. simpl. rewrite filter_In, negb_true_iff. reflexivity.
Qed.

Lemma select_messages_none (s : Store) (c : string) :
  (forall m, In m (messages s) -> msg_chat_id m <> c) ->
  select_messages c s = [] /\ select_last_message c s = None.
Proof.
  intro H. unfold select_messages, select_last_message.
  rewrite none_filter_nil; [split; reflexivity|].
  intros m Hm. unfold in_chat. apply String.eqb_neq, H, Hm.
Qed.

Lemma deleteChat_run (s : Store) (u : nat) (c : string) :
  Php.deleteChat u c s =
  match limit_1 (select_chat_by_id c s) with
  | None => Php.mkOutcome [] s (Php.php_error "Chat not found or access denied")
  | Some ch =>
      if negb (chat_user_id ch =? u)%nat
      then Php.mkOutcome [] s (Php.php_error "Chat not found or access denied")
      else Php.mkOutcome [s] (fst (delete_chats (fun c0 => chat_id c0 =? c) s))
             Php.php_success
  end.
Proof.
  unfold Php.deleteChat, Php.run, bind, query, execute, Php.delete_chat. simpl.
  destruct (limit_1 (select_chat_by_id c s)) as [ch|]; [|reflexivity].
  destruct (negb (chat_user_id ch =? u)%nat); reflexivity.
Qed.

Lemma php_deleteChat_cascades (s : Store) (u : nat) (c : string) :
  Php.reply (Php.deleteChat u c s) = Php.php_success ->
  Php.before (Php.deleteChat u c s) = [s] /\
  Php.reply (Php.deleteChat u c (Php.after (Php.deleteChat u c s)))
  = Php.php_error "Chat not found or access denied" /\
  chat_exists c (Php.after (Php.deleteChat u c s)) = false /\
  (forall m, In m (messages (Php.after (Php.deleteChat u c s))) -> msg_chat_id m <> c).
Proof.
  intro Hok. pose proof (deleteChat_run s u c) as R.
  destruct (limit_1 (select_chat_by_id c s)) as [ch|] eqn:E.
  2:{ rewrite R in Hok. discriminate. }
  destruct (negb (chat_user_id ch =? u)%nat).
  { rewrite R in Hok. discriminate. }
  rewrite R. cbn [Php.before Php.after]. clear R Hok.
  assert (Hin : In ch (select_chat_by_id c s)).
  { destruct (select_chat_by_id c s); [discriminate|].
    injection E as ->. left; reflexivity. }
  apply filter_In in Hin. destruct Hin as [Hin Hid].
  assert (Hchats : forall ch', In ch' (chats (fst (delete_chats (fun c0 => chat_id c0 =? c) s)))
                     -> (chat_id ch' =? c) = false).
  { intros ch' Hin'. apply delete_chats_chats in Hin'. tauto. }
  split; [reflexivity|]. split; [|split].
  - rewrite deleteChat_not_owned; [reflexivity|].
    apply owns_false_none. intros ch' Hin'.
    unfold owned_by. rewrite (Hchats ch' Hin'). reflexivity.
  - unfold chat_exists. apply none_existsb. exact Hchats.
  - intros m Hm Hc. apply delete_chats_messages in Hm. destruct Hm as [_ Hm].
    apply (Hm ch Hin Hid). apply String.eqb_eq in Hid. congruence.
Qed.

(** C2. When the DELETE handler answers 200, it has run one statement (the
    store passes from the old state to the new one with nothing between);
    afterwards the same user gets "not found" for that chat, the messages
    table holds no row of that chat, so no query finds one, and the messages
    of the other chats are all still there. The same holds of a successful
    [deleteChat] of the PDO backend. *)
Theorem C2_delete_cascades (s : Store) (u : nat) (c : string) :
  (Node.status (Node.response (Node.delete u c s)) = 200 ->
   Node.before (Node.delete u c s) = [s] /\
   Node.response (Node.getWithMessages u c (Node.after (Node.delete u c s))) = not_found /\
   (forall m, In m (messages (Node.after (Node.delete u c s))) -> msg_chat_id m <> c) /\
   select_messages c (Node.after (Node.delete u c s)) = [] /\
   select_last_message c (Node.after (Node.delete u c s)) = None /\
   (forall m, In m (messages s) -> msg_chat_id m <> c ->
              In m (messages (Node.after (Node.delete u c s))))) /\
  (Php.reply (Php.deleteChat u c s) = Php.php_success ->
   Php.before (Php.deleteChat u c s) = [s] /\
   Php.reply (Php.deleteChat u c (Php.after (Php.deleteChat u c s)))
   = Php.php_error "Chat not found or access denied" /\
   chat_exists c (Php.after (Php.deleteChat u c s)) = false /\
   (forall m, In m (messages (Php.after (Php.deleteChat u c s))) -> msg_chat_id m <> c)).
Proof.
  split.
  - rewrite delete_run. cbn [Node.response Node.before Node.after]. intro Hok.
    destruct (snd (delete_chats (owned_by c u) s) =? 0)%nat eqn:E; [discriminate|].
    assert (Hch : exists ch, In ch (chats s) /\ owned_by c u ch = true).
    { unfold delete_chats in E. simpl in E.
      destruct (filter (owned_by c u) (chats s)) as [|ch l] eqn:F; [discriminate|].
      exists ch. apply filter_In. rewrite F. left; reflexivity. }
    destruct Hch as [ch [Hin Hown]].
    assert (Hid : chat_id ch = c).
    { unfold owned_by in Hown. apply andb_true_iff in Hown. apply String.eqb_eq, Hown. }
    assert (Hgone : forall m, In m (messages (fst (delete_chats (owned_by c u) s))) ->
                              msg_chat_id m <> c).
    { intros m Hm. apply delete_chats_messages in Hm. destruct Hm as [_ Hm].
      rewrite <- Hid. intro Heq. apply (Hm ch Hin Hown). symmetry; exact Heq. }
    split; [reflexivity|]. split; [|split; [exact Hgone|]].
    + assert (Hno : owns u c (fst (delete_chats (owned_by c u) s)) = false).
      { apply owns_false_none. intros ch' Hin'. apply delete_chats_chats in Hin'. tauto. }
      rewrite (getWithMessages_not_owned _ _ _ Hno). reflexivity.
    + destruct (select_messages_none _ c Hgone) as [H1 H2].
      split; [exact H1|]. split; [exact H2|].
      intros m Hm Hc. apply delete_chats_messages. split; [exact Hm|].
      intros ch' Hin' Hd Heq. apply Hc. rewrite <- Heq.
      unfold owned_by in Hd. apply andb_true_iff in Hd. apply String.eqb_eq, Hd.
  - apply php_deleteChat_cascades.
Qed.

Lemma C2_delete_cascades_witness :
  Node.status (Node.response (Node.delete 1 "c1" Scenario.with_hello)) = 200 /\
  messages (Node.after (Node.delete 1 "c1" Scenario.with_hello)) = [] /\
  select_messages "c1" (Node.after (Node.delete 1 "c1" Scenario.with_hello)) = [].
Proof.
  split; [reflexivity|]. split; [reflexivity|].
  apply (proj1 (C2_delete_cascades Scenario.with_hello 1 "c1")). reflexivity.
Defined.

(** ** C3 and C4: appending a message *)

Lemma insert_message_inr (sender_column : SenderColumn) (c snd txt : string)
    (model info : option string) (t : nat) (s s1 : Store) (id : nat) :
  insert_message sender_column c snd txt model info t s = inr (s1, id) ->
  sender_column snd = Some (stored_sender sender_column snd) /\
  chat_exists c s = true /\
  id = next_message_id s /\
  s1 = set_messages s
         (messages s ++ [mkMessage (next_message_id s) c
                           (stored_sender sender_column snd) txt model info t])
         (S (next_message_id s)).
Proof.
  unfold insert_message, stored_sender.
  destruct (sender_column snd) as [member|]; simpl; [|discriminate].
  destruct (fits 65535 txt && fits_opt 100 model && fits_opt 50 info); simpl; [|discriminate].
  destruct (chat_exists c s); simpl; [|discriminate].
  intro H. injection H as <- <-. repeat split.
Qed.

Section AppendDone.
Variable sender_column : SenderColumn.
Variables (s : Store) (u : nat) (c : string).
Variables (sender content model info : option string) (t_insert t_update : nat).

Lemma append_201 :
  Node.status (Node.response
    (Node.append sender_column u c sender content model info t_insert t_update s)) = 201 ->
  js_not sender || js_not content = false /\
  owns u c s = true /\
  sender_column (str sender) = Some (stored_sender sender_column (str sender)) /\
  Node.append sender_column u c sender content model info t_insert t_update s =
  Node.mkServed
    [s; set_messages s
          (messages s ++ [appended sender_column s c sender content model info t_insert])
          (S (next_message_id s))]
    (mkStore (users s)
       (map (fun ch => if chat_id ch =? c then Node.set_updated_at ch t_update else ch)
          (chats s))
       (messages s ++ [appended sender_column s c sender content model info t_insert])
       (next_user_id s) (S (next_message_id s)))
    (Node.json 201 (Node.JsonMessage "Message added successfully")).
Proof.
  destruct (js_not sender || js_not content) eqn:Hv.
  { rewrite append_invalid by exact Hv. discriminate. }
  destruct (owns u c s) eqn:Ho.
  2:{ rewrite append_not_owned by assumption. discriminate. }
  destruct (insert_message sender_column c (str sender) (str content) (or_null model) (or_null info)
              t_insert s) as [e | [s1 id]] eqn:Hi.
  { rewrite (append_refused sender_column s u c _ _ _ _ t_insert t_update e) by assumption. discriminate. }
  intros _. rewrite (append_committed sender_column s u c _ _ _ _ t_insert t_update s1 id) by assumption.
  apply insert_message_inr in Hi. destruct Hi as [He [_ [_ ->]]].
  split; [reflexivity|]. split; [reflexivity|]. split; [exact He|]. reflexivity.
Qed.
End AppendDone.

(** A row stamped after all the rows of its chat is the one [LIMIT 1]
    keeps, and the only one a server could keep: it alone has the latest
    timestamp. *)
Lemma select_last_message_appended (s : Store) (c : string) (new : Message)
    (old : list Message) :
  messages s = (old ++ [new])%list ->
  msg_chat_id new = c ->
  (forall m, In m old -> msg_chat_id m = c -> timestamp m < timestamp new) ->
  select_last_message c s = Some (content new).
Proof.
  intros Hs Hc Ht. unfold select_last_message. rewrite Hs.
  assert (Hnew : In new (filter (in_chat c) (old ++ [new])%list)).
  { apply filter_In. split.
    - apply in_or_app. right. left; reflexivity.
    - apply in_chat_spec, Hc. }
  destruct (limit_1 (order_by timestamp_desc (filter (in_chat c) (old ++ [new])%list)))
    as [x|] eqn:E.
  - apply (limit_1_order_by _ timestamp_desc_total timestamp_desc_trans) in E.
    destruct E as [Hx Hfirst]. specialize (Hfirst new Hnew).
    unfold timestamp_desc in Hfirst. apply timestamp_asc_spec in Hfirst.
    apply filter_In in Hx. destruct Hx as [Hx Hxc]. apply in_chat_spec in Hxc.
    apply in_app_or in Hx. destruct Hx as [Hx | [<- | []]]; [|reflexivity].
    specialize (Ht x Hx Hxc). lia.
  - apply limit_1_order_by_none in E. rewrite E in Hnew. destruct Hnew.
Qed.

Lemma most_recent_appended (s : Store) (c : string) (new : Message) (old : list Message)
    (preview : option string) :
  messages s = (old ++ [new])%list ->
  msg_chat_id new = c ->
  (forall m, In m old -> msg_chat_id m = c -> timestamp m < timestamp new) ->
  most_recent_content s c preview -> preview = Some (content new).
Proof.
  intros Hs Hc Ht. unfold most_recent_content. rewrite Hs.
  assert (Hnew : In new (old ++ [new])%list) by (apply in_or_app; right; left; reflexivity).
  destruct preview as [txt|].
  - intros [m [Hin [Hmc [<- Hmax]]]]. f_equal.
    apply in_app_or in Hin. destruct Hin as [Hin | [<- | []]]; [|reflexivity].
    specialize (Ht m Hin Hmc). specialize (Hmax new Hnew Hc). lia.
  - intro H. exfalso. exact (H new Hnew Hc).
Qed.

(** The hypothesis on identities below is an invariant of the table: it
    holds of an empty one and every INSERT keeps it. *)
Lemma insert_message_keeps_fresh_ids (sender_column : SenderColumn)
    (c snd txt : string) (model info : option string)
    (t : nat) (s s1 : Store) (id : nat) :
  fresh_message_ids s ->
  insert_message sender_column c snd txt model info t s = inr (s1, id) ->
  fresh_message_ids s1.
Proof.
  intros Hf Hi. apply insert_message_inr in Hi. destruct Hi as [_ [_ [_ ->]]].
  intros m Hin. simpl in Hin. apply in_app_or in Hin. simpl.
  destruct Hin as [Hin | [<- | []]].
  - specialize (Hf m Hin). lia.
  - simpl. lia.
Qed.

(** C3 (fails as stated). The INSERT and the UPDATE of an append are two
    statements and each reads the clock: with readings 10 and 11 the message
    is stamped 10 and the chat 11, not "that same instant". *)
Lemma C3_counterexample_two_clock_readings :
  Node.status (Node.response
    (Node.append members 1 "c1" (Some "user") (Some "Hello") None None 10 11
       Scenario.with_chat)) = 201 /\
  messages (Node.after
    (Node.append members 1 "c1" (Some "user") (Some "Hello") None None 10 11
       Scenario.with_chat)) = [mkMessage 1 "c1" "user" "Hello" None None 10] /\
  chats (Node.after
    (Node.append members 1 "c1" (Some "user") (Some "Hello") None None 10 11
       Scenario.with_chat)) = [mkChat "c1" 1 "Test" "llama2" 5 11] /\
  ~ (forall m ch,
        In m (messages (Node.after
          (Node.append members 1 "c1" (Some "user") (Some "Hello") None None 10 11
             Scenario.with_chat))) ->
        In ch (chats (Node.after
          (Node.append members 1 "c1" (Some "user") (Some "Hello") None None 10 11
             Scenario.with_chat))) ->
        updated_at ch = timestamp m).
Proof.
  repeat split. intro H.
  specialize (H (mkMessage 1 "c1" "user" "Hello" None None 10)
                (mkChat "c1" 1 "Test" "llama2" 5 11)
                (or_introl eq_refl) (or_introl eq_refl)).
  discriminate H.
Qed.

(** C3 (amended). A successful append inserts the message with the clock
    reading of the INSERT and sets the chat's [updated_at] to the clock
    reading of the UPDATE that follows. When the clock has moved on since
    the chat's earlier messages (each is stamped strictly before the
    INSERT) and does not run backwards within the request, the appended
    message alone has the latest timestamp of the chat, so whichever row of
    the latest timestamp is taken for the preview, it is this one: the
    listing of the owner shows the chat with the appended content as
    [last_message] and an [updated_at] that is the UPDATE's reading, at
    least a reading [t0] taken before the append. *)
Theorem C3_append_then_list (sender_column : SenderColumn) (s : Store) (u : nat)
    (c : string) (sender content model info : option string)
    (t0 t_insert t_update : nat) :
  Node.status (Node.response
    (Node.append sender_column u c sender content model info t_insert t_update s)) = 201 ->
  (forall m, In m (messages s) -> msg_chat_id m = c -> timestamp m < t_insert) ->
  t0 <= t_insert -> t_insert <= t_update ->
  messages (Node.after
    (Node.append sender_column u c sender content model info t_insert t_update s))
  = (messages s ++ [appended sender_column s c sender content model info t_insert])%list /\
  (forall ch,
      In ch (chats (Node.after
        (Node.append sender_column u c sender content model info t_insert t_update s))) ->
      chat_id ch = c -> updated_at ch = t_update) /\
  (forall preview,
      most_recent_content
        (Node.after
           (Node.append sender_column u c sender content model info t_insert t_update s))
        c preview ->
      preview = Some (str content)) /\
  exists rows,
    Node.response
      (Node.listForUser u
         (Node.after
            (Node.append sender_column u c sender content model info t_insert t_update s)))
    = Node.json 200 (Node.JsonChats rows) /\
    (exists r, In r rows /\ Node.summary_id r = c) /\
    (forall r, In r rows -> Node.summary_id r = c ->
               Node.last_message r = Some (str content) /\
               Node.summary_updated_at r = t_update /\
               t0 <= Node.summary_updated_at r).
Proof.
  intros Hok Hclock H0 H1.
  destruct (append_201 sender_column s u c sender content model info t_insert t_update Hok)
    as [_ [Ho [_ ->]]].
  cbn [Node.after].
  set (new := appended sender_column s c sender content model info t_insert).
  set (s' := mkStore _ _ _ _ _).
  assert (Hbump : forall ch, In ch (chats s') -> chat_id ch = c -> updated_at ch = t_update).
  { intros ch Hin Hid. subst s'. simpl in Hin. apply in_map_iff in Hin.
    destruct Hin as [ch0 [<- _]].
    destruct (chat_id ch0 =? c) eqn:E; [reflexivity|].
    apply String.eqb_neq in E. contradiction. }
  split; [reflexivity|]. split; [exact Hbump|]. split.
  { intros preview Hp.
    exact (most_recent_appended s' c new (messages s) preview eq_refl eq_refl Hclock Hp). }
  eexists. split; [reflexivity|].
  assert (Hrows : forall r,
             In r (Node.select_chat_summaries u s') <->
             exists ch, In ch (chats s') /\ chat_user_id ch = u /\ r = Node.summarize s' ch).
  { intro r. unfold Node.select_chat_summaries. rewrite in_map_iff. split.
    - intros [ch [<- Hch]]. apply owned_rows_In in Hch. exists ch. tauto.
    - intros [ch [Ha [Hb ->]]]. exists ch. split; [reflexivity|].
      apply owned_rows_In. tauto. }
  split.
  - unfold owns in Ho.
    destruct (select_chat c u s) as [|ch l] eqn:E; [discriminate|].
    assert (Hin : In ch (select_chat c u s)) by (rewrite E; left; reflexivity).
    apply filter_In in Hin. destruct Hin as [Hin Hown].
    apply andb_true_iff in Hown. destruct Hown as [Hid Hu].
    apply String.eqb_eq in Hid. apply Nat.eqb_eq in Hu.
    exists (Node.summarize s' (Node.set_updated_at ch t_update)). split.
    + apply Hrows. exists (Node.set_updated_at ch t_update).
      split; [|split; [exact Hu | reflexivity]].
      subst s'. simpl. apply in_map_iff. exists ch. split; [|exact Hin].
      rewrite Hid, String.eqb_refl. reflexivity.
    + exact Hid.
  - intros r Hr Hid. apply Hrows in Hr. destruct Hr as [ch [Hin [_ ->]]].
    simpl in Hid. simpl. rewrite (Hbump ch Hin Hid). rewrite Hid.
    split; [|split; [reflexivity | lia]].
    exact (select_last_message_appended s' c new (messages s) eq_refl eq_refl Hclock).
Qed.

Lemma C3_append_then_list_witness :
  Node.status (Node.response
    (Node.append members 1 "c1" (Some "ai") (Some "Hi!") None None 12 12
       Scenario.with_hello)) = 201 /\
  messages (Node.after
    (Node.append members 1 "c1" (Some "ai") (Some "Hi!") None None 12 12
       Scenario.with_hello))
  = [Scenario.hello; mkMessage 2 "c1" "ai" "Hi!" None None 12].
Proof.
  split; [reflexivity|].
  apply (C3_append_then_list members Scenario.with_hello 1 "c1" (Some "ai") (Some "Hi!")
           None None 11 12 12).
  - reflexivity.
  - intros m [<- | []] _. simpl. lia.
  - lia.
  - lia.
Defined.

(** C4 (fails as stated). The append handler opens no transaction: between
    its INSERT and its UPDATE the store is in a committed state that holds
    the message while the chat still carries its old [updated_at], and a
    listing served from that state shows exactly this. *)
Lemma C4_counterexample_state_between :
  exists mid,
    In mid (Node.before
      (Node.append members 1 "c1" (Some "user") (Some "Hello") None None 10 11
         Scenario.with_chat)) /\
    messages mid = [Scenario.hello] /\
    chats mid = [mkChat "c1" 1 "Test" "llama2" 5 5] /\
    Node.response (Node.listForUser 1 mid) =
    Node.json 200
      (Node.JsonChats [Node.mkChatSummary "c1" "Test" "llama2" 5 5 (Some "Hello")]).
Proof.
  exists (mkStore [Scenario.demo; Scenario.guest] [Scenario.c1] [Scenario.hello] 3 2).
  repeat split. right. left. reflexivity.
Qed.

(** C4 (amended). A successful append commits twice, each statement on its
    own: the store passes through exactly one state between the request's
    initial state and its final one, in which the message is stored and the
    chats table is untouched; the final state differs from it by the chats'
    [updated_at] only. The opposite order never shows: a state of the run
    whose chats table differs from the initial one already holds the
    message. *)
Theorem C4_append_commits_twice (sender_column : SenderColumn)
    (s : Store) (u : nat) (c : string)
    (sender content model info : option string) (t_insert t_update : nat) :
  Node.status (Node.response
    (Node.append sender_column u c sender content model info t_insert t_update s)) = 201 ->
  exists mid,
    Node.before (Node.append sender_column u c sender content model info t_insert t_update s)
    = [s; mid] /\
    messages mid = (messages s ++ [appended sender_column s c sender content model info t_insert])%list /\
    chats mid = chats s /\
    messages (Node.after (Node.append sender_column u c sender content model info t_insert t_update s))
    = messages mid /\
    chats (Node.after (Node.append sender_column u c sender content model info t_insert t_update s))
    = map (fun ch => if chat_id ch =? c then Node.set_updated_at ch t_update else ch)
        (chats s) /\
    forall st,
      In st (Node.before (Node.append sender_column u c sender content model info t_insert t_update s)
             ++ [Node.after
                   (Node.append sender_column u c sender content model info t_insert t_update s)])%list ->
      chats st <> chats s ->
      In (appended sender_column s c sender content model info t_insert) (messages st).
Proof.
  intro Hok.
  destruct (append_201 sender_column s u c sender content model info t_insert t_update Hok)
    as [_ [_ [_ ->]]].
  eexists. split; [reflexivity|]. cbn [Node.before Node.after].
  repeat split.
  intros st Hin Hdiff. simpl in Hin.
  destruct Hin as [<- | [<- | [<- | []]]].
  - contradiction.
  - simpl. apply in_or_app. right. left. reflexivity.
  - simpl. apply in_or_app. right. left. reflexivity.
Qed.

Lemma C4_append_commits_twice_witness :
  Node.status (Node.response
    (Node.append members 1 "c1" (Some "user") (Some "Hello") None None 10 11
       Scenario.with_chat)) = 201 /\
  exists mid,
    Node.before
      (Node.append members 1 "c1" (Some "user") (Some "Hello") None None 10 11
         Scenario.with_chat) = [Scenario.with_chat; mid] /\
    messages mid = [Scenario.hello].
Proof.
  split; [reflexivity|].
  destruct (C4_append_commits_twice members Scenario.with_chat 1 "c1" (Some "user")
              (Some "Hello") None None 10 11 eq_refl) as [mid [Hb [Hm _]]].
  exists mid. split; [exact Hb | exact Hm].
Defined.

(** ** The run of [saveChat] *)

Lemma for_each_insert_chats (sender_column : SenderColumn)
    (chatId : string) (l : list Php.ChatMessage) (s : Store) :
  chats (final (Php.for_each l (fun message =>
           execute (insert_message sender_column chatId (Php.cm_sender message)
                      (Php.cm_content message) (Php.cm_model message)
                      (Php.cm_responseInfo message) (Php.cm_timestamp message))) s))
  = chats s.
Proof.
  revert s. induction l as [|m l IH]; intro s; simpl; [reflexivity|].
  unfold bind, execute.
  destruct (insert_message sender_column chatId (Php.cm_sender m) (Php.cm_content m) (Php.cm_model m)
              (Php.cm_responseInfo m) (Php.cm_timestamp m) s) as [e | [s1 id]] eqn:E;
    simpl; [reflexivity|].
  rewrite IH. apply insert_message_inr in E. destruct E as [_ [_ [_ ->]]]. reflexivity.
Qed.

Lemma bind_execute_inl {A B : Type} (w : Store -> DbError + (Store * A))
    (f : A -> DB B) (s : Store) (e : DbError) :
  w s = inl e -> bind (execute w) f s = mkRun [] s (inl e).
Proof. intro H. unfold bind, execute. rewrite H. reflexivity. Qed.

Lemma bind_execute_inr {A B : Type} (w : Store -> DbError + (Store * A))
    (f : A -> DB B) (s s' : Store) (a : A) :
  w s = inr (s', a) ->
  bind (execute w) f s = mkRun (s :: seen (f a s')) (final (f a s')) (result (f a s')).
Proof. intro H. unfold bind, execute. rewrite H. reflexivity. Qed.

Lemma final_bind_ret {A B : Type} (m : DB A) (b : B) (s : Store) :
  final (bind m (fun _ => ret b) s) = final (m s).
Proof. unfold bind, ret. destruct (result (m s)); reflexivity. Qed.

(** The chats table after [saveChat] is the one its first statement left. *)
Lemma saveChat_chats (sender_column : SenderColumn)
    (s : Store) (u : nat) (d : Php.ChatData) :
  chats (Php.after (Php.saveChat sender_column u d s)) =
  match Php.upsert_chat (Php.data_id d) u (Php.data_name d) (Php.data_model d)
          (Php.data_createdAt d) (Php.data_updatedAt d) s with
  | inl _ => chats s
  | inr (s1, _) => chats s1
  end.
Proof.
  unfold Php.saveChat, Php.run. cbn [Php.after].
  destruct (Php.upsert_chat (Php.data_id d) u (Php.data_name d) (Php.data_model d)
              (Php.data_createdAt d) (Php.data_updatedAt d) s) as [e | [s1 n]] eqn:E.
  - rewrite (bind_execute_inl _ _ _ _ E). reflexivity.
  - rewrite (bind_execute_inr _ _ _ _ _ E). cbn [final].
    rewrite (bind_execute_inr _ _ _ _ _ (eq_refl : Php.delete_messages (Php.data_id d) s1 = _)).
    cbn [final]. rewrite final_bind_ret, for_each_insert_chats. reflexivity.
Qed.

Lemma chat_exists_In (c : string) (s : Store) :
  chat_exists c s = true <-> In c (map chat_id (chats s)).
Proof.
  unfold chat_exists. rewrite existsb_exists, in_map_iff. split.
  - intros [ch [Hin Hid]]. apply String.eqb_eq in Hid. exists ch. tauto.
  - intros [ch [Hid Hin]]. exists ch. split; [exact Hin | apply String.eqb_eq, Hid].
Qed.

Lemma result_bind_ret {A B : Type} (m : DB A) (b : B) (s : Store) :
  result (bind m (fun _ => ret b) s)
  = match result (m s) with
    | inl e => inl e
    | inr _ => inr b
    end.
Proof. unfold bind, ret. destruct (result (m s)); reflexivity. Qed.

Lemma insert_message_storable (sender_column : SenderColumn)
    (c : string) (m : Php.ChatMessage) (s : Store) :
  storable sender_column m = true -> chat_exists c s = true ->
  insert_message sender_column c (Php.cm_sender m) (Php.cm_content m) (Php.cm_model m)
    (Php.cm_responseInfo m) (Php.cm_timestamp m) s
  = inr (set_messages s
           (messages s ++ inserted_rows sender_column c [m] (next_message_id s))
           (S (next_message_id s)),
         next_message_id s).
Proof.
  unfold storable, insert_message. simpl. unfold stored_sender. intros H Hex.
  destruct (sender_column (Php.cm_sender m)) as [member|]; [|discriminate].
  simpl in H. rewrite H, Hex. reflexivity.
Qed.

Lemma insert_message_unstorable (sender_column : SenderColumn)
    (c : string) (m : Php.ChatMessage) (s : Store) :
  storable sender_column m = false ->
  exists e,
    insert_message sender_column c (Php.cm_sender m) (Php.cm_content m) (Php.cm_model m)
      (Php.cm_responseInfo m) (Php.cm_timestamp m) s = inl e.
Proof.
  unfold storable, insert_message. intro H.
  destruct (sender_column (Php.cm_sender m)) as [member|]; simpl in *;
    [|eexists; reflexivity].
  rewrite H. simpl. eexists. reflexivity.
Qed.

Section SaveLoop.
Variable sender_column : SenderColumn.
Variable c : string.

Lemma for_each_insert_all (l : list Php.ChatMessage) (s : Store) :
  chat_exists c s = true ->
  forallb (storable sender_column) l = true ->
  result (Php.for_each l (fun message =>
            execute (insert_message sender_column c (Php.cm_sender message) (Php.cm_content message)
                       (Php.cm_model message) (Php.cm_responseInfo message)
                       (Php.cm_timestamp message))) s) = inr tt /\
  messages (final (Php.for_each l (fun message =>
            execute (insert_message sender_column c (Php.cm_sender message) (Php.cm_content message)
                       (Php.cm_model message) (Php.cm_responseInfo message)
                       (Php.cm_timestamp message))) s))
  = (messages s ++ inserted_rows sender_column c l (next_message_id s))%list.
Proof.
  revert s. induction l as [|m l IH]; intros s Hex Hall; simpl.
  - split; [reflexivity|]. symmetry. apply app_nil_r.
  - simpl in Hall. apply andb_true_iff in Hall. destruct Hall as [Hm Hall].
    rewrite (bind_execute_inr _ _ _ _ _ (insert_message_storable sender_column c m s Hm Hex)).
    cbn [result final].
    match goal with
    | |- context [Php.for_each l ?f ?st] => destruct (IH st Hex Hall) as [Hr Hf]
    end.
    split; [exact Hr|]. rewrite Hf. simpl. rewrite <- app_assoc. reflexivity.
Qed.

Lemma for_each_insert_stops (good rest : list Php.ChatMessage) (bad : Php.ChatMessage)
    (s : Store) :
  chat_exists c s = true ->
  forallb (storable sender_column) good = true ->
  storable sender_column bad = false ->
  (exists e,
     result (Php.for_each (good ++ bad :: rest) (fun message =>
               execute (insert_message sender_column c (Php.cm_sender message) (Php.cm_content message)
                          (Php.cm_model message) (Php.cm_responseInfo message)
                          (Php.cm_timestamp message))) s) = inl e) /\
  messages (final (Php.for_each (good ++ bad :: rest) (fun message =>
            execute (insert_message sender_column c (Php.cm_sender message) (Php.cm_content message)
                       (Php.cm_model message) (Php.cm_responseInfo message)
                       (Php.cm_timestamp message))) s))
  = (messages s ++ inserted_rows sender_column c good (next_message_id s))%list.
Proof.
  revert s. induction good as [|m l IH]; intros s Hex Hall Hbad; simpl.
  - destruct (insert_message_unstorable sender_column c bad s Hbad) as [e He].
    rewrite (bind_execute_inl _ _ _ _ He). cbn [result final].
    split; [exists e; reflexivity|]. symmetry. apply app_nil_r.
  - simpl in Hall. apply andb_true_iff in Hall. destruct Hall as [Hm Hall].
    rewrite (bind_execute_inr _ _ _ _ _ (insert_message_storable sender_column c m s Hm Hex)).
    cbn [result final].
    match goal with
    | |- context [Php.for_each (l ++ bad :: rest) ?f ?st] =>
        destruct (IH st Hex Hall Hbad) as [Hr Hf]
    end.
    split; [exact Hr|]. rewrite Hf. simpl. rewrite <- app_assoc. reflexivity.
Qed.

Lemma inserted_rows_view (l : list Php.ChatMessage) (n : nat) :
  map Php.view (inserted_rows sender_column c l n) = map (as_stored sender_column) l.
Proof.
  revert n. induction l as [|m l IH]; intro n; simpl; [reflexivity|].
  rewrite IH. reflexivity.
Qed.

Lemma inserted_rows_in_chat (l : list Php.ChatMessage) (n : nat) (c' : string) :
  filter (in_chat c') (inserted_rows sender_column c l n)
  = if c =? c' then inserted_rows sender_column c l n else [].
Proof.
  revert n. induction l as [|m l IH]; intro n; simpl.
  - destruct (c =? c'); reflexivity.
  - rewrite IH. unfold in_chat. simpl. destruct (c =? c'); reflexivity.
Qed.

Lemma filter_other_chat (l : list Message) (c' : string) :
  filter (in_chat c') (filter (fun m => negb (in_chat c m)) l)
  = if c =? c' then [] else filter (in_chat c') l.
Proof.
  induction l as [|m l IH]; simpl.
  - destruct (c =? c'); reflexivity.
  - destruct (in_chat c m) eqn:E1; simpl.
    + rewrite IH. destruct (c =? c') eqn:E3; [reflexivity|].
      assert (E2 : in_chat c' m = false).
      { apply in_chat_spec in E1. unfold in_chat. rewrite E1. exact E3. }
      rewrite E2. reflexivity.
    + rewrite IH. destruct (in_chat c' m) eqn:E2; destruct (c =? c') eqn:E3;
        try reflexivity.
      apply String.eqb_eq in E3. subst c'. congruence.
Qed.
End SaveLoop.

Section SaveChat.
Variable sender_column : SenderColumn.
Variables (s : Store) (u : nat) (d : Php.ChatData).

Lemma upsert_chat_ok :
  fits 50 (Php.data_id d) && fits 255 (Php.data_name d) && fits 100 (Php.data_model d)
  = true ->
  chat_exists (Php.data_id d) s = true \/ user_exists u s = true ->
  exists s1 n,
    Php.upsert_chat (Php.data_id d) u (Php.data_name d) (Php.data_model d)
      (Php.data_createdAt d) (Php.data_updatedAt d) s = inr (s1, n) /\
    messages s1 = messages s /\
    next_message_id s1 = next_message_id s /\
    chat_exists (Php.data_id d) s1 = true.
Proof.
  intros Hfit Hor. unfold Php.upsert_chat. rewrite Hfit. cbn [negb].
  destruct (chat_exists (Php.data_id d) s) eqn:Hex.
  - eexists. eexists. split; [reflexivity|]. split; [reflexivity|]. split; [reflexivity|].
    apply chat_exists_In. simpl. rewrite map_map.
    apply chat_exists_In in Hex. apply in_map_iff in Hex. destruct Hex as [ch [Hid Hin]].
    apply in_map_iff. exists ch. split; [|exact Hin].
    destruct (chat_id ch =? Php.data_id d); exact Hid.
  - destruct Hor as [Hor | Husr]; [discriminate|]. rewrite Husr. cbn [negb].
    eexists. eexists. split; [reflexivity|]. split; [reflexivity|]. split; [reflexivity|].
    apply chat_exists_In. simpl. rewrite map_app. apply in_or_app. right. left. reflexivity.
Qed.

Lemma saveChat_run (s1 : Store) (n : nat) :
  Php.upsert_chat (Php.data_id d) u (Php.data_name d) (Php.data_model d)
    (Php.data_createdAt d) (Php.data_updatedAt d) s = inr (s1, n) ->
  Php.reply (Php.saveChat sender_column u d s)
  = match result (Php.for_each (Php.data_messages d) (fun message =>
              execute (insert_message sender_column (Php.data_id d) (Php.cm_sender message)
                         (Php.cm_content message) (Php.cm_model message)
                         (Php.cm_responseInfo message) (Php.cm_timestamp message)))
            (set_messages s1
               (filter (fun m => negb (in_chat (Php.data_id d) m)) (messages s1))
               (next_message_id s1))) with
    | inl e => Php.php_uncaught e
    | inr _ => Php.php_success
    end /\
  Php.after (Php.saveChat sender_column u d s)
  = final (Php.for_each (Php.data_messages d) (fun message =>
              execute (insert_message sender_column (Php.data_id d) (Php.cm_sender message)
                         (Php.cm_content message) (Php.cm_model message)
                         (Php.cm_responseInfo message) (Php.cm_timestamp message)))
            (set_messages s1
               (filter (fun m => negb (in_chat (Php.data_id d) m)) (messages s1))
               (next_message_id s1))).
Proof.
  intro E. unfold Php.saveChat, Php.run. cbn [Php.reply Php.after].
  rewrite (bind_execute_inr _ _ _ _ _ E). cbn [result final].
  rewrite (bind_execute_inr _ _ _ _ _
             (eq_refl : Php.delete_messages (Php.data_id d) s1 = _)).
  cbn [result final]. rewrite result_bind_ret, final_bind_ret.
  split; [|reflexivity].
  match goal with |- context [result ?r] => destruct (result r) end; reflexivity.
Qed.
End SaveChat.

(** ** C1: the ownership guard *)

(** C1 (fails as stated). [saveChat], the whole-chat replace of the PDO
    backend, does not answer "not found" for a chat that does not exist: it
    creates it. *)
Lemma C1_counterexample_saveChat_absent :
  owns 1 "c1" Scenario.registered = false /\
  chat_exists "c1" Scenario.registered = false /\
  Php.reply (Php.saveChat members 1 (Php.mkChatData "c1" "Test" "llama2" 5 5 [])
               Scenario.registered) = Php.php_success /\
  chats (Php.after (Php.saveChat members 1 (Php.mkChatData "c1" "Test" "llama2" 5 5 [])
                      Scenario.registered)) = [Scenario.c1].
Proof. repeat split. Qed.

(** [saveChat] asks nothing about the owner of an existing chat, where
    [deleteChat] does: called by the second user on the chat of the first,
    it renames the chat and replaces its messages. *)
Example saveChat_on_a_chat_of_another_user :
  owns 2 "c1" Scenario.with_hello = false /\
  Php.reply (Php.saveChat members 2 (Php.mkChatData "c1" "Taken" "llama2" 5 20 [])
               Scenario.with_hello) = Php.php_success /\
  chats (Php.after (Php.saveChat members 2 (Php.mkChatData "c1" "Taken" "llama2" 5 20 [])
                      Scenario.with_hello)) = [mkChat "c1" 1 "Taken" "llama2" 5 20] /\
  messages (Php.after (Php.saveChat members 2 (Php.mkChatData "c1" "Taken" "llama2" 5 20 [])
                         Scenario.with_hello)) = [].
Proof. repeat split. Qed.

(** C1 (amended). When user [u] does not own chat [c], because no such chat
    exists or because it belongs to someone else, reading it, deleting it
    (in both backends), and renaming it or appending to it with a request
    that passes validation, all leave the store as it is and give one and
    the same not-found answer; a rename or an append that fails validation
    is answered 400 before the chat is looked up. [saveChat] is an insert or
    update: for an identity that no chat has, called by an existing user
    with an identity, a name and a model that fit their columns, it inserts
    the chat with the caller as owner, and it answers success whenever every
    supplied message can be stored. *)
Theorem C1_not_owned_is_not_found (sender_column : SenderColumn)
    (found_rows : bool) (s : Store) (u : nat) (c : string) :
  owns u c s = false ->
  Node.getWithMessages u c s = Node.mkServed [] s not_found /\
  (Node.after (Node.delete u c s) = s /\
   Node.response (Node.delete u c s) = not_found) /\
  (forall name now,
      js_not name = false ->
      Node.after (Node.rename found_rows u c name now s) = s /\
      Node.response (Node.rename found_rows u c name now s) = not_found) /\
  (forall sender content model info t_insert t_update,
      js_not sender || js_not content = false ->
      Node.append sender_column u c sender content model info t_insert t_update s =
      Node.mkServed [] s not_found) /\
  Php.deleteChat u c s =
    Php.mkOutcome [] s (Php.php_error "Chat not found or access denied") /\
  (forall name now,
      js_not name = true ->
      Node.rename found_rows u c name now s =
      Node.mkServed [] s (Node.json 400 (Node.JsonError "Chat name is required"))) /\
  (forall sender content model info t_insert t_update,
      js_not sender || js_not content = true ->
      Node.append sender_column u c sender content model info t_insert t_update s =
      Node.mkServed [] s
        (Node.json 400 (Node.JsonError "Sender and content are required"))) /\
  (forall d : Php.ChatData,
      Php.data_id d = c ->
      chat_exists c s = false ->
      user_exists u s = true ->
      fits 50 c && fits 255 (Php.data_name d) && fits 100 (Php.data_model d) = true ->
      chats (Php.after (Php.saveChat sender_column u d s)) =
      (chats s ++ [mkChat c u (Php.data_name d) (Php.data_model d)
                     (Php.data_createdAt d) (Php.data_updatedAt d)])%list /\
      (forallb (storable sender_column) (Php.data_messages d) = true ->
       Php.reply (Php.saveChat sender_column u d s) = Php.php_success)).
Proof.
  intro H.
  split; [apply getWithMessages_not_owned, H|].
  split; [rewrite (delete_not_owned s u c H); split; reflexivity|].
  split.
  { intros name now Hn. rewrite (rename_not_owned found_rows s u c name now Hn H).
    split; reflexivity. }
  split; [intros; apply append_not_owned; assumption|].
  split; [apply deleteChat_not_owned, H|].
  split; [intros; apply rename_invalid; assumption|].
  split; [intros; apply append_invalid; assumption|].
  intros d Hd Habs Husr Hfit.
  assert (E : Php.upsert_chat (Php.data_id d) u (Php.data_name d) (Php.data_model d)
                (Php.data_createdAt d) (Php.data_updatedAt d) s
              = inr (set_chats s
                       (chats s ++ [mkChat c u (Php.data_name d) (Php.data_model d)
                                      (Php.data_createdAt d) (Php.data_updatedAt d)]), 1)).
  { unfold Php.upsert_chat. rewrite Hd, Hfit, Habs, Husr. reflexivity. }
  split.
  - rewrite saveChat_chats, E. reflexivity.
  - intro Hall.
    destruct (saveChat_run sender_column s u d _ _ E) as [-> _].
    match goal with
    | |- context [Php.for_each _ _ ?st] =>
        destruct (for_each_insert_all sender_column (Php.data_id d)
                    (Php.data_messages d) st) as [-> _]
    end.
    + apply chat_exists_In. simpl. rewrite map_app. apply in_or_app.
      right. left. symmetry. exact Hd.
    + exact Hall.
    + reflexivity.
Qed.

Lemma C1_not_owned_witness :
  owns 2 "c1" Scenario.with_chat = false /\
  Node.getWithMessages 2 "c1" Scenario.with_chat =
  Node.mkServed [] Scenario.with_chat not_found.
Proof.
  split; [reflexivity|].
  apply (C1_not_owned_is_not_found members true Scenario.with_chat 2 "c1"). reflexivity.
Defined.

(** ** C5: creating a chat whose identity is taken *)

Lemma create_run (s : Store) (u : nat) (id name model : option string) (now : nat) :
  js_not id || js_not name || js_not model = false ->
  Node.create u id name model now s =
  match Node.insert_chat (str id) u (str name) (str model) now s with
  | inl _ => Node.mkServed [] s internal_error
  | inr (s', _) =>
      Node.mkServed [s] s' (Node.json 201 (Node.JsonMessage "Chat created successfully"))
  end.
Proof.
  intro Hv. unfold Node.create, Node.serve, bind, execute. rewrite Hv.
  destruct (Node.insert_chat (str id) u (str name) (str model) now s) as [e | [s' n]];
    reflexivity.
Qed.

Lemma insert_chat_taken (s : Store) (u : nat) (id name model : string) (now : nat) :
  chat_exists id s = true ->
  exists e, Node.insert_chat id u name model now s = inl e.
Proof.
  intro H. unfold Node.insert_chat. rewrite H.
  destruct (negb (fits 100 id && fits 255 name && fits 100 model)); eexists; reflexivity.
Qed.

(** C5 (fails as stated). In the Express backend the INSERT of a taken
    identity throws and the handler answers 500, the generic internal error,
    not a conflict; in the PDO backend [saveChat] on a taken identity
    succeeds and overwrites the name and [updated_at] of the chat. *)
Lemma C5_counterexample_collision :
  chat_exists "c1" Scenario.with_chat = true /\
  Node.create 2 (Some "c1") (Some "Mine") (Some "llama2") 6 Scenario.with_chat
  = Node.mkServed [] Scenario.with_chat internal_error /\
  Node.status internal_error <> 409 /\
  Php.reply (Php.saveChat members 1 (Php.mkChatData "c1" "Renamed" "mistral" 7 8 [])
               Scenario.with_chat) = Php.php_success /\
  chats (Php.after (Php.saveChat members 1 (Php.mkChatData "c1" "Renamed" "mistral" 7 8 [])
                      Scenario.with_chat)) = [mkChat "c1" 1 "Renamed" "llama2" 5 8].
Proof. repeat split. discriminate. Qed.

(** C5 (amended). Creating a chat whose identity already exists, whoever
    owns it, never succeeds in the Express backend and leaves the store
    unchanged: a complete request is answered 500 "Internal server error",
    an incomplete one 400. In the PDO backend [saveChat] on an existing
    identity is an update: it never changes the identity, owner, model or
    creation time of any chat, and when the owner calls it with values that
    fit the columns, the chat takes the new name and [updated_at]. *)
Theorem C5_create_collision (sender_column : SenderColumn)
    (s : Store) (u : nat) (id name model : option string)
    (now : nat) :
  chat_exists (str id) s = true ->
  Node.after (Node.create u id name model now s) = s /\
  Node.before (Node.create u id name model now s) = [] /\
  (js_not id || js_not name || js_not model = false ->
   Node.response (Node.create u id name model now s) = internal_error) /\
  (js_not id || js_not name || js_not model = true ->
   Node.response (Node.create u id name model now s) =
   Node.json 400 (Node.JsonError "Chat ID, name, and model are required")) /\
  forall d : Php.ChatData,
    Php.data_id d = str id ->
    map (fun ch => (chat_id ch, chat_user_id ch, chat_model ch, created_at ch))
      (chats (Php.after (Php.saveChat sender_column u d s)))
    = map (fun ch => (chat_id ch, chat_user_id ch, chat_model ch, created_at ch))
        (chats s) /\
    (owns u (str id) s = true ->
     fits 50 (Php.data_id d) && fits 255 (Php.data_name d) && fits 100 (Php.data_model d)
     = true ->
     forall ch, In ch (chats (Php.after (Php.saveChat sender_column u d s))) ->
                chat_id ch = str id ->
                chat_name ch = Php.data_name d /\ updated_at ch = Php.data_updatedAt d).
Proof.
  intro Hex.
  assert (Hnode :
    Node.after (Node.create u id name model now s) = s /\
    Node.before (Node.create u id name model now s) = [] /\
    (js_not id || js_not name || js_not model = false ->
     Node.response (Node.create u id name model now s) = internal_error) /\
    (js_not id || js_not name || js_not model = true ->
     Node.response (Node.create u id name model now s) =
     Node.json 400 (Node.JsonError "Chat ID, name, and model are required"))).
  { destruct (js_not id || js_not name || js_not model) eqn:Hv.
    - unfold Node.create, Node.serve. rewrite Hv. simpl.
      repeat split; intros; try reflexivity; discriminate.
    - rewrite (create_run s u id name model now Hv).
      destruct (insert_chat_taken s u (str id) (str name) (str model) now Hex) as [e ->].
      repeat split; intros; try reflexivity; discriminate. }
  destruct Hnode as [H1 [H2 [H3 H4]]].
  split; [exact H1|]. split; [exact H2|]. split; [exact H3|]. split; [exact H4|].
  intros d Hd. rewrite saveChat_chats. unfold Php.upsert_chat.
  rewrite Hd, Hex.
  destruct (fits 50 (str id) && fits 255 (Php.data_name d) && fits 100 (Php.data_model d))
    eqn:Hfit; cbn [negb].
  - split.
    + simpl. rewrite map_map. apply map_ext. intro ch.
      destruct (chat_id ch =? str id); reflexivity.
    + intros _ _ ch Hin Hid. simpl in Hin. apply in_map_iff in Hin.
      destruct Hin as [ch0 [<- Hin0]].
      destruct (chat_id ch0 =? str id) eqn:E; [split; reflexivity|].
      apply String.eqb_neq in E. contradiction.
  - split; [reflexivity|]. intros _ Hf. congruence.
Qed.

Lemma C5_create_collision_witness :
  chat_exists "c1" Scenario.with_chat = true /\
  Node.after (Node.create 2 (Some "c1") (Some "Mine") (Some "llama2") 6 Scenario.with_chat)
  = Scenario.with_chat.
Proof.
  split; [reflexivity|].
  apply (C5_create_collision members Scenario.with_chat 2 (Some "c1") (Some "Mine")
           (Some "llama2") 6).
  reflexivity.
Defined.

(** ** C7: validation at registration *)

Lemma ltrim_length (x : string) : String.length (Php.ltrim x) <= String.length x.
Proof.
  induction x as [|a x IH]; simpl; [lia|].
  destruct (Php.is_trim_char a); simpl; lia.
Qed.

Lemma rtrim_length (x : string) : String.length (Php.rtrim x) <= String.length x.
Proof.
  induction x as [|a x IH]; simpl; [lia|].
  destruct (Php.rtrim x) as [|b r]; simpl in *.
  - destruct (Php.is_trim_char a); simpl; lia.
  - lia.
Qed.

Lemma trim_length (x : string) : String.length (Php.trim x) <= String.length x.
Proof.
  unfold Php.trim. pose proof (rtrim_length (Php.ltrim x)). pose proof (ltrim_length x). lia.
Qed.

Lemma js_not_length (x : option string) :
  js_not x = true <-> String.length (str x) = 0.
Proof.
  destruct x as [[|a x]|]; simpl; split; intro H; try reflexivity; discriminate.
Qed.

Section Register.
Variable hash : string -> string.
Variable filter_validate_email : string -> bool.
Variables (s : Store) (username email password : option string) (now : nat).

Lemma node_register_refused :
  node_register_refuses username email password = true ->
  exists msg,
    Node.register hash username email password now s =
    Node.mkServed [] s (Node.json 400 (Node.JsonError msg)).
Proof.
  unfold node_register_refuses, Node.register, Node.serve. intro H.
  destruct (js_not username || js_not email || js_not password).
  - eexists. reflexivity.
  - simpl in H. rewrite H. eexists. reflexivity.
Qed.

Lemma node_register_passed :
  node_register_refuses username email password = false ->
  Node.status (Node.response (Node.register hash username email password now s)) <> 400.
Proof.
  unfold node_register_refuses, Node.register, Node.serve, bind, query, execute. intro H.
  apply orb_false_iff in H. destruct H as [H1 H2]. rewrite H1, H2. simpl.
  destruct (0 <? length (select_users (str username) (str email) s))%nat; simpl.
  - discriminate.
  - destruct (insert_user (str username) (str email) (hash (str password)) now s)
      as [e | [s' id]]; simpl; discriminate.
Qed.

Lemma php_register_refused :
  String.length (str username) < 3 \/
  String.length (str email) = 0 \/
  filter_validate_email (Php.trim (str email)) = false \/
  String.length (str password) < 6 ->
  exists msg,
    In msg validation_errors /\
    Php.register hash filter_validate_email username email password now s =
    Php.mkOutcome [] s (Php.php_error msg).
Proof.
  intro H. unfold Php.register, Php.run, validation_errors.
  destruct (Php.empty (Php.trim (str username)) || Php.empty (Php.trim (str email))
            || Php.empty (str password)) eqn:E1.
  { eexists. split; [|reflexivity]. simpl. tauto. }
  destruct (Php.strlen (Php.trim (str username)) <? 3)%nat eqn:E2.
  { eexists. split; [|reflexivity]. simpl. tauto. }
  destruct (filter_validate_email (Php.trim (str email))) eqn:E3; cbn [negb].
  2:{ eexists. split; [|reflexivity]. simpl. tauto. }
  destruct (Php.strlen (str password) <? 6)%nat eqn:E4.
  { eexists. split; [|reflexivity]. simpl. tauto. }
  exfalso.
  apply orb_false_iff in E1. destruct E1 as [E1 _].
  apply orb_false_iff in E1. destruct E1 as [_ E1].
  apply Nat.ltb_ge in E2. apply Nat.ltb_ge in E4. unfold Php.strlen in *.
  pose proof (trim_length (str username)) as Hu.
  pose proof (trim_length (str email)) as He.
  destruct H as [H | [H | [H | H]]]; try lia; try congruence.
  assert (Hz : Php.trim (str email) = "").
  { destruct (Php.trim (str email)); [reflexivity | simpl in He; lia]. }
  rewrite Hz in E1. discriminate.
Qed.
End Register.

(** C7 (fails as stated). The Express registration checks neither the
    length of the username nor the shape of the email: a two-letter
    username with an email that is no address is registered. *)
Lemma C7_counterexample_node_accepts :
  Node.register (fun _ => "hash") (Some "ab") (Some "nobody") (Some "secret") 1
    (mkStore [] [] [] 1 1)
  = Node.mkServed [mkStore [] [] [] 1 1]
      (mkStore [mkUser 1 "ab" "nobody" "hash" "light" 1 1] [] [] 2 1)
      (Node.json 201 (Node.JsonUser "User created successfully"
         (Node.mkUserView 1 "ab" "nobody" "light"))).
Proof. reflexivity. Qed.

(** C7 (amended). The PDO registration refuses, with one of its four
    validation messages and without touching the store, every request in
    which a field is empty, the username has fewer than 3 characters, the
    email (trimmed) fails [FILTER_VALIDATE_EMAIL], or the password has fewer
    than 6 characters. The Express registration answers 400, without
    touching the store, exactly when a field is missing or empty or the
    password has fewer than 6 characters. *)
Theorem C7_register_validation (hash : string -> string)
    (filter_validate_email : string -> bool)
    (s : Store) (username email password : option string) (now : nat) :
  (String.length (str username) = 0 \/ String.length (str email) = 0 \/
   String.length (str password) = 0 \/
   String.length (str username) < 3 \/
   filter_validate_email (Php.trim (str email)) = false \/
   String.length (str password) < 6 ->
   exists msg,
     In msg validation_errors /\
     Php.register hash filter_validate_email username email password now s =
     Php.mkOutcome [] s (Php.php_error msg)) /\
  (js_not username = true \/ js_not email = true \/ js_not password = true \/
   String.length (str password) < 6 ->
   exists msg,
     Node.register hash username email password now s =
     Node.mkServed [] s (Node.json 400 (Node.JsonError msg))) /\
  (Node.status (Node.response (Node.register hash username email password now s)) = 400 ->
   js_not username = true \/ js_not email = true \/ js_not password = true \/
   String.length (str password) < 6).
Proof.
  split; [|split].
  - intro H. apply php_register_refused.
    destruct H as [H | [H | [H | [H | [H | H]]]]].
    + left. lia.
    + right. left. exact H.
    + right. right. right. lia.
    + left. exact H.
    + right. right. left. exact H.
    + right. right. right. exact H.
  - intro H. apply node_register_refused. unfold node_register_refuses.
    destruct H as [-> | [-> | [-> | H]]]; rewrite ?orb_true_r; try reflexivity.
    apply Nat.ltb_lt in H. rewrite H. apply orb_true_r.
  - intro H.
    destruct (node_register_refuses username email password) eqn:E.
    + unfold node_register_refuses in E.
      rewrite !orb_true_iff, Nat.ltb_lt in E. tauto.
    + exfalso. exact (node_register_passed hash s username email password now E H).
Qed.

Lemma C7_register_validation_witness :
  exists msg,
    In msg validation_errors /\
    Php.register (fun _ => "hash") (fun _ => true) (Some "ab") (Some "ab@example.com")
      (Some "secret") 1 (mkStore [] [] [] 1 1)
    = Php.mkOutcome [] (mkStore [] [] [] 1 1) (Php.php_error msg).
Proof.
  apply (C7_register_validation (fun _ => "hash") (fun _ => true) (mkStore [] [] [] 1 1)
           (Some "ab") (Some "ab@example.com") (Some "secret") 1).
  right. right. right. left. simpl. lia.
Defined.

(** ** C8: validation of an appended message *)

(** C8 (fails as stated). The handler checks that a sender was sent, not
    that it is one of the two roles: "bot" passes the check and goes to the
    INSERT. On a column that takes the two members only the row is refused
    and the answer is 500, with nothing stored; on no column is the answer
    400. *)
Lemma C8_counterexample_unknown_sender :
  members "bot" = None /\
  Node.append members 1 "c1" (Some "bot") (Some "Hello") None None 10 11 Scenario.with_chat
  = Node.mkServed [] Scenario.with_chat internal_error /\
  Node.status internal_error <> 400 /\
  forall sender_column : SenderColumn,
    Node.status (Node.response
      (Node.append sender_column 1 "c1" (Some "bot") (Some "Hello") None None 10 11
         Scenario.with_chat)) <> 400.
Proof.
  split; [reflexivity|]. split; [reflexivity|]. split; [discriminate|].
  intro sender_column.
  unfold Node.append, Node.serve, bind, query, execute, insert_message. simpl.
  destruct (sender_column "bot"); simpl; discriminate.
Qed.

(** C8 (amended). An append is answered 400 exactly when its sender or its
    content is missing or empty, whoever owns the chat; so no sender that
    was sent, member of the two roles or not, is answered 400. Otherwise,
    when the user does not own the chat, the answer is 404; otherwise the
    sender goes unchecked to the INSERT, and when the column refuses it the
    answer is 500. In the three cases no statement commits: no message is
    inserted and no chat timestamp moves. *)
Theorem C8_append_validation (sender_column : SenderColumn) (s : Store) (u : nat)
    (c : string) (sender content model info : option string)
    (t_insert t_update : nat) :
  (js_not sender = true \/ js_not content = true ->
   Node.append sender_column u c sender content model info t_insert t_update s =
   Node.mkServed [] s
     (Node.json 400 (Node.JsonError "Sender and content are required"))) /\
  (js_not sender = false -> js_not content = false ->
   Node.status (Node.response
     (Node.append sender_column u c sender content model info t_insert t_update s))
   <> 400) /\
  (js_not sender = false -> js_not content = false -> owns u c s = false ->
   Node.append sender_column u c sender content model info t_insert t_update s =
   Node.mkServed [] s not_found) /\
  (js_not sender = false -> js_not content = false -> owns u c s = true ->
   sender_column (str sender) = None ->
   Node.append sender_column u c sender content model info t_insert t_update s =
   Node.mkServed [] s internal_error).
Proof.
  split; [|split; [|split]].
  - intro H. apply append_invalid. apply orb_true_iff. exact H.
  - intros H1 H2.
    assert (Hv : js_not sender || js_not content = false) by (rewrite H1, H2; reflexivity).
    destruct (owns u c s) eqn:Ho.
    2:{ rewrite append_not_owned by assumption. discriminate. }
    destruct (insert_message sender_column c (str sender) (str content) (or_null model)
                (or_null info) t_insert s) as [e | [s1 id]] eqn:Hi.
    + rewrite (append_refused sender_column s u c _ _ _ _ t_insert t_update e)
        by assumption.
      discriminate.
    + rewrite (append_committed sender_column s u c _ _ _ _ t_insert t_update s1 id)
        by assumption.
      discriminate.
  - intros H1 H2 Ho. apply append_not_owned; [|exact Ho]. rewrite H1, H2. reflexivity.
  - intros H1 H2 Ho He. apply append_refused with (e := ER_TRUNCATED_ENUM).
    + rewrite H1, H2. reflexivity.
    + exact Ho.
    + unfold insert_message. rewrite He. reflexivity.
Qed.

Lemma C8_append_validation_witness :
  Node.append members 1 "c1" (Some "user") (Some "") None None 10 11 Scenario.with_chat
  = Node.mkServed [] Scenario.with_chat
      (Node.json 400 (Node.JsonError "Sender and content are required")).
Proof.
  apply (C8_append_validation members Scenario.with_chat 1 "c1" (Some "user") (Some "")
           None None 10 11).
  right. reflexivity.
Defined.

(** ** C9: the theme preference *)

Lemma theme_valid_cases (theme : option string) :
  js_not theme || negb (includes ["light"; "dark"] (str theme)) = false <->
  theme = Some "light" \/ theme = Some "dark".
Proof.
  split.
  - intro H. apply orb_false_iff in H. destruct H as [Hn Hi].
    apply negb_false_iff in Hi. unfold includes in Hi. simpl in Hi.
    destruct theme as [x|]; [|discriminate]. simpl in Hi.
    rewrite orb_false_r in Hi. apply orb_true_iff in Hi.
    destruct Hi as [Hi | Hi]; apply String.eqb_eq in Hi; subst; [left | right]; reflexivity.
  - intros [-> | ->]; reflexivity.
Qed.

Lemma update_theme_twice (accepts : string -> bool) (refusal : DbError)
    (theme : string) (u t1 t2 : nat) (s s1 : Store) (n : nat) :
  update_theme_column accepts refusal theme u t1 s = inr (s1, n) ->
  update_theme_column accepts refusal theme u t2 s1 = inr (s1, n).
Proof.
  unfold update_theme_column.
  destruct (existsb (fun u0 => (user_id u0 =? u)%nat) (users s) && negb (accepts theme))
    eqn:E; [discriminate|].
  intro H. injection H as <- <-. simpl.
  assert (Hsame : forall l : list User,
    map (fun u0 => if (user_id u0 =? u)%nat && negb (theme_preference u0 =? theme)
                   then set_theme u0 theme t2 else u0)
      (map (fun u0 => if (user_id u0 =? u)%nat && negb (theme_preference u0 =? theme)
                      then set_theme u0 theme t1 else u0) l)
    = map (fun u0 => if (user_id u0 =? u)%nat && negb (theme_preference u0 =? theme)
                     then set_theme u0 theme t1 else u0) l).
  { intro l. rewrite map_map. apply map_ext. intro u0.
    destruct ((user_id u0 =? u)%nat && negb (theme_preference u0 =? theme)) eqn:F.
    - simpl. rewrite String.eqb_refl, andb_false_r. reflexivity.
    - rewrite F. reflexivity. }
  assert (Hhit : forall l : list User,
    map (fun u0 => (user_id u0 =? u)%nat)
      (map (fun u0 => if (user_id u0 =? u)%nat && negb (theme_preference u0 =? theme)
                      then set_theme u0 theme t1 else u0) l)
    = map (fun u0 => (user_id u0 =? u)%nat) l).
  { intro l. rewrite map_map. apply map_ext. intro u0.
    destruct ((user_id u0 =? u)%nat && negb (theme_preference u0 =? theme)); reflexivity. }
  assert (Hex : forall (l l' : list User),
    map (fun u0 => (user_id u0 =? u)%nat) l = map (fun u0 => (user_id u0 =? u)%nat) l' ->
    existsb (fun u0 => (user_id u0 =? u)%nat) l = existsb (fun u0 => (user_id u0 =? u)%nat) l'
    /\ count (fun u0 => (user_id u0 =? u)%nat) l = count (fun u0 => (user_id u0 =? u)%nat) l').
  { induction l as [|a l IH]; intros [|b l'] Hm; simpl in Hm; try discriminate.
    - split; reflexivity.
    - injection Hm as Hab Hm. destruct (IH l' Hm) as [I1 I2].
      unfold count in *. simpl. rewrite Hab, I1.
      destruct (user_id b =? u)%nat; simpl; rewrite ?I2; split; reflexivity. }
  destruct (Hex _ _ (Hhit (users s))) as [X1 X2].
  rewrite X1, E, Hsame, X2. reflexivity.
Qed.

Lemma update_theme_column_users (accepts : string -> bool) (refusal : DbError)
    (theme : string) (u now : nat) (s s1 : Store) (n : nat) :
  update_theme_column accepts refusal theme u now s = inr (s1, n) ->
  (forall usr, In usr (users s1) -> user_id usr = u -> theme_preference usr = theme) /\
  (forall usr, In usr (users s1) ->
               In usr (users s) \/ theme_preference usr = theme) /\
  (existsb (fun u0 => (user_id u0 =? u)%nat) (users s) = true -> accepts theme = true).
Proof.
  unfold update_theme_column.
  destruct (existsb (fun u0 => (user_id u0 =? u)%nat) (users s)) eqn:Hex;
    destruct (accepts theme) eqn:Hacc; simpl; try discriminate;
    intro H; injection H as <- <-; simpl.
  all: split; [|split; [|congruence]].
  all: intros usr Hin; apply in_map_iff in Hin; destruct Hin as [u0 [<- Hin0]].
  all: destruct (user_id u0 =? u)%nat eqn:Hu; simpl;
       destruct (theme_preference u0 =? theme) eqn:Ht; simpl;
       try (apply String.eqb_eq in Ht); try (apply Nat.eqb_neq in Hu);
       try tauto; try congruence.
Qed.

Section NodeTheme.
Variables (s : Store) (u : nat) (theme : option string) (now : nat).

Lemma node_updateTheme_invalid :
  theme <> Some "light" -> theme <> Some "dark" ->
  Node.updateTheme u theme now s =
  Node.mkServed [] s
    (Node.json 400 (Node.JsonError "Valid theme (light/dark) is required")).
Proof.
  intros H1 H2. unfold Node.updateTheme, Node.serve.
  destruct (js_not theme || negb (includes ["light"; "dark"] (str theme))) eqn:E;
    [reflexivity|].
  apply theme_valid_cases in E. tauto.
Qed.

Lemma node_updateTheme_valid :
  theme = Some "light" \/ theme = Some "dark" ->
  exists s1 n,
    Node.update_theme_preference (str theme) u now s = inr (s1, n) /\
    Node.updateTheme u theme now s =
    Node.mkServed [s] s1
      (Node.json 200 (Node.JsonTheme "Theme preference updated" (str theme))).
Proof.
  intro H. unfold Node.updateTheme, Node.serve, bind, execute.
  rewrite (proj2 (theme_valid_cases theme) H).
  unfold Node.update_theme_preference, update_theme_column.
  assert (He : theme_enum (str theme) = true) by (destruct H as [-> | ->]; reflexivity).
  rewrite He, andb_false_r. simpl. eexists. eexists. split; reflexivity.
Qed.

Lemma node_updateTheme_keeps_enumerated :
  themes_enumerated s -> themes_enumerated (Node.after (Node.updateTheme u theme now s)).
Proof.
  intro Hinv.
  destruct (js_not theme || negb (includes ["light"; "dark"] (str theme))) eqn:E.
  - unfold Node.updateTheme, Node.serve. rewrite E. exact Hinv.
  - apply theme_valid_cases in E.
    destruct (node_updateTheme_valid E) as [s1 [n [Hup ->]]]. simpl.
    destruct (update_theme_column_users _ _ _ _ _ _ _ _ Hup) as [_ [Hor _]].
    intros usr Hin. destruct (Hor usr Hin) as [Hold | ->].
    + apply Hinv, Hold.
    + destruct E as [-> | ->]; reflexivity.
Qed.
End NodeTheme.

Lemma node_register_keeps_enumerated (hash : string -> string) (s : Store)
    (username email password : option string) (now : nat) :
  themes_enumerated s ->
  themes_enumerated (Node.after (Node.register hash username email password now s)).
Proof.
  intro Hinv. unfold Node.register, Node.serve, bind, query, execute.
  destruct (js_not username || js_not email || js_not password); [exact Hinv|].
  destruct (String.length (str password) <? 6)%nat; [exact Hinv|]. simpl.
  destruct (0 <? length (select_users (str username) (str email) s))%nat; [exact Hinv|].
  unfold insert_user.
  destruct (negb (fits 50 (str username) && fits 100 (str email)
                  && fits 255 (hash (str password)))); [exact Hinv|].
  destruct (negb (is_nil (select_users (str username) (str email) s))); [exact Hinv|].
  simpl. intros usr Hin. apply in_app_or in Hin. destruct Hin as [Hin | [<- | []]].
  - apply Hinv, Hin.
  - reflexivity.
Qed.

(** C9 (fails as stated). The PDO backend's [updateTheme] checks nothing and
    its column is a VARCHAR(10): "purple" is stored. *)
Lemma C9_counterexample_php_purple :
  theme_enum "purple" = false /\
  Php.reply (Php.updateTheme 1 "purple" 9 Scenario.registered) = Php.php_success /\
  users (Php.after (Php.updateTheme 1 "purple" 9 Scenario.registered))
  = [mkUser 1 "demo" "demo@example.com" "hash" "purple" 0 9; Scenario.guest].
Proof. repeat split. Qed.

(** C9 (amended). In the Express backend a theme other than "light" and
    "dark" is answered 400 and the store is unchanged; one of the two is
    answered 200 whether or not the user exists, every row of that user then
    carries it, and a second identical update changes nothing; the handler,
    like the registration, keeps every stored preference among the two
    values. The PDO backend's [updateTheme] validates nothing: every theme
    of at most 10 characters is stored and reported as a success. *)
Theorem C9_theme_update (s : Store) (u : nat) (theme : option string) (now later : nat) :
  (theme <> Some "light" -> theme <> Some "dark" ->
   Node.updateTheme u theme now s =
   Node.mkServed [] s
     (Node.json 400 (Node.JsonError "Valid theme (light/dark) is required"))) /\
  (theme = Some "light" \/ theme = Some "dark" ->
   Node.response (Node.updateTheme u theme now s) =
   Node.json 200 (Node.JsonTheme "Theme preference updated" (str theme)) /\
   (forall usr, In usr (users (Node.after (Node.updateTheme u theme now s))) ->
                user_id usr = u -> theme_preference usr = str theme) /\
   Node.after (Node.updateTheme u theme later (Node.after (Node.updateTheme u theme now s)))
   = Node.after (Node.updateTheme u theme now s)) /\
  (themes_enumerated s ->
   themes_enumerated (Node.after (Node.updateTheme u theme now s)) /\
   forall hash username email password,
     themes_enumerated (Node.after (Node.register hash username email password now s))) /\
  (forall th,
      fits 10 th = true ->
      Php.reply (Php.updateTheme u th now s) = Php.php_success /\
      forall usr, In usr (users (Php.after (Php.updateTheme u th now s))) ->
                  user_id usr = u -> theme_preference usr = th).
Proof.
  split; [|split; [|split]].
  - apply node_updateTheme_invalid.
  - intro H.
    destruct (node_updateTheme_valid s u theme now H) as [s1 [n [Hup Hrun]]].
    rewrite Hrun. cbn [Node.response Node.after].
    split; [reflexivity|]. split.
    + apply (update_theme_column_users _ _ _ _ _ _ _ _ Hup).
    + destruct (node_updateTheme_valid s1 u theme later H) as [s2 [n2 [Hup2 Hrun2]]].
      rewrite Hrun2. cbn [Node.after].
      unfold Node.update_theme_preference in *.
      rewrite (update_theme_twice _ _ _ _ now later _ _ _ Hup) in Hup2.
      congruence.
  - intro Hinv. split.
    + apply node_updateTheme_keeps_enumerated, Hinv.
    + intros. apply node_register_keeps_enumerated, Hinv.
  - intros th Hfit. unfold Php.updateTheme, Php.run, bind, execute.
    destruct (Php.update_theme th u now s) as [e | [s1 n]] eqn:Hup.
    + exfalso. unfold Php.update_theme, update_theme_column in Hup.
      rewrite Hfit, andb_false_r in Hup. discriminate.
    + simpl. split; [reflexivity|].
      apply (update_theme_column_users _ _ _ _ _ _ _ _ Hup).
Qed.

Lemma C9_theme_update_witness :
  Node.updateTheme 1 (Some "purple") 9 Scenario.registered
  = Node.mkServed [] Scenario.registered
      (Node.json 400 (Node.JsonError "Valid theme (light/dark) is required")).
Proof.
  apply (C9_theme_update Scenario.registered 1 (Some "purple") 9 9); discriminate.
Defined.

(** ** C10: renaming a chat to the name it has *)

Lemma rename_run (found_rows : bool) (s : Store) (u : nat) (c : string)
    (name : option string) (now : nat) :
  js_not name = false ->
  Node.rename found_rows u c name now s =
  match Node.update_chat_name found_rows (str name) c u now s with
  | inl _ => Node.mkServed [] s internal_error
  | inr (s', affectedRows) =>
      Node.mkServed [s] s'
        (if (affectedRows =? 0)%nat then not_found
         else Node.json 200 (Node.JsonMessage "Chat updated successfully"))
  end.
Proof.
  intro Hn. unfold Node.rename, Node.serve, bind, execute. rewrite Hn.
  destruct (Node.update_chat_name found_rows (str name) c u now s) as [e | [s' n]];
    [reflexivity|].
  simpl. destruct (n =? 0)%nat; reflexivity.
Qed.

Lemma update_chat_name_same (found_rows : bool) (s : Store) (u : nat) (c name : string)
    (now : nat) :
  owns u c s = true ->
  (forall ch, In ch (chats s) -> owned_by c u ch = true -> chat_name ch = name) ->
  fits 255 name = true ->
  exists matched,
    matched <> 0 /\
    Node.update_chat_name found_rows name c u now s =
    inr (s, if found_rows then matched else 0).
Proof.
  intros Ho Hsame Hfit. unfold Node.update_chat_name. rewrite Hfit, andb_false_r.
  assert (Hnone : forall ch, In ch (chats s) ->
                    owned_by c u ch && negb (chat_name ch =? name) = false).
  { intros ch Hin. destruct (owned_by c u ch) eqn:E; [|reflexivity].
    rewrite (Hsame ch Hin E), String.eqb_refl. reflexivity. }
  exists (count (owned_by c u) (chats s)). split.
  - unfold owns, select_chat in Ho. unfold count.
    destruct (filter (owned_by c u) (chats s)); [discriminate | simpl; lia].
  - rewrite map_keeps_all.
    + unfold count at 2. rewrite (none_filter_nil _ _ Hnone).
      unfold set_chats. rewrite store_eta. reflexivity.
    + intros ch Hin. rewrite (Hnone ch Hin). reflexivity.
Qed.

(** C10 (fails as stated). The pool is created from [dbConfig], which sets
    no connection flags, so its connections carry mysql2's default flags,
    FOUND_ROWS among them: the UPDATE that matches the chat and changes
    nothing reports one affected row, and the rename to the current name is
    answered 200. *)
Lemma C10_counterexample_same_name_is_200 :
  Node.rename Node.default_found_rows 1 "c1" (Some "Test") 20 Scenario.with_chat
  = Node.mkServed [Scenario.with_chat] Scenario.with_chat
      (Node.json 200 (Node.JsonMessage "Chat updated successfully")).
Proof. reflexivity. Qed.

(** C10 (amended). The rename handler answers 404 exactly when the driver
    reports no affected row. Renaming an owned chat to the name it already
    has matches its row and changes nothing, store included: on a connection
    with CLIENT_FOUND_ROWS (the driver's default, which the pool keeps) the
    matched row is counted and the answer is 200; only on a connection
    without that flag is the count 0 and the answer 404. *)
Theorem C10_rename_same_name (found_rows : bool) (s : Store) (u : nat) (c name : string)
    (now : nat) :
  owns u c s = true ->
  (forall ch, In ch (chats s) -> owned_by c u ch = true -> chat_name ch = name) ->
  name <> "" ->
  fits 255 name = true ->
  Node.after (Node.rename found_rows u c (Some name) now s) = s /\
  Node.response (Node.rename found_rows u c (Some name) now s) =
  (if found_rows then Node.json 200 (Node.JsonMessage "Chat updated successfully")
   else not_found).
Proof.
  intros Ho Hsame Hne Hfit.
  assert (Hn : js_not (Some name) = false) by (destruct name; [contradiction | reflexivity]).
  rewrite (rename_run found_rows s u c (Some name) now Hn). simpl str.
  destruct (update_chat_name_same found_rows s u c name now Ho Hsame Hfit)
    as [matched [Hpos ->]].
  destruct found_rows; simpl.
  - apply Nat.eqb_neq in Hpos. rewrite Hpos. split; reflexivity.
  - split; reflexivity.
Qed.

Lemma C10_rename_same_name_witness :
  Node.after (Node.rename false 1 "c1" (Some "Test") 20 Scenario.with_chat)
  = Scenario.with_chat /\
  Node.response (Node.rename false 1 "c1" (Some "Test") 20 Scenario.with_chat)
  = not_found.
Proof.
  apply (C10_rename_same_name false Scenario.with_chat 1 "c1" "Test" 20).
  - reflexivity.
  - intros ch [<- | []] _. reflexivity.
  - discriminate.
  - reflexivity.
Defined.

(** * Further properties of the two backends *)

(** ** The bearer token *)

Lemma split_word (w : string) : one_word w = true -> Node.split " "%char w = [w].
Proof.
  induction w as [|a w IH]; simpl; intro H; [reflexivity|].
  apply andb_true_iff in H. destruct H as [Ha Hw].
  apply negb_true_iff in Ha. rewrite Ha, (IH Hw). reflexivity.
Qed.

Lemma split_first_word (w rest : string) :
  one_word w = true ->
  Node.split " "%char (w ++ String " "%char rest) = w :: Node.split " "%char rest.
Proof.
  induction w as [|a w IH]; simpl; intro H; [reflexivity|].
  apply andb_true_iff in H. destruct H as [Ha Hw].
  apply negb_true_iff in Ha. rewrite Ha, (IH Hw). reflexivity.
Qed.

Lemma bearer_token_after_word (w rest : string) :
  one_word w = true ->
  Node.bearer_token (Some (w ++ String " "%char rest))
  = nth_error (Node.split " "%char rest) 0.
Proof.
  intro H. unfold Node.bearer_token.
  rewrite (split_first_word w rest H).
  destruct w; reflexivity.
Qed.



(** ** Registration and login *)

Lemma select_users_nil (name mail : string) (s : Store) :
  select_users name mail s = [] <->
  forall usr, In usr (users s) -> username usr <> name /\ email usr <> mail.
Proof.
  unfold select_users. split.
  - intros H usr Hin. pose proof (filter_nil_none _ _ H usr Hin) as Hf.
    apply orb_false_iff in Hf. destruct Hf as [H1 H2].
    apply String.eqb_neq in H1. apply String.eqb_neq in H2. tauto.
  - intro H. apply none_filter_nil. intros usr Hin.
    destruct (H usr Hin) as [H1 H2].
    apply String.eqb_neq in H1. apply String.eqb_neq in H2. rewrite H1, H2. reflexivity.
Qed.

Lemma insert_user_inr (name mail hash : string) (now : nat) (s s1 : Store) (id : nat) :
  insert_user name mail hash now s = inr (s1, id) ->
  select_users name mail s = [] /\
  id = next_user_id s /\
  s1 = set_users s (users s ++ [mkUser (next_user_id s) name mail hash "light" now now])
         (S (next_user_id s)).
Proof.
  unfold insert_user.
  destruct (negb (fits 50 name && fits 100 mail && fits 255 hash)); [discriminate|].
  destruct (select_users name mail s) eqn:E; simpl; [|discriminate].
  intro H. injection H as <- <-. repeat split.
Qed.

Lemma insert_user_keeps_unique (name mail hash : string) (now : nat) (s s1 : Store)
    (id : nat) :
  insert_user name mail hash now s = inr (s1, id) ->
  users_unique s -> fresh_user_ids s ->
  users_unique s1 /\ fresh_user_ids s1.
Proof.
  intros Hi [Hn Hm] Hf. apply insert_user_inr in Hi. destruct Hi as [Hsel [_ ->]].
  rewrite select_users_nil in Hsel. unfold users_unique, fresh_user_ids. simpl.
  rewrite !map_app. simpl. repeat split.
  - apply NoDup_app; repeat split; try assumption.
    + constructor; [intros []|constructor].
    + intros x Hx [<- | []]. apply in_map_iff in Hx. destruct Hx as [usr [Hx Hin]].
      destruct (Hsel usr Hin) as [H _]. contradiction.
  - apply NoDup_app; repeat split; try assumption.
    + constructor; [intros []|constructor].
    + intros x Hx [<- | []]. apply in_map_iff in Hx. destruct Hx as [usr [Hx Hin]].
      destruct (Hsel usr Hin) as [_ H]. contradiction.
  - intros usr Hin. apply in_app_or in Hin. destruct Hin as [Hin | [<- | []]].
    + specialize (Hf usr Hin). lia.
    + simpl. lia.
Qed.

Section RegisterRuns.
Variable hash : string -> string.
Variable filter_validate_email : string -> bool.
Variables (s : Store) (username email password : option string) (now : nat).

Lemma node_register_run :
  node_register_refuses username email password = false ->
  Node.register hash username email password now s =
  if (0 <? length (select_users (str username) (str email) s))%nat
  then Node.mkServed [] s
         (Node.json 409 (Node.JsonError "Username or email already exists"))
  else match insert_user (str username) (str email) (hash (str password)) now s with
       | inl _ => Node.mkServed [] s internal_error
       | inr (s1, id) =>
           Node.mkServed [s] s1
             (Node.json 201 (Node.JsonUser "User created successfully"
                (Node.mkUserView id (str username) (str email) "light")))
       end.
Proof.
  unfold node_register_refuses, Node.register, Node.serve, bind, query, execute. intro H.
  apply orb_false_iff in H. destruct H as [H1 H2]. rewrite H1, H2. simpl.
  destruct (0 <? length (select_users (str username) (str email) s))%nat; [reflexivity|].
  destruct (insert_user (str username) (str email) (hash (str password)) now s)
    as [e | [s1 id]]; reflexivity.
Qed.

Lemma node_register_after :
  Node.after (Node.register hash username email password now s) = s \/
  exists s1 id,
    insert_user (str username) (str email) (hash (str password)) now s = inr (s1, id) /\
    Node.after (Node.register hash username email password now s) = s1.
Proof.
  destruct (node_register_refuses username email password) eqn:E.
  - destruct (node_register_refused hash s username email password now E) as [msg ->].
    left. reflexivity.
  - rewrite (node_register_run E).
    destruct (0 <? length (select_users (str username) (str email) s))%nat;
      [left; reflexivity|].
    destruct (insert_user (str username) (str email) (hash (str password)) now s)
      as [e | [s1 id]]; [left; reflexivity|].
    right. exists s1, id. split; reflexivity.
Qed.

Lemma php_register_cases :
  (exists msg,
     Php.register hash filter_validate_email username email password now s
     = Php.mkOutcome [] s (Php.php_error msg)) \/
  (select_users (Php.trim (str username)) (Php.trim (str email)) s = [] /\
   exists s1 id,
     insert_user (Php.trim (str username)) (Php.trim (str email))
       (hash (str password)) now s = inr (s1, id) /\
     Php.register hash filter_validate_email username email password now s
     = Php.mkOutcome [s] s1
         (Php.php_user id (Php.trim (str username)) (Php.trim (str email)) "light")).
Proof.
  unfold Php.register, Php.run.
  destruct (Php.empty (Php.trim (str username)) || Php.empty (Php.trim (str email))
            || Php.empty (str password)); [left; eexists; reflexivity|].
  destruct (Php.strlen (Php.trim (str username)) <? 3)%nat; [left; eexists; reflexivity|].
  destruct (filter_validate_email (Php.trim (str email))); cbn [negb];
    [|left; eexists; reflexivity].
  destruct (Php.strlen (str password) <? 6)%nat; [left; eexists; reflexivity|].
  unfold bind, query, Php.try_catch, execute. cbn [result final seen].
  destruct (select_users (Php.trim (str username)) (Php.trim (str email)) s) eqn:Hsel;
    cbn [is_nil negb result final seen ret app]; [|left; eexists; reflexivity].
  destruct (insert_user (Php.trim (str username)) (Php.trim (str email))
              (hash (str password)) now s) as [e | [s1 id]] eqn:Hi;
    cbn [result final seen ret app].
  - left. eexists. reflexivity.
  - right. split; [reflexivity|]. exists s1, id. split; reflexivity.
Qed.
End RegisterRuns.

(** X2. A registration whose username or whose email is already in the
    table creates nothing. The Express handler, for a request that passes
    its validation, answers 409 whichever of the two collides; the PDO
    controller, which compares the trimmed values, returns an error. *)
Theorem X2_register_taken (hash : string -> string)
    (filter_validate_email : string -> bool) (s : Store)
    (name mail password : option string) (now : nat) (usr : User) :
  In usr (users s) ->
  (username usr = str name \/ email usr = str mail ->
   node_register_refuses name mail password = false ->
   Node.register hash name mail password now s
   = Node.mkServed [] s
       (Node.json 409 (Node.JsonError "Username or email already exists"))) /\
  (username usr = Php.trim (str name) \/ email usr = Php.trim (str mail) ->
   exists msg,
     Php.register hash filter_validate_email name mail password now s
     = Php.mkOutcome [] s (Php.php_error msg)).
Proof.
  intro Hin. split.
  - intros Hsame Hv. rewrite (node_register_run hash s name mail password now Hv).
    destruct (select_users (str name) (str mail) s) eqn:E; [|reflexivity].
    rewrite select_users_nil in E. destruct (E usr Hin). tauto.
  - intro Hsame.
    destruct (php_register_cases hash filter_validate_email s name mail password now)
      as [H | [Hsel _]]; [exact H|].
    rewrite select_users_nil in Hsel. destruct (Hsel usr Hin). tauto.
Qed.

Lemma X2_register_taken_witness :
  Node.register (fun _ => "hash") (Some "demo") (Some "new@example.com")
    (Some "secret") 9 Scenario.registered
  = Node.mkServed [] Scenario.registered
      (Node.json 409 (Node.JsonError "Username or email already exists")).
Proof.
  apply (X2_register_taken (fun _ => "hash") (fun _ => true) Scenario.registered
           (Some "demo") (Some "new@example.com") (Some "secret") 9 Scenario.demo).
  - left. reflexivity.
  - left. reflexivity.
  - reflexivity.
Defined.

(** X3. Registration keeps the constraints of the users table in both
    backends: after it, no two users share a username, no two share an
    email, and every identity lies below the counter. *)
Theorem X3_register_keeps_users_unique (hash : string -> string)
    (filter_validate_email : string -> bool) (s : Store)
    (username email password : option string) (now : nat) :
  users_unique s -> fresh_user_ids s ->
  (users_unique (Node.after (Node.register hash username email password now s)) /\
   fresh_user_ids (Node.after (Node.register hash username email password now s))) /\
  (users_unique
     (Php.after (Php.register hash filter_validate_email username email password now s)) /\
   fresh_user_ids
     (Php.after (Php.register hash filter_validate_email username email password now s))).
Proof.
  intros Hu Hf. split.
  - destruct (node_register_after hash s username email password now)
      as [-> | [s1 [id [Hi ->]]]]; [split; assumption|].
    exact (insert_user_keeps_unique _ _ _ _ _ _ _ Hi Hu Hf).
  - destruct (php_register_cases hash filter_validate_email s username email password now)
      as [[msg ->] | [_ [s1 [id [Hi ->]]]]]; [split; assumption|].
    exact (insert_user_keeps_unique _ _ _ _ _ _ _ Hi Hu Hf).
Qed.

Lemma X3_register_keeps_users_unique_witness :
  users_unique
    (Node.after (Node.register (fun _ => "hash") (Some "carol") (Some "carol@example.com")
                   (Some "secret") 9 Scenario.registered)).
Proof.
  apply (X3_register_keeps_users_unique (fun _ => "hash") (fun _ => true)
           Scenario.registered (Some "carol") (Some "carol@example.com")
           (Some "secret") 9).
  - split; repeat constructor; simpl; intuition discriminate.
  - intros usr [<- | [<- | []]]; simpl; lia.
Defined.

Lemma node_register_201 (hash : string -> string) (s : Store)
    (name mail password : option string) (now : nat) :
  Node.status (Node.response (Node.register hash name mail password now s)) = 201 ->
  node_register_refuses name mail password = false /\
  select_users (str name) (str mail) s = [] /\
  Node.register hash name mail password now s
  = Node.mkServed [s]
      (set_users s
         (users s ++ [mkUser (next_user_id s) (str name) (str mail)
                        (hash (str password)) "light" now now])
         (S (next_user_id s)))
      (Node.json 201 (Node.JsonUser "User created successfully"
         (Node.mkUserView (next_user_id s) (str name) (str mail) "light"))).
Proof.
  intro H.
  destruct (node_register_refuses name mail password) eqn:E.
  { destruct (node_register_refused hash s name mail password now E) as [msg Hr].
    rewrite Hr in H. discriminate. }
  rewrite (node_register_run hash s name mail password now E) in *.
  destruct (0 <? length (select_users (str name) (str mail) s))%nat; [discriminate|].
  destruct (insert_user (str name) (str mail) (hash (str password)) now s)
    as [e | [s1 id]] eqn:Hi; [discriminate|].
  apply insert_user_inr in Hi. destruct Hi as [Hsel [-> ->]].
  repeat split. exact Hsel.
Qed.

Lemma node_login_run (compare : string -> string -> bool) (s : Store)
    (name password : option string) :
  js_not name || js_not password = false ->
  Node.login compare name password s =
  Node.mkServed [] s
    match select_users (str name) (str name) s with
    | [] => invalid_credentials
    | user :: _ =>
        if negb (compare (str password) (password_hash user)) then invalid_credentials
        else Node.json 200 (Node.JsonUser "Login successful" (Node.view user))
    end.
Proof.
  intro Hv. unfold Node.login, Node.serve, bind, query. rewrite Hv. simpl.
  destruct (select_users (str name) (str name) s) as [|user l]; [reflexivity|].
  destruct (negb (compare (str password) (password_hash user))); reflexivity.
Qed.

(** The rows that a login by [name] finds once a user called [name], or
    one whose email is [name], has been added to a table in which nobody
    else answers to that name. *)
Lemma select_users_added (s : Store) (name : string) (new : User) (n : nat) :
  (forall usr, In usr (users s) -> username usr <> name /\ email usr <> name) ->
  username new = name \/ email new = name ->
  select_users name name (set_users s (users s ++ [new]) n) = [new].
Proof.
  intros Hold Hnew. unfold select_users. simpl. rewrite filter_app.
  rewrite none_filter_nil.
  - simpl. destruct Hnew as [-> | ->]; rewrite String.eqb_refl, ?orb_true_r; reflexivity.
  - intros usr Hin. destruct (Hold usr Hin) as [H1 H2].
    apply String.eqb_neq in H1. apply String.eqb_neq in H2. rewrite H1, H2. reflexivity.
Qed.

(** X4. In the Express backend, when [bcrypt.compare] accepts a password
    against its own hash, a user who has just registered can log in with the
    same password: by username, provided no earlier user has that username
    as email, and by email, provided no earlier user has that email as
    username (the login takes the first row whose username or email is the
    name given). The answer carries the new identity and the theme
    "light". *)
Theorem X4_register_then_login (hash : string -> string)
    (compare : string -> string -> bool) (s : Store)
    (name mail password : option string) (now : nat) :
  (forall p, compare p (hash p) = true) ->
  Node.status (Node.response (Node.register hash name mail password now s)) = 201 ->
  ((forall usr, In usr (users s) -> email usr <> str name) ->
   Node.response
     (Node.login compare name password
        (Node.after (Node.register hash name mail password now s)))
   = Node.json 200 (Node.JsonUser "Login successful"
       (Node.mkUserView (next_user_id s) (str name) (str mail) "light"))) /\
  ((forall usr, In usr (users s) -> username usr <> str mail) ->
   Node.response
     (Node.login compare mail password
        (Node.after (Node.register hash name mail password now s)))
   = Node.json 200 (Node.JsonUser "Login successful"
       (Node.mkUserView (next_user_id s) (str name) (str mail) "light"))).
Proof.
  intros Hc Hok.
  destruct (node_register_201 hash s name mail password now Hok) as [Hv [Hsel ->]].
  cbn [Node.after]. rewrite select_users_nil in Hsel.
  unfold node_register_refuses in Hv.
  apply orb_false_iff in Hv. destruct Hv as [Hv _].
  apply orb_false_iff in Hv. destruct Hv as [Hv Hp].
  apply orb_false_iff in Hv. destruct Hv as [Hn Hm].
  split; intro Hfree.
  - rewrite node_login_run by (rewrite Hn, Hp; reflexivity).
    rewrite select_users_added.
    + cbn [Node.response password_hash]. rewrite Hc. reflexivity.
    + intros usr Hin. destruct (Hsel usr Hin). split; [assumption | apply Hfree, Hin].
    + left. reflexivity.
  - rewrite node_login_run by (rewrite Hm, Hp; reflexivity).
    rewrite select_users_added.
    + cbn [Node.response password_hash]. rewrite Hc. reflexivity.
    + intros usr Hin. destruct (Hsel usr Hin). split; [apply Hfree, Hin | assumption].
    + right. reflexivity.
Qed.

Lemma X4_register_then_login_witness :
  Node.response
    (Node.login String.eqb (Some "carol") (Some "secret")
       (Node.after (Node.register (fun p => p) (Some "carol") (Some "carol@example.com")
                      (Some "secret") 9 Scenario.registered)))
  = Node.json 200 (Node.JsonUser "Login successful"
      (Node.mkUserView 3 "carol" "carol@example.com" "light")).
Proof.
  apply (X4_register_then_login (fun p => p) String.eqb Scenario.registered
           (Some "carol") (Some "carol@example.com") (Some "secret") 9).
  - intro p. apply String.eqb_refl.
  - reflexivity.
  - intros usr [<- | [<- | []]]; discriminate.
Defined.

(** X5. A login in the Express backend never changes the store, and for a
    request with both fields it has two answers only: the one 401 "Invalid
    credentials", the same whether nobody answers to the name or the
    password does not match, and a 200 that carries a user of the table
    whose username or email is the name given and against whose stored hash
    the password was accepted. *)
Theorem X5_login_sound (compare : string -> string -> bool) (s : Store)
    (name password : option string) :
  Node.after (Node.login compare name password s) = s /\
  Node.before (Node.login compare name password s) = [] /\
  (js_not name || js_not password = false ->
   Node.response (Node.login compare name password s) = invalid_credentials \/
   exists usr,
     In usr (users s) /\
     (username usr = str name \/ email usr = str name) /\
     compare (str password) (password_hash usr) = true /\
     Node.response (Node.login compare name password s)
     = Node.json 200 (Node.JsonUser "Login successful" (Node.view usr))).
Proof.
  destruct (js_not name || js_not password) eqn:Hv.
  - unfold Node.login, Node.serve. rewrite Hv. repeat split. discriminate.
  - rewrite (node_login_run compare s name password Hv).
    split; [reflexivity|]. split; [reflexivity|]. intros _. cbn [Node.response].
    destruct (select_users (str name) (str name) s) as [|usr l] eqn:E; [left; reflexivity|].
    destruct (compare (str password) (password_hash usr)) eqn:Hc; [|left; reflexivity].
    right. exists usr.
    assert (Hin : In usr (select_users (str name) (str name) s))
      by (rewrite E; left; reflexivity).
    apply filter_In in Hin. destruct Hin as [Hin Hm].
    apply orb_true_iff in Hm. rewrite !String.eqb_eq in Hm.
    repeat split; assumption.
Qed.

Lemma X5_login_sound_witness :
  Node.response (Node.login String.eqb (Some "demo") (Some "wrong") Scenario.registered)
  = invalid_credentials \/
  exists usr,
    In usr (users Scenario.registered) /\
    (username usr = "demo" \/ email usr = "demo") /\
    String.eqb "wrong" (password_hash usr) = true /\
    Node.response (Node.login String.eqb (Some "demo") (Some "wrong") Scenario.registered)
    = Node.json 200 (Node.JsonUser "Login successful" (Node.view usr)).
Proof.
  apply (X5_login_sound String.eqb Scenario.registered (Some "demo") (Some "wrong")).
  reflexivity.
Defined.

(** ** The profile *)

Lemma profile_found (s : Store) (u : nat) :
  user_exists u s = true ->
  exists usr,
    In usr (users s) /\ user_id usr = u /\
    Node.profile u s = (200, Node.ProfileUser (Node.view usr)).
Proof.
  intro H. unfold Node.profile.
  destruct (filter (fun u0 => (user_id u0 =? u)%nat) (users s)) as [|usr l] eqn:E.
  - unfold user_exists in H. rewrite (none_existsb _ _ (filter_nil_none _ _ E)) in H.
    discriminate.
  - assert (Hin : In usr (filter (fun u0 => (user_id u0 =? u)%nat) (users s)))
      by (rewrite E; left; reflexivity).
    apply filter_In in Hin. destruct Hin as [Hin Hid]. apply Nat.eqb_eq in Hid.
    exists usr. repeat split; assumption.
Qed.

Lemma update_theme_column_exists (accepts : string -> bool) (refusal : DbError)
    (theme : string) (u now : nat) (s s1 : Store) (n : nat) (u' : nat) :
  update_theme_column accepts refusal theme u now s = inr (s1, n) ->
  user_exists u' s = true -> user_exists u' s1 = true.
Proof.
  unfold update_theme_column.
  destruct (existsb (fun u0 => (user_id u0 =? u)%nat) (users s) && negb (accepts theme));
    [discriminate|].
  intro H. injection H as <- <-. unfold user_exists. simpl.
  rewrite !existsb_exists. intros [usr [Hin Hid]].
  eexists. split; [apply in_map; exact Hin|].
  destruct ((user_id usr =? u)%nat && negb (theme_preference usr =? theme)); exact Hid.
Qed.

(** X6. The profile read answers 404 exactly for an identity that no user
    has, and after an accepted theme update of an existing user it shows
    that user with the theme just set. *)
Theorem X6_theme_then_profile (s : Store) (u : nat) (theme : option string) (now : nat) :
  (user_exists u s = false <-> Node.profile u s = (404, Node.ProfileError "User not found")) /\
  (theme = Some "light" \/ theme = Some "dark" ->
   user_exists u s = true ->
   exists v,
     Node.profile u (Node.after (Node.updateTheme u theme now s))
     = (200, Node.ProfileUser v) /\
     Node.view_id v = u /\ Node.view_theme_preference v = str theme).
Proof.
  split.
  - split.
    + intro H. unfold Node.profile, user_exists in *.
      rewrite none_filter_nil; [reflexivity|].
      intros usr Hin. destruct (user_id usr =? u)%nat eqn:E; [|reflexivity].
      assert (Ht : existsb (fun u0 => (user_id u0 =? u)%nat) (users s) = true)
        by (apply existsb_exists; exists usr; split; assumption).
      congruence.
    + intro H. destruct (user_exists u s) eqn:E; [|reflexivity].
      destruct (profile_found s u E) as [usr [_ [_ Hp]]]. congruence.
  - intros Ht Hex.
    destruct (node_updateTheme_valid s u theme now Ht) as [s1 [n [Hup ->]]].
    cbn [Node.after]. unfold Node.update_theme_preference in Hup.
    pose proof (update_theme_column_exists _ _ _ _ _ _ _ _ u Hup Hex) as Hex1.
    destruct (profile_found s1 u Hex1) as [usr [Hin [Hid ->]]].
    exists (Node.view usr). split; [reflexivity|]. split; [exact Hid|].
    simpl. apply (update_theme_column_users _ _ _ _ _ _ _ _ Hup); assumption.
Qed.

Lemma X6_theme_then_profile_witness :
  exists v,
    Node.profile 1 (Node.after (Node.updateTheme 1 (Some "dark") 9 Scenario.registered))
    = (200, Node.ProfileUser v) /\
    Node.view_id v = 1 /\ Node.view_theme_preference v = "dark".
Proof.
  apply (X6_theme_then_profile Scenario.registered 1 (Some "dark") 9).
  - right. reflexivity.
  - reflexivity.
Defined.

(** ** Login in the PDO backend *)

Lemma php_login_run (verify : string -> string -> bool) (s : Store)
    (name password : option string) :
  Php.login verify name password s =
  Php.mkOutcome [] s
    (if Php.empty (Php.trim (str name)) || Php.empty (str password)
     then Php.php_error "Username and password are required"
     else match limit_1 (select_users (Php.trim (str name)) (Php.trim (str name)) s) with
          | None => Php.php_error "Invalid credentials"
          | Some user =>
              if negb (verify (str password) (password_hash user))
              then Php.php_error "Invalid credentials"
              else Php.php_user (user_id user) (username user) (email user)
                     (theme_preference user)
          end).
Proof.
  unfold Php.login, Php.run, bind, query.
  destruct (Php.empty (Php.trim (str name)) || Php.empty (str password)); [reflexivity|].
  simpl.
  destruct (limit_1 (select_users (Php.trim (str name)) (Php.trim (str name)) s))
    as [user|]; [|reflexivity].
  destruct (negb (verify (str password) (password_hash user))); reflexivity.
Qed.

(** X7. A login in the PDO backend never changes the store; when it
    succeeds, the user it returns is a row of the table whose username or
    email is the trimmed name given and against whose stored hash the
    password was verified; when it fails on a request with both fields, the
    error is "Invalid credentials", the same for an unknown name and for a
    wrong password. *)
Theorem X7_php_login_sound (verify : string -> string -> bool) (s : Store)
    (name password : option string) :
  Php.after (Php.login verify name password s) = s /\
  Php.before (Php.login verify name password s) = [] /\
  (Php.empty (Php.trim (str name)) || Php.empty (str password) = false ->
   Php.reply (Php.login verify name password s) = Php.php_error "Invalid credentials" \/
   exists usr,
     In usr (users s) /\
     (username usr = Php.trim (str name) \/ email usr = Php.trim (str name)) /\
     verify (str password) (password_hash usr) = true /\
     Php.reply (Php.login verify name password s)
     = Php.php_user (user_id usr) (username usr) (email usr) (theme_preference usr)).
Proof.
  rewrite php_login_run. split; [reflexivity|]. split; [reflexivity|].
  intro Hv. cbn [Php.reply]. rewrite Hv.
  destruct (select_users (Php.trim (str name)) (Php.trim (str name)) s) as [|usr l] eqn:E;
    cbn [limit_1]; [left; reflexivity|].
  destruct (verify (str password) (password_hash usr)) eqn:Hc; [|left; reflexivity].
  right. exists usr.
  assert (Hin : In usr (select_users (Php.trim (str name)) (Php.trim (str name)) s))
    by (rewrite E; left; reflexivity).
  apply filter_In in Hin. destruct Hin as [Hin Hm].
  apply orb_true_iff in Hm. rewrite !String.eqb_eq in Hm.
  repeat split; assumption.
Qed.

Lemma X7_php_login_sound_witness :
  Php.reply (Php.login String.eqb (Some " demo ") (Some "hash") Scenario.registered)
  = Php.php_error "Invalid credentials" \/
  exists usr,
    In usr (users Scenario.registered) /\
    (username usr = Php.trim " demo " \/ email usr = Php.trim " demo ") /\
    String.eqb "hash" (password_hash usr) = true /\
    Php.reply (Php.login String.eqb (Some " demo ") (Some "hash") Scenario.registered)
    = Php.php_user (user_id usr) (username usr) (email usr) (theme_preference usr).
Proof.
  apply (X7_php_login_sound String.eqb Scenario.registered (Some " demo ") (Some "hash")).
  reflexivity.
Defined.

Lemma php_register_success (hash : string -> string) (fve : string -> bool) (s : Store)
    (name mail password : option string) (now id : nat) (n m th : string) :
  Php.reply (Php.register hash fve name mail password now s) = Php.php_user id n m th ->
  Php.empty (Php.trim (str name)) = false /\
  Php.empty (str password) = false /\
  select_users (Php.trim (str name)) (Php.trim (str mail)) s = [] /\
  Php.register hash fve name mail password now s
  = Php.mkOutcome [s]
      (set_users s
         (users s ++ [mkUser (next_user_id s) (Php.trim (str name)) (Php.trim (str mail))
                        (hash (str password)) "light" now now])
         (S (next_user_id s)))
      (Php.php_user (next_user_id s) (Php.trim (str name)) (Php.trim (str mail)) "light").
Proof.
  unfold Php.register, Php.run.
  destruct (Php.empty (Php.trim (str name))) eqn:E1; [discriminate|].
  destruct (Php.empty (Php.trim (str mail))) eqn:E2; [discriminate|].
  destruct (Php.empty (str password)) eqn:E3; [discriminate|]. cbn [orb].
  destruct (Php.strlen (Php.trim (str name)) <? 3)%nat; [discriminate|].
  destruct (fve (Php.trim (str mail))); cbn [negb]; [|discriminate].
  destruct (Php.strlen (str password) <? 6)%nat; [discriminate|].
  unfold bind, query, Php.try_catch, execute. cbn [result final seen].
  destruct (select_users (Php.trim (str name)) (Php.trim (str mail)) s) eqn:Hsel;
    cbn [is_nil negb result final seen ret app]; [|discriminate].
  destruct (insert_user (Php.trim (str name)) (Php.trim (str mail))
              (hash (str password)) now s) as [e | [s1 i]] eqn:Hi;
    cbn [result final seen ret app Php.reply]; [discriminate|].
  intros _. apply insert_user_inr in Hi. destruct Hi as [_ [-> ->]].
  repeat split.
Qed.

(** X8. In the PDO backend, when [password_verify] accepts a password
    against its own hash, a user who has just registered can log in with the
    name and password of the registration, provided no earlier user has the
    trimmed username as email; the login returns the identity, the trimmed
    username and email, and the theme "light". *)
Theorem X8_php_register_then_login (hash : string -> string) (fve : string -> bool)
    (verify : string -> string -> bool) (s : Store)
    (name mail password : option string) (now id : nat) (n m th : string) :
  (forall p, verify p (hash p) = true) ->
  Php.reply (Php.register hash fve name mail password now s) = Php.php_user id n m th ->
  (forall usr, In usr (users s) -> email usr <> Php.trim (str name)) ->
  Php.reply
    (Php.login verify name password
       (Php.after (Php.register hash fve name mail password now s)))
  = Php.php_user (next_user_id s) (Php.trim (str name)) (Php.trim (str mail)) "light".
Proof.
  intros Hc Hok Hfree.
  destruct (php_register_success hash fve s name mail password now id n m th Hok)
    as [E1 [E3 [Hsel ->]]].
  cbn [Php.after]. rewrite php_login_run. cbn [Php.reply]. rewrite E1, E3. cbn [orb].
  rewrite select_users_nil in Hsel.
  rewrite select_users_added.
  - cbn [limit_1 password_hash]. rewrite Hc. reflexivity.
  - intros usr Hin. destruct (Hsel usr Hin). split; [assumption | apply Hfree, Hin].
  - left. reflexivity.
Qed.

Lemma X8_php_register_then_login_witness :
  Php.reply
    (Php.login String.eqb (Some "carol") (Some "secret")
       (Php.after (Php.register (fun p => p) (fun _ => true) (Some " carol ")
                     (Some "carol@example.com") (Some "secret") 9 Scenario.registered)))
  = Php.php_user 3 "carol" "carol@example.com" "light".
Proof.
  apply (X8_php_register_then_login (fun p => p) (fun _ => true) String.eqb
           Scenario.registered (Some " carol ") (Some "carol@example.com")
           (Some "secret") 9 3 "carol" "carol@example.com" "light").
  - intro p. apply String.eqb_refl.
  - reflexivity.
  - intros usr [<- | [<- | []]]; discriminate.
Defined.

(** ** Reading a chat *)

Lemma timestamp_asc_le (a b : Message) :
  timestamp_asc a b = true -> timestamp a <= timestamp b.
Proof. rewrite timestamp_asc_spec. lia. Qed.

Lemma getWithMessages_owned (s : Store) (u : nat) (c : string) :
  owns u c s = true ->
  exists chat,
    In chat (chats s) /\ chat_id chat = c /\ chat_user_id chat = u /\
    Node.getWithMessages u c s
    = Node.mkServed [] s (Node.json 200 (Node.JsonChat chat (select_messages c s))).
Proof.
  unfold owns. intro H.
  unfold Node.getWithMessages, Node.serve, bind, query. simpl.
  destruct (select_chat c u s) as [|chat l] eqn:E; [discriminate|].
  assert (Hin : In chat (select_chat c u s)) by (rewrite E; left; reflexivity).
  apply filter_In in Hin. destruct Hin as [Hin Hown].
  apply andb_true_iff in Hown. destruct Hown as [Hid Hu].
  apply String.eqb_eq in Hid. apply Nat.eqb_eq in Hu.
  exists chat. repeat split; assumption.
Qed.

(** X9. Reading a chat that the user owns changes nothing and returns a
    chat of the table with that identity and that owner, together with
    exactly the messages of the chat, each once, in non-decreasing timestamp
    order. *)
Theorem X9_getWithMessages_owned (s : Store) (u : nat) (c : string) :
  owns u c s = true ->
  exists chat msgs,
    Node.getWithMessages u c s
    = Node.mkServed [] s (Node.json 200 (Node.JsonChat chat msgs)) /\
    In chat (chats s) /\ chat_id chat = c /\ chat_user_id chat = u /\
    Permutation msgs (filter (in_chat c) (messages s)) /\
    (forall m, In m msgs <-> In m (messages s) /\ msg_chat_id m = c) /\
    StronglySorted (fun a b => timestamp a <= timestamp b) msgs.
Proof.
  intro H. destruct (getWithMessages_owned s u c H) as [chat [Hin [Hid [Hu Hrun]]]].
  exists chat, (select_messages c s). unfold select_messages.
  split; [exact Hrun|]. repeat split; try assumption.
  - apply Permutation_sym, order_by_perm.
  - apply order_by_In in H0. apply filter_In in H0. tauto.
  - apply order_by_In in H0. apply filter_In in H0. apply in_chat_spec. tauto.
  - intros [H1 H2]. apply order_by_In, filter_In. split; [exact H1|].
    apply in_chat_spec, H2.
  - rewrite <- map_id.
    apply StronglySorted_map with (R := fun a b => timestamp_asc a b = true).
    + intros a b. apply timestamp_asc_le.
    + apply order_by_sorted; [apply timestamp_asc_total | apply timestamp_asc_trans].
Qed.

Lemma X9_getWithMessages_owned_witness :
  exists chat msgs,
    Node.getWithMessages 1 "c1" Scenario.with_hello
    = Node.mkServed [] Scenario.with_hello (Node.json 200 (Node.JsonChat chat msgs)) /\
    In chat (chats Scenario.with_hello) /\ chat_id chat = "c1" /\ chat_user_id chat = 1 /\
    Permutation msgs (filter (in_chat "c1") (messages Scenario.with_hello)) /\
    (forall m, In m msgs <-> In m (messages Scenario.with_hello) /\ msg_chat_id m = "c1") /\
    StronglySorted (fun a b => timestamp a <= timestamp b) msgs.
Proof.
  apply (X9_getWithMessages_owned Scenario.with_hello 1 "c1"). reflexivity.
Defined.

(** ** Creating a chat *)

Lemma chat_exists_false (c : string) (s : Store) :
  chat_exists c s = false -> forall ch, In ch (chats s) -> (chat_id ch =? c) = false.
Proof.
  intros H ch Hin. destruct (chat_id ch =? c) eqn:E; [|reflexivity].
  assert (Ht : chat_exists c s = true).
  { apply chat_exists_In, in_map_iff. exists ch. split; [apply String.eqb_eq, E | exact Hin]. }
  congruence.
Qed.

(** X10. A complete request to create a chat under an identity that is
    free, by a user of the table, with values that fit the columns, is
    answered 201 and adds one chat, owned by the caller, named and modelled
    as asked, stamped with the time of the INSERT. Read back by its creator
    it is that chat with no message (the store being referentially sound);
    read by anyone else it is not found. *)
Theorem X10_create_then_read (s : Store) (u : nat) (id name model : option string)
    (now : nat) :
  js_not id || js_not name || js_not model = false ->
  chat_exists (str id) s = false ->
  user_exists u s = true ->
  fits 100 (str id) && fits 255 (str name) && fits 100 (str model) = true ->
  referential s ->
  Node.create u id name model now s
  = Node.mkServed [s]
      (set_chats s (chats s ++ [mkChat (str id) u (str name) (str model) now now]))
      (Node.json 201 (Node.JsonMessage "Chat created successfully")) /\
  Node.response
    (Node.getWithMessages u (str id) (Node.after (Node.create u id name model now s)))
  = Node.json 200
      (Node.JsonChat (mkChat (str id) u (str name) (str model) now now) []) /\
  forall v, v <> u ->
    Node.response
      (Node.getWithMessages v (str id) (Node.after (Node.create u id name model now s)))
    = not_found.
Proof.
  intros Hv Hfree Husr Hfit Href.
  assert (Hrun : Node.create u id name model now s
    = Node.mkServed [s]
        (set_chats s (chats s ++ [mkChat (str id) u (str name) (str model) now now]))
        (Node.json 201 (Node.JsonMessage "Chat created successfully"))).
  { rewrite (create_run s u id name model now Hv).
    unfold Node.insert_chat. rewrite Hfit, Hfree, Husr. reflexivity. }
  split; [exact Hrun|]. rewrite Hrun. cbn [Node.after].
  set (new := mkChat (str id) u (str name) (str model) now now).
  assert (Hold : forall v, filter (owned_by (str id) v) (chats s) = []).
  { intro v. apply none_filter_nil. intros ch Hin. unfold owned_by.
    rewrite (chat_exists_false _ _ Hfree ch Hin). reflexivity. }
  split.
  - unfold Node.getWithMessages, Node.serve, bind, query. simpl.
    unfold select_chat. simpl. rewrite filter_app, Hold. simpl.
    unfold owned_by. simpl. rewrite String.eqb_refl, Nat.eqb_refl. simpl.
    assert (Hnone : select_messages (str id) (set_chats s (chats s ++ [new])) = []).
    { apply select_messages_none. simpl. intros m Hin Hc.
      specialize (Href m Hin). rewrite Hc in Href. congruence. }
    rewrite Hnone. reflexivity.
  - intros v Hne. rewrite getWithMessages_not_owned; [reflexivity|].
    unfold owns, select_chat. simpl. rewrite filter_app, Hold. simpl.
    unfold owned_by. simpl. apply Nat.eqb_neq in Hne.
    rewrite Nat.eqb_sym, Hne, andb_false_r. reflexivity.
Qed.

Lemma X10_create_then_read_witness :
  Node.response
    (Node.getWithMessages 2 "c2"
       (Node.after (Node.create 2 (Some "c2") (Some "Notes") (Some "llama2") 7
                      Scenario.with_hello)))
  = Node.json 200 (Node.JsonChat (mkChat "c2" 2 "Notes" "llama2" 7 7) []).
Proof.
  apply (X10_create_then_read Scenario.with_hello 2 (Some "c2") (Some "Notes")
           (Some "llama2") 7).
  - reflexivity.
  - reflexivity.
  - reflexivity.
  - reflexivity.
  - intros m [<- | []]. reflexivity.
Defined.

(** ** Renaming a chat *)

Lemma count_positive {A : Type} (p : A -> bool) (l : list A) (x : A) :
  In x l -> p x = true -> count p l <> 0.
Proof.
  intros Hin Hp. unfold count.
  assert (H : In x (filter p l)) by (apply filter_In; split; assumption).
  destruct (filter p l); [destruct H | simpl; lia].
Qed.

(** X11. A rename of an owned chat to a name that fits the column, on a
    connection that counts matched rows or to a name that differs from the
    current one, is answered 200. Afterwards every chat of that identity
    and owner bears the new name, the chats that are not the caller's under
    that identity are untouched, identity, owner, model and creation time
    of every chat are as before, and no message has changed. *)
Theorem X11_rename_owned (found_rows : bool) (s : Store) (u : nat) (c : string)
    (name : option string) (now : nat) :
  js_not name = false ->
  fits 255 (str name) = true ->
  (exists ch, In ch (chats s) /\ owned_by c u ch = true /\
              (found_rows = true \/ chat_name ch <> str name)) ->
  Node.response (Node.rename found_rows u c name now s)
  = Node.json 200 (Node.JsonMessage "Chat updated successfully") /\
  (forall ch, In ch (chats (Node.after (Node.rename found_rows u c name now s))) ->
              owned_by c u ch = true -> chat_name ch = str name) /\
  (forall ch, In ch (chats s) -> owned_by c u ch = false ->
              In ch (chats (Node.after (Node.rename found_rows u c name now s)))) /\
  map chat_identity (chats (Node.after (Node.rename found_rows u c name now s)))
  = map chat_identity (chats s) /\
  messages (Node.after (Node.rename found_rows u c name now s)) = messages s.
Proof.
  intros Hn Hfit [ch0 [Hin0 [Hown0 Hdiff]]].
  rewrite (rename_run found_rows s u c name now Hn).
  unfold Node.update_chat_name. rewrite Hfit, andb_false_r.
  cbn [Node.response Node.after].
  assert (Hcount : (if found_rows
                    then count (owned_by c u) (chats s)
                    else count (fun c0 => owned_by c u c0 && negb (chat_name c0 =? str name))
                           (chats s)) <> 0).
  { destruct found_rows.
    - apply (count_positive _ _ ch0 Hin0 Hown0).
    - destruct Hdiff as [Hd | Hd]; [discriminate|].
      apply (count_positive _ _ ch0 Hin0). rewrite Hown0.
      apply String.eqb_neq in Hd. rewrite Hd. reflexivity. }
  apply Nat.eqb_neq in Hcount. rewrite Hcount.
  split; [reflexivity|]. simpl. split; [|split; [|split]].
  - intros ch Hin Hown. apply in_map_iff in Hin. destruct Hin as [ch1 [<- Hin1]].
    destruct (owned_by c u ch1) eqn:E1; simpl.
    + destruct (chat_name ch1 =? str name) eqn:E2; simpl; [|reflexivity].
      apply String.eqb_eq, E2.
    + simpl in Hown. congruence.
  - intros ch Hin Hown. apply in_map_iff. exists ch. rewrite Hown. split; [reflexivity|exact Hin].
  - rewrite map_map. apply map_ext. intro ch.
    destruct (owned_by c u ch && negb (chat_name ch =? str name)); reflexivity.
  - reflexivity.
Qed.

Lemma X11_rename_owned_witness :
  Node.response (Node.rename false 1 "c1" (Some "Renamed") 20 Scenario.with_hello)
  = Node.json 200 (Node.JsonMessage "Chat updated successfully").
Proof.
  apply (X11_rename_owned false Scenario.with_hello 1 "c1" (Some "Renamed") 20).
  - reflexivity.
  - reflexivity.
  - exists (mkChat "c1" 1 "Test" "llama2" 5 10).
    split; [left; reflexivity|]. split; [reflexivity|]. right. discriminate.
Defined.

(** ** The order of the messages of a chat *)

Section OrderBySnoc.
Context {A : Type} (le : A -> A -> bool).

Lemma insert_sorted_snoc (a x : A) (l : list A) :
  le a x = true -> insert_sorted le a (l ++ [x]) = (insert_sorted le a l ++ [x])%list.
Proof.
  intro H. induction l as [|y l IH]; simpl.
  - rewrite H. reflexivity.
  - destruct (le a y); [reflexivity|]. rewrite IH. reflexivity.
Qed.

Lemma order_by_snoc (x : A) (l : list A) :
  (forall a, In a l -> le a x = true) ->
  order_by le (l ++ [x]) = (order_by le l ++ [x])%list.
Proof.
  induction l as [|a l IH]; intro H; simpl; [reflexivity|].
  rewrite IH by (intros b Hb; apply H; right; exact Hb).
  apply insert_sorted_snoc. apply H. left. reflexivity.
Qed.

Lemma order_by_sorted_id (l : list A) :
  StronglySorted (fun a b => le a b = true) l -> order_by le l = l.
Proof.
  induction 1 as [|x l Hs IH Hall]; simpl; [reflexivity|].
  rewrite IH. destruct l as [|y l']; simpl; [reflexivity|].
  rewrite Forall_forall in Hall. rewrite (Hall y (or_introl eq_refl)). reflexivity.
Qed.
End OrderBySnoc.

Lemma in_not_nil {A : Type} (x : A) (l : list A) : In x l -> negb (is_nil l) = true.
Proof. destruct l; [intros [] | reflexivity]. Qed.

(** X12. After a successful append, when every earlier message of the chat
    is stamped strictly before the INSERT, the messages of the chat read in
    order are the earlier ones, in their earlier order, followed by the new
    one; the messages and the preview of every other chat are as before; and
    the owner reads back exactly that sequence. *)
Theorem X12_append_goes_last (sender_column : SenderColumn)
    (s : Store) (u : nat) (c : string)
    (sender content model info : option string) (t_insert t_update : nat) :
  Node.status (Node.response
    (Node.append sender_column u c sender content model info t_insert t_update s)) = 201 ->
  (forall m, In m (messages s) -> msg_chat_id m = c -> timestamp m < t_insert) ->
  select_messages c (Node.after (Node.append sender_column u c sender content model info t_insert t_update s))
  = (select_messages c s ++ [appended sender_column s c sender content model info t_insert])%list /\
  (forall c', c' <> c ->
     select_messages c'
       (Node.after (Node.append sender_column u c sender content model info t_insert t_update s))
     = select_messages c' s /\
     select_last_message c'
       (Node.after (Node.append sender_column u c sender content model info t_insert t_update s))
     = select_last_message c' s) /\
  exists chat,
    Node.response
      (Node.getWithMessages u c
         (Node.after (Node.append sender_column u c sender content model info t_insert t_update s)))
    = Node.json 200
        (Node.JsonChat chat
           (select_messages c s ++ [appended sender_column s c sender content model info t_insert])).
Proof.
  intros Hok Hclock.
  destruct (append_201 sender_column s u c sender content model info t_insert t_update Hok)
    as [_ [Ho [_ ->]]].
  cbn [Node.after].
  set (new := appended sender_column s c sender content model info t_insert).
  set (s' := mkStore _ _ _ _ _).
  assert (Hsel : select_messages c s' = (select_messages c s ++ [new])%list).
  { unfold select_messages. subst s'. simpl. rewrite filter_app. simpl.
    unfold in_chat at 2. simpl. rewrite String.eqb_refl.
    apply order_by_snoc. intros a Ha. apply filter_In in Ha. destruct Ha as [Ha Hc].
    apply in_chat_spec in Hc. apply timestamp_asc_spec.
    specialize (Hclock a Ha Hc). simpl. lia. }
  split; [exact Hsel|]. split.
  - intros c' Hne.
    assert (Hf : filter (in_chat c') (messages s') = filter (in_chat c') (messages s)).
    { subst s'. simpl. rewrite filter_app. simpl. unfold in_chat at 2. simpl.
      apply not_eq_sym in Hne. apply String.eqb_neq in Hne. rewrite Hne.
      apply app_nil_r. }
    unfold select_messages, select_last_message. rewrite Hf. split; reflexivity.
  - assert (Ho' : owns u c s' = true).
    { unfold owns, select_chat in *. subst s'. simpl.
      destruct (filter (owned_by c u) (chats s)) as [|ch l] eqn:E; [discriminate|].
      assert (Hin : In ch (filter (owned_by c u) (chats s))) by (rewrite E; left; reflexivity).
      apply filter_In in Hin. destruct Hin as [Hin Hown].
      assert (Hin' : In (if chat_id ch =? c then Node.set_updated_at ch t_update else ch)
                       (filter (owned_by c u)
                          (map (fun ch0 => if chat_id ch0 =? c
                                           then Node.set_updated_at ch0 t_update else ch0)
                             (chats s)))).
      { apply filter_In. split.
        - apply in_map_iff. exists ch. split; [reflexivity | exact Hin].
        - destruct (chat_id ch =? c); exact Hown. }
      exact (in_not_nil _ _ Hin'). }
    destruct (getWithMessages_owned s' u c Ho') as [chat [_ [_ [_ Hrun]]]].
    exists chat. rewrite Hrun, Hsel. reflexivity.
Qed.

Lemma X12_append_goes_last_witness :
  select_messages "c1"
    (Node.after (Node.append members 1 "c1" (Some "ai") (Some "Hi!") None None 11 11
                   Scenario.with_hello))
  = [Scenario.hello; mkMessage 2 "c1" "ai" "Hi!" None None 11].
Proof.
  apply (X12_append_goes_last members Scenario.with_hello 1 "c1" (Some "ai") (Some "Hi!")
           None None 11 11).
  - reflexivity.
  - intros m [<- | []] _. simpl. lia.
Defined.

(** ** Deleting a chat, again *)

(** X13. A delete removes the chats of that identity owned by the caller
    and no other chat, touches no user, and cannot be repeated: the same
    delete asked a second time is answered 404 and changes nothing. *)
Theorem X13_delete_own_once (s : Store) (u : nat) (c : string) :
  (forall ch, In ch (chats (Node.after (Node.delete u c s))) <->
              In ch (chats s) /\ owned_by c u ch = false) /\
  users (Node.after (Node.delete u c s)) = users s /\
  Node.delete u c (Node.after (Node.delete u c s))
  = Node.mkServed [Node.after (Node.delete u c s)] (Node.after (Node.delete u c s))
      not_found.
Proof.
  rewrite delete_run. cbn [Node.after]. split; [|split].
  - intro ch. apply delete_chats_chats.
  - reflexivity.
  - apply delete_not_owned. apply owns_false_none.
    intros ch Hin. apply delete_chats_chats in Hin. tauto.
Qed.

(** ** The constraints of the schema *)

Lemma consistent_same_ids (s s1 : Store) :
  map chat_id (chats s1) = map chat_id (chats s) ->
  messages s1 = messages s ->
  next_message_id s1 = next_message_id s ->
  consistent s -> consistent s1.
Proof.
  intros Hids Hm Hn [Hk [Hr Hf]]. unfold consistent, chats_keyed, referential,
    fresh_message_ids. rewrite Hids, Hm, Hn. repeat split; try assumption.
  intros m Hin. apply chat_exists_In. rewrite Hids. apply chat_exists_In, Hr, Hin.
Qed.

Lemma insert_chat_consistent (id : string) (u : nat) (name model : string) (now : nat)
    (s s1 : Store) (n : nat) :
  Node.insert_chat id u name model now s = inr (s1, n) ->
  consistent s -> consistent s1.
Proof.
  unfold Node.insert_chat.
  destruct (negb (fits 100 id && fits 255 name && fits 100 model)); [discriminate|].
  destruct (chat_exists id s) eqn:Hex; [discriminate|].
  destruct (negb (user_exists u s)); [discriminate|].
  intros H [Hk [Hr Hf]]. injection H as <- _.
  unfold consistent, chats_keyed, referential, fresh_message_ids. simpl.
  rewrite map_app. simpl. repeat split.
  - apply NoDup_app; repeat split; try assumption.
    + constructor; [intros []|constructor].
    + intros x Hx [<- | []]. apply chat_exists_In in Hx. congruence.
  - intros m Hin. apply chat_exists_In. simpl. rewrite map_app.
    apply in_or_app. left. apply chat_exists_In, Hr, Hin.
  - exact Hf.
Qed.

Lemma delete_chats_consistent (doomed : Chat -> bool) (s : Store) :
  consistent s -> consistent (fst (delete_chats doomed s)).
Proof.
  intros [Hk [Hr Hf]]. unfold consistent, chats_keyed, referential, fresh_message_ids.
  repeat split.
  - unfold delete_chats. simpl. clear Hr Hf. unfold chats_keyed in Hk.
    induction (chats s) as [|ch l IH]; simpl; [constructor|].
    inversion Hk as [|? ? Hnot Hk']; subst.
    destruct (doomed ch); simpl; [apply IH, Hk'|].
    constructor; [|apply IH, Hk'].
    intro Hin. apply Hnot. apply in_map_iff in Hin. destruct Hin as [x [Hx Hin]].
    apply filter_In in Hin. apply in_map_iff. exists x. tauto.
  - intros m Hm. apply delete_chats_messages in Hm. destruct Hm as [Hm Hkeep].
    pose proof (Hr m Hm) as Hex. apply chat_exists_In in Hex.
    apply in_map_iff in Hex. destruct Hex as [ch [Hid Hin]].
    apply chat_exists_In, in_map_iff. exists ch. split; [exact Hid|].
    apply delete_chats_chats. split; [exact Hin|].
    destruct (doomed ch) eqn:E; [|reflexivity].
    exfalso. exact (Hkeep ch Hin E Hid).
  - intros m Hm. apply delete_chats_messages in Hm. apply Hf. tauto.
Qed.

Lemma insert_message_consistent (sender_column : SenderColumn)
    (c snd txt : string) (model info : option string)
    (t : nat) (s s1 : Store) (id : nat) :
  insert_message sender_column c snd txt model info t s = inr (s1, id) ->
  consistent s -> consistent s1.
Proof.
  intros Hi [Hk [Hr Hf]].
  pose proof (insert_message_keeps_fresh_ids sender_column _ _ _ _ _ _ _ _ _ Hf Hi) as Hf1.
  apply insert_message_inr in Hi. destruct Hi as [_ [Hex [_ ->]]].
  repeat split; [exact Hk | | exact Hf1].
  intros m Hin. simpl in Hin. apply in_app_or in Hin.
  destruct Hin as [Hin | [<- | []]]; [apply Hr, Hin | exact Hex].
Qed.

Lemma update_chat_name_consistent (found_rows : bool) (name c : string) (u now : nat)
    (s s1 : Store) (n : nat) :
  Node.update_chat_name found_rows name c u now s = inr (s1, n) ->
  consistent s -> consistent s1.
Proof.
  unfold Node.update_chat_name.
  destruct (existsb (owned_by c u) (chats s) && negb (fits 255 name)); [discriminate|].
  intro H. injection H as <- _. apply consistent_same_ids; try reflexivity.
  simpl. rewrite map_map. apply map_ext. intro ch.
  destruct (owned_by c u ch && negb (chat_name ch =? name)); reflexivity.
Qed.

Lemma update_chat_timestamp_consistent (c : string) (now : nat) (s : Store) :
  consistent s ->
  consistent (set_chats s
    (map (fun ch => if chat_id ch =? c then Node.set_updated_at ch now else ch) (chats s))).
Proof.
  apply consistent_same_ids; try reflexivity.
  simpl. rewrite map_map. apply map_ext. intro ch.
  destruct (chat_id ch =? c); reflexivity.
Qed.

Lemma all_of_one (P : Store -> Prop) (a : Store) :
  P a -> forall st, In st [a] -> P st.
Proof. intros Ha st [<- | []]. exact Ha. Qed.

Lemma all_of_two (P : Store -> Prop) (a b : Store) :
  P a -> P b -> forall st, In st [a; b] -> P st.
Proof. intros Ha Hb st [<- | [<- | []]]; assumption. Qed.

(** X14. The handlers of the Express backend that write chats and messages
    keep the constraints of the schema at every state they commit: chat
    identities stay distinct, every message belongs to a chat of the table,
    and message identities lie below the counter, during and after a
    create, a rename, a delete and an append. *)
Theorem X14_writers_keep_consistent (sender_column : SenderColumn)
    (found_rows : bool) (s : Store) (u : nat) :
  consistent s ->
  (forall id name model now st,
      In st (Node.before (Node.create u id name model now s)
             ++ [Node.after (Node.create u id name model now s)]) -> consistent st) /\
  (forall c name now st,
      In st (Node.before (Node.rename found_rows u c name now s)
             ++ [Node.after (Node.rename found_rows u c name now s)]) -> consistent st) /\
  (forall c st,
      In st (Node.before (Node.delete u c s) ++ [Node.after (Node.delete u c s)]) ->
      consistent st) /\
  (forall c sender content model info t_insert t_update st,
      In st (Node.before (Node.append sender_column u c sender content model info t_insert t_update s)
             ++ [Node.after (Node.append sender_column u c sender content model info t_insert t_update s)])
      -> consistent st).
Proof.
  intro Hc. split; [|split; [|split]].
  - intros id name model now.
    destruct (js_not id || js_not name || js_not model) eqn:Hv.
    + unfold Node.create, Node.serve. rewrite Hv. apply all_of_one, Hc.
    + rewrite (create_run s u id name model now Hv).
      destruct (Node.insert_chat (str id) u (str name) (str model) now s)
        as [e | [s1 n]] eqn:Hi.
      * apply all_of_one, Hc.
      * apply all_of_two; [exact Hc | exact (insert_chat_consistent _ _ _ _ _ _ _ _ Hi Hc)].
  - intros c name now.
    destruct (js_not name) eqn:Hn.
    + rewrite (rename_invalid found_rows s u c name now Hn). apply all_of_one, Hc.
    + rewrite (rename_run found_rows s u c name now Hn).
      destruct (Node.update_chat_name found_rows (str name) c u now s)
        as [e | [s1 n]] eqn:Hu.
      * apply all_of_one, Hc.
      * apply all_of_two;
          [exact Hc | exact (update_chat_name_consistent _ _ _ _ _ _ _ _ Hu Hc)].
  - intro c. rewrite delete_run.
    apply all_of_two; [exact Hc | apply delete_chats_consistent, Hc].
  - intros c sender content model info t_insert t_update.
    destruct (js_not sender || js_not content) eqn:Hv.
    { rewrite append_invalid by exact Hv. apply all_of_one, Hc. }
    destruct (owns u c s) eqn:Ho.
    2:{ rewrite append_not_owned by assumption. apply all_of_one, Hc. }
    destruct (insert_message sender_column c (str sender) (str content) (or_null model) (or_null info)
                t_insert s) as [e | [s1 id]] eqn:Hi.
    { rewrite (append_refused sender_column s u c _ _ _ _ t_insert t_update e) by assumption.
      apply all_of_one, Hc. }
    rewrite (append_committed sender_column s u c _ _ _ _ t_insert t_update s1 id) by assumption.
    pose proof (insert_message_consistent sender_column _ _ _ _ _ _ _ _ _ Hi Hc) as Hc1.
    intros st [<- | [<- | [<- | []]]];
      [exact Hc | exact Hc1 | apply update_chat_timestamp_consistent, Hc1].
Qed.

Lemma X14_writers_keep_consistent_witness :
  consistent (Node.after (Node.delete 1 "c1" Scenario.with_hello)).
Proof.
  assert (Hc : consistent Scenario.with_hello).
  { repeat split.
    - repeat constructor. intros [].
    - intros m [<- | []]. reflexivity.
    - intros m [<- | []]. simpl. lia. }
  destruct (X14_writers_keep_consistent members true Scenario.with_hello 1 Hc)
    as [_ [_ [Hdelete _]]].
  apply (Hdelete "c1"). right. left. reflexivity.
Defined.

(** X15. No handler of the Express backend changes the identity, the owner,
    the model or the creation time of a chat: a rename and an append leave
    these of every chat as they were, whatever the request, and a create
    either leaves them or adds one chat owned by the caller. *)
Theorem X15_chat_identity_is_kept (sender_column : SenderColumn)
    (found_rows : bool) (s : Store) (u : nat) :
  (forall c name now,
      map chat_identity (chats (Node.after (Node.rename found_rows u c name now s)))
      = map chat_identity (chats s)) /\
  (forall c sender content model info t_insert t_update,
      map chat_identity
        (chats (Node.after (Node.append sender_column u c sender content model info t_insert t_update s)))
      = map chat_identity (chats s)) /\
  (forall id name model now,
      map chat_identity (chats (Node.after (Node.create u id name model now s)))
      = map chat_identity (chats s) \/
      map chat_identity (chats (Node.after (Node.create u id name model now s)))
      = (map chat_identity (chats s) ++ [(str id, u, str model, now)])%list).
Proof.
  split; [|split].
  - intros c name now. destruct (js_not name) eqn:Hn.
    + rewrite (rename_invalid found_rows s u c name now Hn). reflexivity.
    + rewrite (rename_run found_rows s u c name now Hn).
      unfold Node.update_chat_name.
      destruct (existsb (owned_by c u) (chats s) && negb (fits 255 (str name)));
        [reflexivity|].
      cbn [Node.after]. simpl. rewrite map_map. apply map_ext. intro ch.
      destruct (owned_by c u ch && negb (chat_name ch =? str name)); reflexivity.
  - intros c sender content model info t_insert t_update.
    destruct (js_not sender || js_not content) eqn:Hv.
    { rewrite append_invalid by exact Hv. reflexivity. }
    destruct (owns u c s) eqn:Ho.
    2:{ rewrite append_not_owned by assumption. reflexivity. }
    destruct (insert_message sender_column c (str sender) (str content) (or_null model) (or_null info)
                t_insert s) as [e | [s1 id]] eqn:Hi.
    { rewrite (append_refused sender_column s u c _ _ _ _ t_insert t_update e) by assumption.
      reflexivity. }
    rewrite (append_committed sender_column s u c _ _ _ _ t_insert t_update s1 id) by assumption.
    apply insert_message_inr in Hi. destruct Hi as [_ [_ [_ ->]]].
    cbn [Node.after]. simpl. rewrite map_map. apply map_ext. intro ch.
    destruct (chat_id ch =? c); reflexivity.
  - intros id name model now.
    destruct (js_not id || js_not name || js_not model) eqn:Hv.
    + left. unfold Node.create, Node.serve. rewrite Hv. reflexivity.
    + rewrite (create_run s u id name model now Hv). unfold Node.insert_chat.
      destruct (negb (fits 100 (str id) && fits 255 (str name) && fits 100 (str model)));
        [left; reflexivity|].
      destruct (chat_exists (str id) s); [left; reflexivity|].
      destruct (negb (user_exists u s)); [left; reflexivity|].
      right. cbn [Node.after]. simpl. rewrite map_app. reflexivity.
Qed.

(** ** Saving a whole chat *)

(** X16. [saveChat] replaces the messages of the chat and no others. When
    the chat row can be written (values that fit, and the chat exists or the
    caller is a user) and every supplied message can be stored (the column
    takes its sender and its fields fit), it succeeds, the messages of the
    chat are the supplied ones in the order given, each with the sender the
    column stored, with fresh identities, and the messages of every other
    chat are as before. When the server refuses a supplied message, the
    exception is not caught and nothing is rolled back: the earlier messages
    of the chat are gone and the chat holds the supplied messages that came
    before the refused one. *)
Theorem X16_saveChat_replaces (sender_column : SenderColumn) (s : Store) (u : nat)
    (d : Php.ChatData) :
  fits 50 (Php.data_id d) && fits 255 (Php.data_name d) && fits 100 (Php.data_model d)
  = true ->
  chat_exists (Php.data_id d) s = true \/ user_exists u s = true ->
  (forallb (storable sender_column) (Php.data_messages d) = true ->
   Php.reply (Php.saveChat sender_column u d s) = Php.php_success /\
   messages (Php.after (Php.saveChat sender_column u d s))
   = (filter (fun m => negb (in_chat (Php.data_id d) m)) (messages s)
      ++ inserted_rows sender_column (Php.data_id d) (Php.data_messages d) (next_message_id s))%list /\
   map Php.view (filter (in_chat (Php.data_id d)) (messages (Php.after (Php.saveChat sender_column u d s))))
   = map (as_stored sender_column) (Php.data_messages d) /\
   forall c', c' <> Php.data_id d ->
     filter (in_chat c') (messages (Php.after (Php.saveChat sender_column u d s)))
     = filter (in_chat c') (messages s)) /\
  (forall good bad rest,
      Php.data_messages d = (good ++ bad :: rest)%list ->
      forallb (storable sender_column) good = true ->
      storable sender_column bad = false ->
      (exists e, Php.reply (Php.saveChat sender_column u d s) = Php.php_uncaught e) /\
      map Php.view (filter (in_chat (Php.data_id d)) (messages (Php.after (Php.saveChat sender_column u d s))))
      = map (as_stored sender_column) good).
Proof.
  intros Hfit Hor.
  destruct (upsert_chat_ok s u d Hfit Hor) as [s1 [n [E [Hm [Hn Hex]]]]].
  destruct (saveChat_run sender_column s u d s1 n E) as [Hreply Hafter].
  rewrite Hreply, Hafter. clear Hreply Hafter.
  set (s2 := set_messages s1
               (filter (fun m => negb (in_chat (Php.data_id d) m)) (messages s1))
               (next_message_id s1)).
  assert (Hex2 : chat_exists (Php.data_id d) s2 = true) by exact Hex.
  assert (Hkept : forall rows c',
    filter (in_chat c')
      (filter (fun m => negb (in_chat (Php.data_id d) m)) (messages s)
       ++ inserted_rows sender_column (Php.data_id d) rows (next_message_id s))
    = if Php.data_id d =? c' then inserted_rows sender_column (Php.data_id d) rows (next_message_id s)
      else filter (in_chat c') (messages s)).
  { intros rows c'. rewrite filter_app, filter_other_chat, inserted_rows_in_chat.
    destruct (Php.data_id d =? c'); [reflexivity | apply app_nil_r]. }
  split.
  - intro Hall.
    destruct (for_each_insert_all sender_column (Php.data_id d) (Php.data_messages d) s2 Hex2 Hall)
      as [Hr Hf].
    rewrite Hr, Hf. subst s2. simpl. rewrite Hm, Hn.
    split; [reflexivity|]. split; [reflexivity|]. split.
    + rewrite Hkept, String.eqb_refl. apply inserted_rows_view.
    + intros c' Hne. rewrite Hkept.
      apply not_eq_sym in Hne. apply String.eqb_neq in Hne. rewrite Hne. reflexivity.
  - intros good bad rest Hd Hall Hbad. rewrite Hd.
    destruct (for_each_insert_stops sender_column (Php.data_id d) good rest bad s2 Hex2 Hall Hbad)
      as [[e Hr] Hf].
    rewrite Hr, Hf. subst s2. simpl. rewrite Hm, Hn.
    split; [exists e; reflexivity|].
    rewrite Hkept, String.eqb_refl. apply inserted_rows_view.
Qed.

Lemma X16_saveChat_replaces_witness :
  (exists e,
     Php.reply
       (Php.saveChat members 1
          (Php.mkChatData "c1" "Test" "llama2" 5 20
             [Php.mkChatMessage "user" "Hello again" None None 15;
              Php.mkChatMessage "bot" "Hi" None None 16])
          Scenario.with_hello) = Php.php_uncaught e) /\
  map Php.view
    (filter (in_chat "c1")
       (messages
          (Php.after
             (Php.saveChat members 1
                (Php.mkChatData "c1" "Test" "llama2" 5 20
                   [Php.mkChatMessage "user" "Hello again" None None 15;
                    Php.mkChatMessage "bot" "Hi" None None 16])
                Scenario.with_hello))))
  = [Php.mkChatMessage "user" "Hello again" None None 15].
Proof.
  destruct (X16_saveChat_replaces members Scenario.with_hello 1
              (Php.mkChatData "c1" "Test" "llama2" 5 20
                 [Php.mkChatMessage "user" "Hello again" None None 15;
                  Php.mkChatMessage "bot" "Hi" None None 16])
              eq_refl (or_introl eq_refl)) as [_ Hstops].
  apply (Hstops [Php.mkChatMessage "user" "Hello again" None None 15]
           (Php.mkChatMessage "bot" "Hi" None None 16) []); reflexivity.
Defined.

Lemma saveChat_stored (sender_column : SenderColumn)
    (s : Store) (u : nat) (d : Php.ChatData) :
  fits 50 (Php.data_id d) && fits 255 (Php.data_name d) && fits 100 (Php.data_model d)
  = true ->
  chat_exists (Php.data_id d) s = true \/ user_exists u s = true ->
  forallb (storable sender_column) (Php.data_messages d) = true ->
  filter (in_chat (Php.data_id d)) (messages (Php.after (Php.saveChat sender_column u d s)))
  = inserted_rows sender_column (Php.data_id d) (Php.data_messages d) (next_message_id s).
Proof.
  intros Hfit Hor Hall.
  destruct (upsert_chat_ok s u d Hfit Hor) as [s1 [n [E [Hm [Hn Hex]]]]].
  destruct (saveChat_run sender_column s u d s1 n E) as [_ ->].
  destruct (for_each_insert_all sender_column (Php.data_id d) (Php.data_messages d)
              (set_messages s1
                 (filter (fun m => negb (in_chat (Php.data_id d) m)) (messages s1))
                 (next_message_id s1)) Hex Hall) as [_ ->].
  simpl. rewrite Hm, Hn, filter_app, filter_other_chat, inserted_rows_in_chat.
  rewrite String.eqb_refl. reflexivity.
Qed.

Lemma inserted_rows_bounds (sender_column : SenderColumn)
    (c : string) (l : list Php.ChatMessage) (n : nat) (r : Message) :
  In r (inserted_rows sender_column c l n) ->
  n <= message_id r /\ exists m, In m l /\ timestamp r = Php.cm_timestamp m.
Proof.
  revert n. induction l as [|m l IH]; intros n Hin; simpl in Hin; [destruct Hin|].
  destruct Hin as [<- | Hin].
  - simpl. split; [lia|]. exists m. split; [left; reflexivity | reflexivity].
  - destruct (IH (S n) Hin) as [Hle [m' [Hm' Ht]]].
    split; [lia|]. exists m'. split; [right; exact Hm' | exact Ht].
Qed.

Lemma inserted_rows_sorted (sender_column : SenderColumn)
    (c : string) (l : list Php.ChatMessage) (n : nat) :
  StronglySorted (fun a b => Php.cm_timestamp a < Php.cm_timestamp b) l ->
  StronglySorted (fun a b => timestamp_asc a b = true) (inserted_rows sender_column c l n).
Proof.
  intro H. revert n. induction H as [|m l Hs IH Hall]; intro n; simpl; constructor.
  - apply IH.
  - rewrite Forall_forall in *. intros r Hr.
    destruct (inserted_rows_bounds sender_column c l (S n) r Hr) as [Hle [m' [Hm' Ht]]].
    apply timestamp_asc_spec. simpl. specialize (Hall m' Hm'). lia.
Qed.

Lemma getUserChats_rows (s : Store) (owner : nat) (rows : list Php.ChatRow) :
  Php.reply (Php.getUserChats owner s) = Php.php_chats rows ->
  forall r, In r rows ->
    chat_user_id (Php.row_chat r) = owner /\
    In (Php.row_chat r) (chats s) /\
    Php.row_messages r = map Php.view (select_messages (chat_id (Php.row_chat r)) s).
Proof.
  unfold Php.getUserChats, Php.run, bind, query. simpl. intro H. injection H as <-.
  intros r Hr. rewrite map_map in Hr. apply in_map_iff in Hr.
  destruct Hr as [ch [<- Hin]]. simpl. apply owned_rows_In in Hin.
  repeat split; tauto.
Qed.

(** X17. What [saveChat] stores, [getUserChats] gives back: after a
    successful save of messages whose timestamps strictly increase, the
    chat read in order holds the supplied messages in the order given, each
    with the sender the column stored, and so does the row of that chat in
    a listing. *)
Theorem X17_saveChat_then_getUserChats (sender_column : SenderColumn)
    (s : Store) (u : nat) (d : Php.ChatData) :
  fits 50 (Php.data_id d) && fits 255 (Php.data_name d) && fits 100 (Php.data_model d)
  = true ->
  chat_exists (Php.data_id d) s = true \/ user_exists u s = true ->
  forallb (storable sender_column) (Php.data_messages d) = true ->
  StronglySorted (fun a b => Php.cm_timestamp a < Php.cm_timestamp b)
    (Php.data_messages d) ->
  map Php.view (select_messages (Php.data_id d) (Php.after (Php.saveChat sender_column u d s)))
  = map (as_stored sender_column) (Php.data_messages d) /\
  forall owner rows r,
    Php.reply (Php.getUserChats owner (Php.after (Php.saveChat sender_column u d s)))
    = Php.php_chats rows ->
    In r rows -> chat_id (Php.row_chat r) = Php.data_id d ->
    Php.row_messages r = map (as_stored sender_column) (Php.data_messages d).
Proof.
  intros Hfit Hor Hall Hsorted.
  assert (Hsel : map Php.view
                   (select_messages (Php.data_id d) (Php.after (Php.saveChat sender_column u d s)))
                 = map (as_stored sender_column) (Php.data_messages d)).
  { unfold select_messages. rewrite (saveChat_stored sender_column s u d Hfit Hor Hall).
    rewrite order_by_sorted_id by (apply inserted_rows_sorted, Hsorted).
    apply inserted_rows_view. }
  split; [exact Hsel|].
  intros owner rows r Hreply Hin Hid.
  destruct (getUserChats_rows _ owner rows Hreply r Hin) as [_ [_ ->]].
  rewrite Hid. exact Hsel.
Qed.

Lemma X17_saveChat_then_getUserChats_witness :
  map Php.view
    (select_messages "c1"
       (Php.after
          (Php.saveChat members 1
             (Php.mkChatData "c1" "Test" "llama2" 5 20
                [Php.mkChatMessage "user" "Hello" None None 15;
                 Php.mkChatMessage "ai" "Hi!" None None 16])
             Scenario.with_hello)))
  = [Php.mkChatMessage "user" "Hello" None None 15;
     Php.mkChatMessage "ai" "Hi!" None None 16].
Proof.
  apply (X17_saveChat_then_getUserChats members Scenario.with_hello 1
           (Php.mkChatData "c1" "Test" "llama2" 5 20
              [Php.mkChatMessage "user" "Hello" None None 15;
               Php.mkChatMessage "ai" "Hi!" None None 16])).
  - reflexivity.
  - left. reflexivity.
  - reflexivity.
  - repeat constructor.
Defined.

(** ** The constraints of the schema, in the PDO backend *)

Lemma upsert_chat_consistent (id : string) (u : nat) (name model : string)
    (createdAt updatedAt : nat) (s s1 : Store) (n : nat) :
  Php.upsert_chat id u name model createdAt updatedAt s = inr (s1, n) ->
  consistent s -> consistent s1.
Proof.
  unfold Php.upsert_chat.
  destruct (negb (fits 50 id && fits 255 name && fits 100 model)); [discriminate|].
  destruct (chat_exists id s) eqn:Hex.
  - intro H. injection H as <- _. apply consistent_same_ids; try reflexivity.
    simpl. rewrite map_map. apply map_ext. intro ch.
    destruct (chat_id ch =? id); reflexivity.
  - destruct (negb (user_exists u s)); [discriminate|].
    intros H [Hk [Hr Hf]]. injection H as <- _.
    unfold consistent, chats_keyed, referential, fresh_message_ids. simpl.
    rewrite map_app. simpl. repeat split.
    + apply NoDup_app; repeat split; try assumption.
      * constructor; [intros []|constructor].
      * intros x Hx [<- | []]. apply chat_exists_In in Hx. congruence.
    + intros m Hin. apply chat_exists_In. simpl. rewrite map_app.
      apply in_or_app. left. apply chat_exists_In, Hr, Hin.
    + exact Hf.
Qed.

Lemma delete_messages_consistent (c : string) (s : Store) :
  consistent s ->
  consistent (set_messages s (filter (fun m => negb (in_chat c m)) (messages s))
                (next_message_id s)).
Proof.
  intros [Hk [Hr Hf]]. repeat split; [exact Hk | |].
  - intros m Hin. simpl in Hin. apply filter_In in Hin. apply (Hr m). tauto.
  - intros m Hin. simpl in Hin. apply filter_In in Hin. apply (Hf m). tauto.
Qed.

Lemma for_each_insert_consistent (sender_column : SenderColumn)
    (c : string) (l : list Php.ChatMessage) (s : Store) :
  consistent s ->
  consistent (final (Php.for_each l (fun message =>
                execute (insert_message sender_column c (Php.cm_sender message) (Php.cm_content message)
                           (Php.cm_model message) (Php.cm_responseInfo message)
                           (Php.cm_timestamp message))) s)).
Proof.
  revert s. induction l as [|m l IH]; intros s Hc; simpl; [exact Hc|].
  destruct (insert_message sender_column c (Php.cm_sender m) (Php.cm_content m) (Php.cm_model m)
              (Php.cm_responseInfo m) (Php.cm_timestamp m) s) as [e | [s1 id]] eqn:E.
  - rewrite (bind_execute_inl _ _ _ _ E). exact Hc.
  - rewrite (bind_execute_inr _ _ _ _ _ E). cbn [final].
    apply IH. exact (insert_message_consistent sender_column _ _ _ _ _ _ _ _ _ E Hc).
Qed.

(** X18. The controllers of the PDO backend that write chats and messages
    leave a store that satisfies the constraints of the schema, whether
    they succeed, refuse, or stop at an exception: after [saveChat] and
    after [deleteChat] chat identities are distinct, every message belongs
    to a chat of the table, and message identities lie below the counter. *)
Theorem X18_php_writers_keep_consistent (sender_column : SenderColumn)
    (s : Store) (u : nat) :
  consistent s ->
  (forall d, consistent (Php.after (Php.saveChat sender_column u d s))) /\
  (forall c, consistent (Php.after (Php.deleteChat u c s))).
Proof.
  intro Hc. split.
  - intro d.
    destruct (Php.upsert_chat (Php.data_id d) u (Php.data_name d) (Php.data_model d)
                (Php.data_createdAt d) (Php.data_updatedAt d) s) as [e | [s1 n]] eqn:E.
    + unfold Php.saveChat, Php.run. cbn [Php.after].
      rewrite (bind_execute_inl _ _ _ _ E). exact Hc.
    + destruct (saveChat_run sender_column s u d s1 n E) as [_ ->].
      apply for_each_insert_consistent, delete_messages_consistent.
      exact (upsert_chat_consistent _ _ _ _ _ _ _ _ _ E Hc).
  - intro c. rewrite deleteChat_run.
    destruct (limit_1 (select_chat_by_id c s)) as [ch|]; [|exact Hc].
    destruct (negb (chat_user_id ch =? u)%nat); [exact Hc|].
    apply delete_chats_consistent, Hc.
Qed.

Lemma X18_php_writers_keep_consistent_witness :
  consistent (Php.after (Php.deleteChat 1 "c1" Scenario.with_hello)).
Proof.
  assert (Hc : consistent Scenario.with_hello).
  { repeat split.
    - repeat constructor. intros [].
    - intros m [<- | []]. reflexivity.
    - intros m [<- | []]. simpl. lia. }
  destruct (X18_php_writers_keep_consistent members Scenario.with_hello 1 Hc) as [_ Hdelete].
  apply Hdelete.
Defined.

(** ** Route handling of the PDO backend *)

Lemma substring_here (needle rest : string) :
  substring 0 (String.length needle) (needle ++ rest) = needle.
Proof.
  induction needle as [|a needle IH]; simpl.
  - destruct rest; reflexivity.
  - rewrite IH. reflexivity.
Qed.

Lemma substring_after (before needle rest : string) :
  substring (String.length before) (String.length needle) (before ++ needle ++ rest)
  = needle.
Proof.
  induction before as [|a before IH]; simpl; [apply substring_here | exact IH].
Qed.

Lemma occurs_inside (needle before rest : string) :
  needle <> "" -> Php.occurs needle (before ++ needle ++ rest) = true.
Proof.
  intro Hne. unfold Php.occurs, Php.strpos.
  destruct (index 0 needle (before ++ needle ++ rest)) eqn:E; [reflexivity|].
  exfalso.
  apply (index_correct3 0 (String.length before) needle (before ++ needle ++ rest) E Hne);
    [lia | apply substring_after].
Qed.

(** X19. The script routes on the method and on the place-free occurrence
    of a marker in the request URI: a GET or a DELETE whose URI holds
    "/api/chats" anywhere reaches [getUserChats] or [deleteChat], a POST
    whose URI holds "/api/register" anywhere reaches [register] whatever
    else the URI holds, and a method other than OPTIONS, POST, GET and
    DELETE reaches no controller. *)
Theorem X19_route_by_marker (method before rest : string) :
  Php.route "GET" (before ++ "/api/chats" ++ rest) = Php.to_getUserChats /\
  Php.route "DELETE" (before ++ "/api/chats" ++ rest) = Php.to_deleteChat /\
  Php.route "POST" (before ++ "/api/register" ++ rest) = Php.to_register /\
  (method <> "OPTIONS" -> method <> "POST" -> method <> "GET" -> method <> "DELETE" ->
   forall path, Php.route method path = Php.endpoint_not_found).
Proof.
  split; [|split; [|split]].
  - unfold Php.route. rewrite (occurs_inside "/api/chats" before rest) by discriminate.
    reflexivity.
  - unfold Php.route. rewrite (occurs_inside "/api/chats" before rest) by discriminate.
    reflexivity.
  - unfold Php.route. rewrite (occurs_inside "/api/register" before rest) by discriminate.
    reflexivity.
  - intros H1 H2 H3 H4 path. unfold Php.route.
    apply String.eqb_neq in H1. apply String.eqb_neq in H2.
    apply String.eqb_neq in H3. apply String.eqb_neq in H4.
    rewrite H1, H2, H3, H4. reflexivity.
Qed.

Lemma X19_route_by_marker_witness :
  Php.route "PATCH" "/api/chats" = Php.endpoint_not_found.
Proof.
  apply (X19_route_by_marker "PATCH" "" ""); discriminate.
Defined.

(** ** Who may save a chat *)

(** X20. [saveChat] never looks at the owner of an existing chat: whoever
    calls it with the identity of a chat of the table and values that fit
    the columns, every chat of that identity takes the supplied name and
    [updated_at] and keeps its owner, and the other chats are untouched. *)
Theorem X20_saveChat_asks_no_owner (sender_column : SenderColumn)
    (s : Store) (u : nat) (d : Php.ChatData) :
  chat_exists (Php.data_id d) s = true ->
  fits 50 (Php.data_id d) && fits 255 (Php.data_name d) && fits 100 (Php.data_model d)
  = true ->
  chats (Php.after (Php.saveChat sender_column u d s))
  = map (fun ch => if chat_id ch =? Php.data_id d
                   then mkChat (chat_id ch) (chat_user_id ch) (Php.data_name d)
                          (chat_model ch) (created_at ch) (Php.data_updatedAt d)
                   else ch) (chats s) /\
  (forall ch, In ch (chats (Php.after (Php.saveChat sender_column u d s))) ->
              chat_id ch = Php.data_id d ->
              chat_name ch = Php.data_name d /\ updated_at ch = Php.data_updatedAt d) /\
  (forall ch, In ch (chats s) -> chat_id ch <> Php.data_id d ->
              In ch (chats (Php.after (Php.saveChat sender_column u d s)))).
Proof.
  intros Hex Hfit. rewrite saveChat_chats. unfold Php.upsert_chat.
  rewrite Hfit, Hex. cbn [negb]. simpl. split; [reflexivity|]. split.
  - intros ch Hin Hid. apply in_map_iff in Hin. destruct Hin as [ch0 [<- Hin0]].
    destruct (chat_id ch0 =? Php.data_id d) eqn:E; [split; reflexivity|].
    apply String.eqb_neq in E. contradiction.
  - intros ch Hin Hne. apply in_map_iff. exists ch. split; [|exact Hin].
    apply String.eqb_neq in Hne. rewrite Hne. reflexivity.
Qed.

Lemma X20_saveChat_asks_no_owner_witness :
  chats (Php.after (Php.saveChat members 2 (Php.mkChatData "c1" "Taken" "llama2" 5 20 [])
                      Scenario.with_hello))
  = [mkChat "c1" 1 "Taken" "llama2" 5 20].
Proof.
  apply (X20_saveChat_asks_no_owner members Scenario.with_hello 2
           (Php.mkChatData "c1" "Taken" "llama2" 5 20 [])); reflexivity.
Defined.
